(** * mcp-autocad-api: chunker, link graph and hybrid index

    A shallow embedding of the ingestion core of the repository
    ([ingester/chunker.py], [ingester/link_graph.py], [ingester/indexer.py])
    and the properties its specification states about it.

    Conventions.
    - Python [str] is [string]; [len] is [String.length]; Python [int] is [Z],
      [//] is [Z.div] (both round towards minus infinity for the positive
      divisors used here).
    - A Python [dict] whose iteration order is observed is an association
      list in insertion order ([PyDict]); a dict that is only looked up is a
      [gmap].
    - Third-party libraries (BeautifulSoup, pathlib, FAISS, BM25, the sentence
      embedder) are section variables; every theorem holds for any behaviour
      of theirs, and concrete instances are supplied for the examples.
    - The order in which the interpreter iterates over a [set] of strings is
      a parameter [set_iter] of the fusion: CPython derives it from string
      hashes that are salted per process.
    - Python floats holding reciprocal-rank scores are exact rationals [Q].
    - List objects that can be reached through two references are addresses
      into a store ([NeighborsHeap]). *)

From Stdlib Require Import ZArith QArith Qminmax List Ascii String Lia Permutation Sorted.
From stdpp Require Import base strings gmap list pretty.

Local Open Scope string_scope.
Local Open Scope list_scope.
Local Open Scope Z_scope.

(* ===================================================================== *)
(** * Python strings *)
(* ===================================================================== *)

Module PyStr.

(** Truthiness of a [str]: the empty string is falsy. *)
Definition truthy (s : string) : bool :=
  match s with EmptyString => false | _ => true end.

(** [len(s)] as a Python int. *)
Definition len (s : string) : Z := Z.of_nat (String.length s).

(** [str.isspace] on code points below 256. *)
Definition isspace (c : ascii) : bool :=
  let n := N_of_ascii c in
  (((9 <=? n) && (n <=? 13)) || ((28 <=? n) && (n <=? 32))
   || (n =? 133) || (n =? 160))%N.

(** [s.split()] with no separator: maximal runs of non-whitespace. [w] is
    the word being read. *)
Fixpoint split_from (w : string) (s : string) : list string :=
  match s with
  | EmptyString => if truthy w then [w] else []
  | String c rest =>
      if isspace c
      then (if truthy w then w :: split_from "" rest else split_from "" rest)
      else split_from (w +:+ String c "") rest
  end.

Definition split (s : string) : list string := split_from "" s.

(** [sep.join(words)]. *)
Definition join (sep : string) (words : list string) : string :=
  String.concat sep words.

(** [l[n:]] for a possibly negative start. *)
Definition slice_from {A} (n : Z) (l : list A) : list A :=
  if n <? 0
  then drop (Z.to_nat (Z.max (Z.of_nat (length l) + n) 0)) l
  else drop (Z.to_nat n) l.

(** [s.startswith(p)]. *)
Definition startswith (p s : string) : bool := String.prefix p s.

(** [s.endswith(p)]. *)
Definition endswith (p s : string) : bool :=
  let lp := String.length p in
  let ls := String.length s in
  (lp <=? ls)%nat && String.eqb (String.substring (ls - lp) lp s) p.

(** [s.lower()] on code points below 256: the upper-case letters are
    [A]-[Z] and, in the Latin-1 block, U+00C0-U+00DE without the
    multiplication sign U+00D7; each has its lower-case form 32 places
    on. *)
Definition lower_char (c : ascii) : ascii :=
  let n := N_of_ascii c in
  if (((65 <=? n) && (n <=? 90))
      || ((192 <=? n) && (n <=? 222) && negb (n =? 215)))%N
  then ascii_of_N (n + 32) else c.

Fixpoint lower (s : string) : string :=
  match s with
  | EmptyString => EmptyString
  | String c rest => String (lower_char c) (lower rest)
  end.

(** [s.find(sub)]: index of the first occurrence, [-1] when there is
    none. *)
Fixpoint find_from (i : Z) (sub s : string) : Z :=
  if String.prefix sub s then i
  else match s with
       | EmptyString => -1
       | String _ rest => find_from (i + 1) sub rest
       end.

Definition find (sub s : string) : Z := find_from 0 sub s.

(** [s[a:b]] for [0 <= a]. *)
Definition slice (a b : Z) (s : string) : string :=
  String.substring (Z.to_nat a) (Z.to_nat (b - a)) s.

End PyStr.

(* ===================================================================== *)
(** * Insertion-ordered dictionaries *)
(* ===================================================================== *)

Module PyDict.
Section Dict.
Context {V : Type}.

Definition t := list (string * V).

(** [d.get(k)] / [d[k]]. *)
Fixpoint get (k : string) (d : t) : option V :=
match d with
| [] => None
| (k', v) :: rest => if String.eqb k k' then Some v else get k rest
end.

(** [k in d]. *)
Definition mem (k : string) (d : t) : bool :=
match get k d with Some _ => true | None => false end.

(** [d[k] = v]: an existing key keeps its position, a new key goes last. *)
Fixpoint set (k : string) (v : V) (d : t) : t :=
match d with
| [] => [(k, v)]
| (k', v') :: rest =>
    if String.eqb k k' then (k', v) :: rest else (k', v') :: set k v rest
end.

Definition keys (d : t) : list string := map fst d.

End Dict.
Arguments t : clear implicits.
End PyDict.

(* ===================================================================== *)
(** * models.py *)
(* ===================================================================== *)

Inductive SourceType :=
| ARXMGD | ARXMGD_DEV | ARXDEV | ARXDOC | ARXIOP | ARXMGR | ARXREF | READARX.

Definition source_value (s : SourceType) : string :=
  match s with
  | ARXMGD => "arxmgd" | ARXMGD_DEV => "arxmgd_dev" | ARXDEV => "arxdev"
  | ARXDOC => "arxdoc" | ARXIOP => "arxiop" | ARXMGR => "arxmgr"
  | ARXREF => "arxref" | READARX => "readarx"
  end.

(** [DocumentPage]; the free-form [metadata] dict is not read by the code
    modelled here and is left out. *)
Record DocumentPage := {
  page_id : string;
  page_source : SourceType;
  page_title : string;
  page_path : string;
  page_content : string;
  page_html_content : string;
  page_anchors : list string;
  page_see_also : list string
}.

(** Values that [json.dump] writes and [json.load] reads back unchanged. *)
#[local] Unset Elimination Schemes.
Inductive JSON :=
| JNull
| JStr (s : string)
| JInt (z : Z)
| JList (items : list JSON)
| JObj (fields : list (string * JSON)).
#[local] Set Elimination Schemes.

Record DocumentChunk := {
  chunk_id : string;
  chunk_source : SourceType;
  chunk_page_id : string;
  chunk_title : string;
  chunk_path : string;
  chunk_anchor : option string;
  content : string;
  html_content : string;
  chunk_index : Z;
  total_chunks : Z;
  start_offset : Z;
  end_offset : Z;
  metadata : list (string * JSON)
}.

Record SearchResult := {
  sr_id : string;
  sr_title : string;
  sr_path : string;
  sr_snippet : string;
  sr_score : Q;
  sr_source : SourceType;
  sr_chunk_index : option Z
}.

(* ===================================================================== *)
(** * chunker.py: HeadingAwareChunker *)
(* ===================================================================== *)

Module Chunker.

(** The constructor arguments of [HeadingAwareChunker]. *)
Record Config := {
  target_tokens : Z;
  overlap_tokens : Z;
  min_chunk_tokens : Z
}.

Definition default_config : Config :=
  {| target_tokens := 1000; overlap_tokens := 150; min_chunk_tokens := 200 |}.

(** What the loops read of a BeautifulSoup element: its tag class, its
    [get_text().strip()] and its [str(element)]. *)
Inductive Tag := Heading (level : Z) | Block.

Record Element := {
  tag : Tag;
  text : string;
  html : string
}.

(** One entry of [self.anchor_map]. *)
Record AnchorEntry := {
  anchor_chunk_id : string;
  anchor_offset : Z;
  anchor_start_offset : Z;
  anchor_end_offset : Z
}.

(** The section dicts built by [_extract_heading_sections]. *)
Record HeadingSection := {
  heading : string;
  sec_level : Z;
  sec_text : string;
  sec_html : string
}.

(** [_estimate_tokens]. *)
Definition _estimate_tokens (t : string) : Z := PyStr.len t / 4.

(** The body of the loop of [_extract_heading_sections]: the state is
    [(sections, current_section)]. *)
Definition heading_step (st : list HeadingSection * option HeadingSection)
    (element : Element) : list HeadingSection * option HeadingSection :=
  let '(sections, current_section) := st in
  match tag element with
  | Heading lvl =>
      let sections' :=
        match current_section with
        | Some cs => sections ++ [cs]
        | None => sections
        end in
      (sections',
       Some {| heading := text element; sec_level := lvl;
               sec_text := text element; sec_html := html element |})
  | Block =>
      match current_section with
      | Some cs =>
          if PyStr.truthy (text element)
          then (sections,
                Some {| heading := heading cs; sec_level := sec_level cs;
                        sec_text := sec_text cs +:+ " " +:+ text element;
                        sec_html := sec_html cs +:+ html element |})
          else (sections, Some cs)
      | None => (sections, None)
      end
  end.

(** [_extract_heading_sections], on the elements [soup.find_all] yields. *)
Definition _extract_heading_sections (elements : list Element)
    : list HeadingSection :=
  let '(sections, current_section) :=
    fold_left heading_step elements ([], None) in
  match current_section with
  | Some cs => sections ++ [cs]
  | None => sections
  end.

Section WithConfig.
Variable self : Config.

(** [_get_overlap_text]. Python parses [-self.overlap_tokens//4] as
    [(-self.overlap_tokens)//4]. *)
Definition _get_overlap_text (t : string) : string :=
  let words := PyStr.split t in
  let overlap_words :=
    if Z.of_nat (length words) >? overlap_tokens self / 4
    then PyStr.slice_from ((- overlap_tokens self) / 4) words
    else [] in
  PyStr.join " " overlap_words.

(** BeautifulSoup, as far as the chunker uses it: the elements of
    [find_all(['h1',...,'h6','p','div','li'])] in document order, and,
    for [_extract_chunk_anchors], the [(attribute value, str(element))]
    pairs of the elements carrying an [id], resp. a [name]. *)
Variable find_all : string -> list Element.
Variable id_elements : string -> list (string * string).
Variable name_elements : string -> list (string * string).

(** [_extract_chunk_anchors]. *)
Definition _extract_chunk_anchors (h : string) (start_off end_off : Z)
    : PyDict.t Z :=
  let record (anchors : PyDict.t Z) (e : string * string) :=
    let element_pos := PyStr.find (snd e) h in
    if element_pos =? -1 then anchors
    else PyDict.set (fst e) element_pos anchors in
  fold_left record (name_elements h) (fold_left record (id_elements h) []).

(** [_create_chunk]: the chunk, and [self.anchor_map] after the call. *)
Definition _create_chunk (anchor_map : PyDict.t AnchorEntry)
    (page : DocumentPage) (index : Z) (t h : string)
    (start_off end_off : Z) : DocumentChunk * PyDict.t AnchorEntry :=
  let cid := page_id page +:+ "_chunk_" +:+ pretty index in
  let chunk_anchors := _extract_chunk_anchors h start_off end_off in
  let anchor_map' :=
    fold_left
      (fun am (kv : string * Z) =>
         PyDict.set (page_id page +:+ "#" +:+ fst kv)
           {| anchor_chunk_id := cid; anchor_offset := snd kv;
              anchor_start_offset := start_off;
              anchor_end_offset := end_off |} am)
      chunk_anchors anchor_map in
  ({| chunk_id := cid;
      chunk_source := page_source page;
      chunk_page_id := page_id page;
      chunk_title := page_title page;
      chunk_path := page_path page;
      chunk_anchor := None;
      content := t;
      html_content := h;
      chunk_index := index;
      total_chunks := 0;
      start_offset := start_off;
      end_offset := end_off;
      metadata :=
        [ ("original_page_title", JStr (page_title page));
          ("original_page_path", JStr (page_path page));
          ("word_count", JInt (Z.of_nat (length (PyStr.split t))));
          ("char_count", JInt (PyStr.len t));
          ("anchors", JList (map JStr (PyDict.keys chunk_anchors))) ] |},
   anchor_map').

(** The local variables of the accumulation loop, with
    [self.anchor_map]. *)
Record Loop := {
  chunks : list DocumentChunk;
  current_chunk_text : string;
  current_chunk_html : string;
  current_offset : Z;
  next_chunk_index : Z;
  anchor_map : PyDict.t AnchorEntry
}.

(** The guard "adding this section would exceed target". *)
Definition closes (st : Loop) (section_text : string) : bool :=
  PyStr.truthy (current_chunk_text st)
  && (_estimate_tokens (current_chunk_text st +:+ " " +:+ section_text)
      >? target_tokens self).

(** [chunks.append(self._create_chunk(...)); chunk_index += 1]. *)
Definition emit (page : DocumentPage) (st : Loop) : Loop :=
  let '(chunk, am) :=
    _create_chunk (anchor_map st) page (next_chunk_index st)
      (current_chunk_text st) (current_chunk_html st)
      (current_offset st)
      (current_offset st + PyStr.len (current_chunk_text st)) in
  {| chunks := chunks st ++ [chunk];
     current_chunk_text := current_chunk_text st;
     current_chunk_html := current_chunk_html st;
     current_offset := current_offset st;
     next_chunk_index := next_chunk_index st + 1;
     anchor_map := am |}.

(** One iteration of the loop of [chunk_page] over a section with text
    [section_text] and markup [section_html]. The loop of
    [_chunk_by_paragraphs] has the same body. *)
Definition step (page : DocumentPage) (st : Loop)
    (sec : string * string) : Loop :=
  let '(section_text, section_html) := sec in
  if closes st section_text then
    let st1 :=
      if _estimate_tokens (current_chunk_text st) >=? min_chunk_tokens self
      then emit page st else st in
    let overlap_text := _get_overlap_text (current_chunk_text st) in
    let new_text :=
      if PyStr.truthy overlap_text
      then overlap_text +:+ " " +:+ section_text
      else section_text in
    {| chunks := chunks st1;
       current_chunk_text := new_text;
       current_chunk_html := section_html;
       current_offset :=
         current_offset st + PyStr.len new_text
         - PyStr.len overlap_text - PyStr.len section_text;
       next_chunk_index := next_chunk_index st1;
       anchor_map := anchor_map st1 |}
  else if PyStr.truthy (current_chunk_text st) then
    {| chunks := chunks st;
       current_chunk_text :=
         current_chunk_text st +:+ " " +:+ section_text;
       current_chunk_html := current_chunk_html st +:+ section_html;
       current_offset := current_offset st;
       next_chunk_index := next_chunk_index st;
       anchor_map := anchor_map st |}
  else
    {| chunks := chunks st;
       current_chunk_text := section_text;
       current_chunk_html := section_html;
       current_offset := current_offset st;
       next_chunk_index := next_chunk_index st;
       anchor_map := anchor_map st |}.

(** "Add final chunk". *)
Definition finish (page : DocumentPage) (st : Loop) : Loop :=
  if PyStr.truthy (current_chunk_text st)
     && (_estimate_tokens (current_chunk_text st)
         >=? min_chunk_tokens self)
  then emit page st else st.

Definition start (am : PyDict.t AnchorEntry) : Loop :=
  {| chunks := []; current_chunk_text := ""; current_chunk_html := "";
     current_offset := 0; next_chunk_index := 0; anchor_map := am |}.

(** The loop and the final emission, from an arbitrary loop state. *)
Definition run (page : DocumentPage) (st : Loop)
    (secs : list (string * string)) : Loop :=
  finish page (fold_left (step page) secs st).

(** [_chunk_by_paragraphs]: the block elements with non-empty text. *)
Definition paragraphs (elements : list Element) : list (string * string) :=
  omap (fun e =>
          match tag e with
          | Block =>
              if PyStr.truthy (text e) then Some (text e, html e) else None
          | Heading _ => None
          end) elements.

Definition _chunk_by_paragraphs (am : PyDict.t AnchorEntry)
    (page : DocumentPage) : Loop :=
  run page (start am) (paragraphs (find_all (page_html_content page))).

(** The items [chunk_page] accumulates: the heading sections, or the
    paragraphs when there is no heading. *)
Definition items (page : DocumentPage) : list (string * string) :=
  let heading_sections :=
    _extract_heading_sections (find_all (page_html_content page)) in
  match heading_sections with
  | [] => paragraphs (find_all (page_html_content page))
  | _ => map (fun s => (sec_text s, sec_html s)) heading_sections
  end.

(** [chunk_page], with [self.anchor_map] passed in and out. *)
Definition chunk_page_state (am : PyDict.t AnchorEntry)
    (page : DocumentPage) : Loop :=
  run page (start am) (items page).

Definition chunk_page (am : PyDict.t AnchorEntry) (page : DocumentPage)
    : list DocumentChunk :=
  chunks (chunk_page_state am page).

(** Ghost trace of the loop: every buffer that is closed, in order, with
    whether it was emitted as a chunk. A buffer is closed by a section
    that trips [closes], and the one left at the end is closed by
    [finish] (an empty one is not a buffer). *)
Definition emitted (b : string) : bool :=
  _estimate_tokens b >=? min_chunk_tokens self.

Fixpoint closed_buffers (page : DocumentPage) (st : Loop)
    (secs : list (string * string)) : list (string * bool) :=
  match secs with
  | [] =>
      if PyStr.truthy (current_chunk_text st)
      then [(current_chunk_text st, emitted (current_chunk_text st))]
      else []
  | sec :: rest =>
      (if closes st (fst sec)
       then [(current_chunk_text st, emitted (current_chunk_text st))]
       else [])
      ++ closed_buffers page (step page st sec) rest
  end.

End WithConfig.

(** The claim about adjacent chunks, as a property of one page's chunk
    list: each chunk's overlap seed starts the next chunk. *)
Definition overlap_property (self : Config) (cs : list DocumentChunk) : Prop :=
  forall (i : nat) (a b : DocumentChunk),
    cs !! i = Some a -> cs !! S i = Some b ->
    PyStr.startswith (_get_overlap_text self (content a)) (content b) = true.

End Chunker.

(* ===================================================================== *)
(** * pathlib, as far as link resolution uses it *)
(* ===================================================================== *)

Module PosixPath.

(** [s.split("/")]; [w] is the component being read. *)
Fixpoint components_from (w : string) (s : string) : list string :=
  match s with
  | EmptyString => [w]
  | String c rest =>
      if Ascii.eqb c "/" then w :: components_from "" rest
      else components_from (w +:+ String c "") rest
  end.

(** The parts of a pure POSIX path: empty and ["."] components vanish. *)
Definition parts (s : string) : list string :=
  List.filter (fun p => negb (String.eqb p "" || String.eqb p "."))
    (components_from "" s).

Definition is_absolute (s : string) : bool := PyStr.startswith "/" s.

(** [str(PurePosixPath(...))] from a root flag and the parts. *)
Definition render (absolute : bool) (ps : list string) : string :=
  if absolute then "/" +:+ PyStr.join "/" ps
  else match ps with [] => "." | _ => PyStr.join "/" ps end.

(** [str(Path(current_path).parent / link_path)]. *)
Definition join_parent (current_path link_path : string) : string :=
  if is_absolute link_path then render true (parts link_path)
  else render (is_absolute current_path)
         (removelast (parts current_path) ++ parts link_path).

End PosixPath.

(* ===================================================================== *)
(** * link_graph.py: LinkGraphBuilder *)
(* ===================================================================== *)

Module LinkGraph.

(** [TOCTreeNode] of toc_parser.py. *)
#[local] Unset Elimination Schemes.
Inductive TOCTreeNode :=
| TOCNode (title path : string) (children : list TOCTreeNode).
#[local] Set Elimination Schemes.

Definition toc_path (n : TOCTreeNode) : string :=
  match n with TOCNode _ p _ => p end.

Definition toc_children (n : TOCTreeNode) : list TOCTreeNode :=
  match n with TOCNode _ _ cs => cs end.

(** The value stored per page id in [self.graph]. *)
Record Edges := {
  parent : option string;
  children : list string;
  see_also : list string
}.

Definition no_edges : Edges :=
  {| parent := None; children := []; see_also := [] |}.

Abbreviation Graph := (gmap string Edges).

(** Truthiness of a value that is a [str] or [None]. *)
Definition truthy_id (o : option string) : option string :=
  match o with
  | Some s => if PyStr.truthy s then Some s else None
  | None => None
  end.

(** [x in l] for a list of strings. *)
Definition mem (x : string) (l : list string) : bool :=
  existsb (String.eqb x) l.

(** The first loop of [build_graph]: [(self.path_to_id, self.graph)]. *)
Definition index_page (st : gmap string string * Graph) (page : DocumentPage)
    : gmap string string * Graph :=
  (<[page_path page := page_id page]> (fst st),
   <[page_id page := no_edges]> (snd st)).

Definition index_pages (pages : list DocumentPage)
    : gmap string string * Graph :=
  fold_left index_page pages (∅, ∅).

Section WithIndex.
(** [self.path_to_id]. *)
Variable path_to_id : gmap string string.

(** The page a TOC node stands for: [node.path] must be non-empty and
    [self.path_to_id.get(node.path)] truthy. *)
Definition toc_page (path : string) : option string :=
  if PyStr.truthy path then truthy_id (path_to_id !! path) else None.

(** The statements under "Set parent relationship"; [None] is the
    [KeyError] of [self.graph[parent_id]]. *)
Definition set_parent (parent_id page_id : string) (g : Graph)
    : option Graph :=
  match g !! page_id with
  | None => Some g
  | Some e =>
      let g1 :=
        <[page_id := {| parent := Some parent_id; children := children e;
                        see_also := see_also e |}]> g in
      match g1 !! parent_id with
      | None => None
      | Some pe =>
          if mem page_id (children pe) then Some g1
          else Some (<[parent_id :=
                         {| parent := parent pe;
                            children := children pe ++ [page_id];
                            see_also := see_also pe |}]> g1)
      end
  end.

(** [_process_toc_node]. *)
Fixpoint _process_toc_node (node : TOCTreeNode) (parent_id : option string)
    (g : Graph) {struct node} : option Graph :=
  match node with
  | TOCNode _ path node_children =>
      let process_children (pid : option string) :=
        fix loop (cs : list TOCTreeNode) (g : Graph) {struct cs}
            : option Graph :=
          match cs with
          | [] => Some g
          | child :: rest =>
              match _process_toc_node child pid g with
              | Some g' => loop rest g'
              | None => None
              end
          end in
      match toc_page path with
      | None => process_children parent_id node_children g
      | Some page_id =>
          match
            match truthy_id parent_id with
            | Some p => set_parent p page_id g
            | None => Some g
            end
          with
          | Some g1 => process_children (Some page_id) node_children g1
          | None => None
          end
      end
  end.

(** [for node in nodes: self._process_toc_node(node, parent_id)]. *)
Fixpoint process_nodes (nodes : list TOCTreeNode) (parent_id : option string)
    (g : Graph) : option Graph :=
  match nodes with
  | [] => Some g
  | node :: rest =>
      match _process_toc_node node parent_id g with
      | Some g' => process_nodes rest parent_id g'
      | None => None
      end
  end.

(** [_add_toc_relationships]. *)
Definition _add_toc_relationships (toc_nodes : list TOCTreeNode) (g : Graph)
    : option Graph :=
  process_nodes toc_nodes None g.

(** [str(Path(current_path).parent / link_path)]. *)
Variable join_parent : string -> string -> string.

(** One round of the loop "Try with different extensions"; [None] means
    "go on". *)
Definition try_extension (link_path current_path ext : string)
    : option string :=
  if negb (PyStr.endswith ext link_path) then
    let test_path := link_path +:+ ext in
    match path_to_id !! test_path with
    | Some i => Some i
    | None => path_to_id !! join_parent current_path test_path
    end
  else None.

(** [_resolve_link_path]. *)
Definition _resolve_link_path (link_path current_path : string)
    : option string :=
  match path_to_id !! link_path with
  | Some i => Some i
  | None =>
      match path_to_id !! join_parent current_path link_path with
      | Some i => Some i
      | None =>
          match try_extension link_path current_path ".html" with
          | Some i => Some i
          | None => try_extension link_path current_path ".htm"
          end
      end
  end.

(** The body of the inner loop of [_add_see_also_relationships], for a
    page whose id is a key of the graph. *)
Definition add_see_also (page : DocumentPage) (g : Graph)
    (link_path : string) : Graph :=
  match truthy_id (_resolve_link_path link_path (page_path page)) with
  | Some target_id =>
      if negb (String.eqb target_id (page_id page)) then
        match g !! page_id page with
        | Some e =>
            if mem target_id (see_also e) then g
            else <[page_id page :=
                     {| parent := parent e; children := children e;
                        see_also := see_also e ++ [target_id] |}]> g
        | None => g
        end
      else g
  | None => g
  end.

(** [_add_see_also_relationships]. *)
Definition _add_see_also_relationships (pages : list DocumentPage)
    (g : Graph) : Graph :=
  fold_left
    (fun g page =>
       match g !! page_id page with
       | None => g
       | Some _ => fold_left (add_see_also page) (page_see_also page) g
       end)
    pages g.

End WithIndex.

(** [build_graph]; [None] stands for an uncaught [KeyError]. *)
Definition build_graph (join_parent : string -> string -> string)
    (toc_nodes : list TOCTreeNode) (pages : list DocumentPage)
    : option Graph :=
  let '(path_to_id, g0) := index_pages pages in
  match _add_toc_relationships path_to_id toc_nodes g0 with
  | Some g1 =>
      Some (_add_see_also_relationships path_to_id join_parent pages g1)
  | None => None
  end.

(** [get_neighbors], read as a function of the graph's contents. The
    sharing between the returned dict and the stored one is the subject of
    [NeighborsHeap] below. *)
Definition get_neighbors (g : Graph) (page_id : string) : Edges :=
  match g !! page_id with
  | None => no_edges
  | Some e => e
  end.

End LinkGraph.

(* ===================================================================== *)
(** * link_graph.py: what [get_neighbors] shares with the stored graph *)
(* ===================================================================== *)

(** [self.graph] as Python holds it: each record is a dict whose ['children']
    and ['see_also'] entries are references to list objects. *)
Module NeighborsHeap.

Definition loc := nat.

(** A record dict: ['parent'] holds a value, the other two keys hold the
    addresses of list objects. *)
Record EdgeDict := {
  parent : option string;
  children : loc;
  see_also : loc
}.

(** The builder's [self.graph], the list objects of the heap, and the next
    unused address. *)
Record Store := {
  graph : gmap string EdgeDict;
  lists : gmap loc (list string);
  next : loc
}.

Definition empty : Store := {| graph := ∅; lists := ∅; next := 0%nat |}.

(** [self.graph[page_id] = {'parent': p, 'children': cs, 'see_also': ss}]
    with two new list objects. *)
Definition store_record (st : Store) (page_id : string)
    (e : LinkGraph.Edges) : Store :=
  {| graph :=
       <[page_id := {| parent := LinkGraph.parent e; children := next st;
                       see_also := S (next st) |}]> (graph st);
     lists :=
       <[S (next st) := LinkGraph.see_also e]>
         (<[next st := LinkGraph.children e]> (lists st));
     next := S (S (next st)) |}.

(** The heap that holds the given records. *)
Definition store_of (records : list (string * LinkGraph.Edges)) : Store :=
  fold_left (fun st kv => store_record st (fst kv) (snd kv)) records empty.

(** The contents of [self.graph[page_id]], read through the references. *)
Definition stored (st : Store) (page_id : string) : option LinkGraph.Edges :=
  d ← graph st !! page_id;
  cs ← lists st !! children d;
  ss ← lists st !! see_also d;
  Some {| LinkGraph.parent := parent d; LinkGraph.children := cs;
          LinkGraph.see_also := ss |}.

(** [get_neighbors]: the returned dict and the store after the call. An
    unknown id gets a dict with two new empty lists; a known id gets
    [self.graph[page_id].copy()], a new dict holding the same values, that
    is, the same list objects. *)
Definition get_neighbors (st : Store) (page_id : string) : EdgeDict * Store :=
  match graph st !! page_id with
  | None =>
      ({| parent := None; children := next st; see_also := S (next st) |},
       {| graph := graph st;
          lists := <[S (next st) := []]> (<[next st := []]> (lists st));
          next := S (S (next st)) |})
  | Some d => (d, st)
  end.

(** What a caller can do with the dict it got. *)
Inductive Mutation :=
| SetParent (v : option string)
| AppendChild (x : string)
| ClearChildren
| AppendSeeAlso (x : string)
| ClearSeeAlso.

Definition update_list (l : loc) (f : list string -> list string)
    (st : Store) : Store :=
  {| graph := graph st; lists := alter f l (lists st); next := next st |}.

(** [r['parent'] = v], [r['children'].append(x)], [r['children'].clear()],
    and the same for ['see_also'], on the returned dict [r]. *)
Definition mutate (m : Mutation) (r : EdgeDict) (st : Store)
    : EdgeDict * Store :=
  match m with
  | SetParent v =>
      ({| parent := v; children := children r; see_also := see_also r |}, st)
  | AppendChild x => (r, update_list (children r) (fun l => l ++ [x]) st)
  | ClearChildren => (r, update_list (children r) (fun _ => []) st)
  | AppendSeeAlso x => (r, update_list (see_also r) (fun l => l ++ [x]) st)
  | ClearSeeAlso => (r, update_list (see_also r) (fun _ => []) st)
  end.

(** The claim C8: after [get_neighbors], no mutation of the returned dict
    changes what the builder stores. *)
Definition returns_value_copy (st : Store) (page_id : string) : Prop :=
  forall m q,
    let '(r, st1) := get_neighbors st page_id in
    stored (snd (mutate m r st1)) q = stored st q.

(** The records [build_graph] makes for a book with one topic. *)
Definition curves_records : list (string * LinkGraph.Edges) :=
  [ ("arxmgd_curves_html",
     {| LinkGraph.parent := None;
        LinkGraph.children := ["arxmgd_arc_html"];
        LinkGraph.see_also := [] |});
    ("arxmgd_arc_html",
     {| LinkGraph.parent := Some "arxmgd_curves_html";
        LinkGraph.children := []; LinkGraph.see_also := [] |}) ].

Definition curves_store : Store := store_of curves_records.

End NeighborsHeap.

(* ===================================================================== *)
(** * indexer.py: HybridIndexer *)
(* ===================================================================== *)

Module Indexer.

Inductive Exn :=
| ValueError (msg : string)
| RuntimeError (msg : string)
| FileNotFoundError (msg : string)
| TypeError (msg : string)
| ValidationError (msg : string)
| AssertionError (msg : string).

Inductive Result (A : Type) :=
| Ok (a : A)
| Raise (e : Exn).
Arguments Ok {A} a.
Arguments Raise {A} e.

(** [enumerate(l)]. *)
Fixpoint enumerate_from {A} (i : Z) (l : list A) : list (Z * A) :=
  match l with
  | [] => []
  | x :: rest => (i, x) :: enumerate_from (i + 1) rest
  end.

Definition enumerate {A} (l : list A) : list (Z * A) := enumerate_from 0 l.

(** [l[:k]]. *)
Definition slice_to {A} (k : Z) (l : list A) : list A :=
  if k <? 0
  then take (Z.to_nat (Z.max (Z.of_nat (length l) + k) 0)) l
  else take (Z.to_nat k) l.

(** [sorted(l, key=..., reverse=True)]: descending and stable, elements
    with equal keys keep their order. [lt x y] is [key(x) < key(y)]. *)
Section Sorted.
Context {A : Type} (lt : A -> A -> bool).

Fixpoint insert_desc (x : A) (l : list A) : list A :=
  match l with
  | [] => [x]
  | y :: rest => if lt x y then y :: insert_desc x rest else x :: l
  end.

Definition sorted_reverse (l : list A) : list A :=
  fold_right insert_desc [] l.
End Sorted.

Definition Qlt_bool (x y : Q) : bool := negb (Qle_bool y x).

(** ** Reciprocal rank fusion *)

(** [{chunk_id: rank for rank, (chunk_id, _) in enumerate(scores)}]. *)
Definition rank_dict {S : Type} (scores : list (string * S)) : PyDict.t Z :=
  fold_left (fun d (e : Z * (string * S)) => PyDict.set (fst (snd e)) (fst e) d)
    (enumerate scores) [].

(** [d.get(key, default)]. *)
Definition get_default (d : PyDict.t Z) (key : string) (default : Z) : Z :=
  match PyDict.get key d with
  | Some r => r
  | None => default
  end.

Section Fusion.
(** The order in which this interpreter iterates over the set built from
    the listed members. CPython orders a set of strings by their hashes,
    which are salted per process. *)
Variable set_iter : list string -> list string.

(** [_reciprocal_rank_fusion]. The float [1.0 / n] is the rational
    [1 / n]; [n] is positive for every [k >= 0]. *)
Definition _reciprocal_rank_fusion {S : Type}
    (faiss_scores bm25_scores : list (string * S)) (k : Z)
    : list (string * Q) :=
  let faiss_ranks := rank_dict faiss_scores in
  let bm25_ranks := rank_dict bm25_scores in
  let all_chunk_ids :=
    set_iter (PyDict.keys faiss_ranks ++ PyDict.keys bm25_ranks) in
  let rrf_scores :=
    fold_left
      (fun (d : PyDict.t Q) chunk_id =>
         let faiss_rank := get_default faiss_ranks chunk_id k in
         let bm25_rank := get_default bm25_ranks chunk_id k in
         let rrf_score :=
           (1 / inject_Z (k + faiss_rank + 1)
            + 1 / inject_Z (k + bm25_rank + 1))%Q in
         PyDict.set chunk_id rrf_score d)
      all_chunk_ids [] in
  sorted_reverse (fun x y => Qlt_bool (snd x) (snd y)) rrf_scores.
End Fusion.

(** ** The index *)

Section WithLibraries.
(** The sentence embedder, the FAISS flat index and the BM25 scorer:
    [encode t] is the embedding of one text; [faiss_search vectors q k]
    is [zip(scores[0], indices[0])] of [index.search(q, k)] on an index
    holding [vectors]; [bm25_okapi corpus] is [BM25Okapi(corpus)] and
    [get_scores] its method; [score_ltb] is [<] on ranker scores. *)
Variables (Vector Score BM25 : Type).
Variable encode : string -> Vector.
Variable faiss_search : list Vector -> Vector -> Z -> list (Score * Z).
Variable bm25_okapi : list (list string) -> BM25.
Variable get_scores : BM25 -> list string -> list Score.
Variable score_ltb : Score -> Score -> bool.
Variable set_iter : list string -> list string.

(** The attributes of a [HybridIndexer]. An entry of [chunk_metadata] is
    the pair of its ['chunk'] and its ['index']. *)
Record State := {
  faiss_index : option (list Vector);
  bm25_index : option BM25;
  chunk_metadata : PyDict.t (DocumentChunk * Z);
  anchor_map : PyDict.t Chunker.AnchorEntry
}.

(** The files of [self.index_dir]: [faiss.index], [bm25.pkl],
    [metadata.json], [anchor_map.json]; [None] is a missing file.
    [faiss.write_index]/[read_index], [pickle] and [json] are taken to
    give back what was written. *)
Record Files := {
  faiss_file : option (list Vector);
  bm25_file : option (option BM25);
  metadata_file : option (PyDict.t (list (string * JSON) * Z));
  anchor_map_file : option (PyDict.t Chunker.AnchorEntry)
}.

Definition no_files : Files :=
  {| faiss_file := None; bm25_file := None; metadata_file := None;
     anchor_map_file := None |}.

(** [__init__]. *)
Definition init : State :=
  {| faiss_index := None; bm25_index := None; chunk_metadata := [];
     anchor_map := [] |}.

Definition opt_str (o : option string) : JSON :=
  match o with Some s => JStr s | None => JNull end.

(** [chunk.model_dump()] as [json.dump] writes it. *)
Definition model_dump (c : DocumentChunk) : list (string * JSON) :=
  [ ("id", JStr (chunk_id c));
    ("source", JStr (source_value (chunk_source c)));
    ("page_id", JStr (chunk_page_id c));
    ("title", JStr (chunk_title c));
    ("path", JStr (chunk_path c));
    ("anchor", opt_str (chunk_anchor c));
    ("content", JStr (content c));
    ("html_content", JStr (html_content c));
    ("chunk_index", JInt (chunk_index c));
    ("total_chunks", JInt (total_chunks c));
    ("start_offset", JInt (start_offset c));
    ("end_offset", JInt (end_offset c));
    ("metadata", JObj (metadata c)) ].

(** [SourceType(value)]. *)
Definition source_of_value (v : string) : option SourceType :=
  List.find (fun s => String.eqb (source_value s) v)
    [ARXMGD; ARXMGD_DEV; ARXDEV; ARXDOC; ARXIOP; ARXMGR; ARXREF; READARX].

Definition field_str (d : list (string * JSON)) (k : string) : option string :=
  match PyDict.get k d with Some (JStr s) => Some s | _ => None end.

Definition field_int (d : list (string * JSON)) (k : string) : option Z :=
  match PyDict.get k d with Some (JInt z) => Some z | _ => None end.

(** The constructor [DocumentChunk] applied to the keyword dict [d];
    [None] is a pydantic validation error. *)
Definition validate_chunk (d : list (string * JSON)) : option DocumentChunk :=
  i ← field_str d "id";
  src ← field_str d "source" ≫= source_of_value;
  pid ← field_str d "page_id";
  title ← field_str d "title";
  path ← field_str d "path";
  anchor ← match PyDict.get "anchor" d with
           | Some (JStr s) => Some (Some s)
           | Some JNull | None => Some None
           | _ => None
           end;
  txt ← field_str d "content";
  h ← field_str d "html_content";
  ci ← field_int d "chunk_index";
  tc ← field_int d "total_chunks";
  so ← field_int d "start_offset";
  eo ← field_int d "end_offset";
  md ← match PyDict.get "metadata" d with
       | Some (JObj fields) => Some fields
       | None => Some []
       | _ => None
       end;
  Some {| chunk_id := i; chunk_source := src; chunk_page_id := pid;
          chunk_title := title; chunk_path := path; chunk_anchor := anchor;
          content := txt; html_content := h; chunk_index := ci;
          total_chunks := tc; start_offset := so; end_offset := eo;
          metadata := md |}.

(** [_store_metadata]. *)
Definition _store_metadata (chunks : list DocumentChunk)
    : PyDict.t (DocumentChunk * Z) :=
  fold_left
    (fun d (e : Z * DocumentChunk) =>
       PyDict.set (chunk_id (snd e)) (snd e, fst e) d)
    (enumerate chunks) [].

(** [_save_indices]; writing a [None] FAISS index is an error of the
    FAISS binding. *)
Definition _save_indices (self : State) : Result Files :=
  match faiss_index self with
  | None => Raise (TypeError "write_index")
  | Some vectors =>
      Ok {| faiss_file := Some vectors;
            bm25_file := Some (bm25_index self);
            metadata_file :=
              Some (map (fun kv => (fst kv, (model_dump (fst (snd kv)),
                                             snd (snd kv))))
                      (chunk_metadata self));
            anchor_map_file := Some (anchor_map self) |}
  end.

(** [build_index]: the indexer after the call and the files written. *)
Definition build_index (self : State) (chunks : list DocumentChunk)
    (new_anchor_map : option (PyDict.t Chunker.AnchorEntry))
    : Result (State * Files) :=
  match chunks with
  | [] => Raise (ValueError "No chunks provided for indexing")
  | _ =>
      let am :=
        match new_anchor_map with
        | Some (e :: m) => e :: m
        | _ => anchor_map self
        end in
      let texts := map content chunks in
      let self' :=
        {| faiss_index := Some (map encode texts);
           bm25_index :=
             Some (bm25_okapi
                     (map (fun t => PyStr.split (PyStr.lower t)) texts));
           chunk_metadata := _store_metadata chunks;
           anchor_map := am |} in
      match _save_indices self' with
      | Ok files => Ok (self', files)
      | Raise e => Raise e
      end
  end.

(** The loop of [load_indices] over [metadata.json]. *)
Fixpoint load_metadata (entries : PyDict.t (list (string * JSON) * Z))
    (acc : PyDict.t (DocumentChunk * Z))
    : Result (PyDict.t (DocumentChunk * Z)) :=
  match entries with
  | [] => Ok acc
  | (cid, (chunk_dict, index)) :: rest =>
      match validate_chunk chunk_dict with
      | Some chunk => load_metadata rest (PyDict.set cid (chunk, index) acc)
      | None => Raise (ValidationError "DocumentChunk")
      end
  end.

(** [load_indices]. *)
Definition load_indices (self : State) (files : Files) : Result State :=
  match faiss_file files with
  | None => Raise (FileNotFoundError "FAISS index not found")
  | Some vectors =>
      match bm25_file files with
      | None => Raise (FileNotFoundError "BM25 index not found")
      | Some bm25 =>
          match metadata_file files with
          | None => Raise (FileNotFoundError "Metadata not found")
          | Some entries =>
              match load_metadata entries [] with
              | Raise e => Raise e
              | Ok md =>
                  Ok {| faiss_index := Some vectors;
                        bm25_index := bm25;
                        chunk_metadata := md;
                        anchor_map :=
                          match anchor_map_file files with
                          | Some am => am
                          | None => anchor_map self
                          end |}
              end
          end
      end
  end.

(** The inner loop "Find chunk ID for this index". *)
Definition chunk_id_of_index (self : State) (idx : Z) : option string :=
  option_map fst
    (List.find (fun kv => snd (snd kv) =? idx) (chunk_metadata self)).

(** The loop "Convert to chunk IDs" of [_faiss_search], over
    [zip(scores[0], indices[0])]. *)
Definition faiss_chunk_ids (self : State) (hits : list (Score * Z))
    : list (string * Score) :=
  omap (fun e : Score * Z =>
          let '(score, idx) := e in
          if idx <? Z.of_nat (length (chunk_metadata self))
          then option_map (fun cid => (cid, score))
                 (chunk_id_of_index self idx)
          else None)
    hits.

(** [_faiss_search], on the non-[None] index [vectors]. The FAISS binding
    asserts [k > 0] before it searches. *)
Definition _faiss_search (self : State) (vectors : list Vector)
    (query : string) (k : Z) : Result (list (string * Score)) :=
  let query_embedding := encode query in
  if k >? 0
  then Ok (faiss_chunk_ids self (faiss_search vectors query_embedding k))
  else Raise (AssertionError "k > 0").

(** [_bm25_search], on the non-[None] index [bm25]. Sorting the indices
    by [scores[i]] is sorting the enumerated scores by score. *)
Definition _bm25_search (self : State) (bm25 : BM25) (query : string)
    (k : Z) : list (string * Score) :=
  let query_tokens := PyStr.split (PyStr.lower query) in
  let scores := get_scores bm25 query_tokens in
  let top_indices :=
    slice_to k
      (sorted_reverse (fun x y => score_ltb (snd x) (snd y))
         (enumerate scores)) in
  omap (fun e : Z * Score =>
          option_map (fun cid => (cid, snd e))
            (chunk_id_of_index self (fst e)))
    top_indices.

(** [_create_snippet]. *)
Definition _create_snippet (text query : string) (max_length : Z) : string :=
  let query_lower := PyStr.lower query in
  let content_lower := PyStr.lower text in
  let query_pos := PyStr.find query_lower content_lower in
  if query_pos =? -1 then
    if PyStr.len text >? max_length
    then PyStr.slice 0 max_length text +:+ "..."
    else text
  else
    let start_pos := Z.max 0 (query_pos - max_length / 2) in
    let end_pos :=
      Z.min (PyStr.len text) (query_pos + PyStr.len query + max_length / 2) in
    let snippet := PyStr.slice start_pos end_pos text in
    let snippet := if start_pos >? 0 then "..." +:+ snippet else snippet in
    if end_pos <? PyStr.len text then snippet +:+ "..." else snippet.

(** The loop "Convert to SearchResult objects". *)
Definition to_results (self : State) (query : string)
    (top_results : list (string * Q)) : list SearchResult :=
  omap (fun e : string * Q =>
          match PyDict.get (fst e) (chunk_metadata self) with
          | Some (chunk, _) =>
              Some {| sr_id := chunk_id chunk;
                      sr_title := chunk_title chunk;
                      sr_path := chunk_path chunk;
                      sr_snippet := _create_snippet (content chunk) query 200;
                      sr_score := snd e;
                      sr_source := chunk_source chunk;
                      sr_chunk_index := Some (chunk_index chunk) |}
          | None => None
          end)
    top_results.

(** [get_chunk_by_id]. *)
Definition get_chunk_by_id (self : State) (cid : string)
    : option DocumentChunk :=
  option_map fst (PyDict.get cid (chunk_metadata self)).

(** [get_chunk_by_anchor]. *)
Definition get_chunk_by_anchor (self : State) (page_id anchor : string)
    : option DocumentChunk :=
  let anchor_key := page_id +:+ "#" +:+ anchor in
  match PyDict.get anchor_key (anchor_map self) with
  | Some entry => get_chunk_by_id self (Chunker.anchor_chunk_id entry)
  | None => None
  end.

(** [search]. *)
Definition search (self : State) (query : string) (k : Z)
    : Result (list SearchResult) :=
  match faiss_index self, bm25_index self with
  | Some vectors, Some bm25 =>
      match _faiss_search self vectors query (k * 2) with
      | Raise e => Raise e
      | Ok faiss_scores =>
          let bm25_scores := _bm25_search self bm25 query (k * 2) in
          let combined_scores :=
            _reciprocal_rank_fusion set_iter faiss_scores bm25_scores 60 in
          let top_results := slice_to k combined_scores in
          Ok (to_results self query top_results)
      end
  | _, _ => Raise (RuntimeError "Indices not loaded")
  end.

End WithLibraries.

End Indexer.

(* ===================================================================== *)
(** * Stand-ins for the external libraries *)
(* ===================================================================== *)

(** Stand-ins for the embedder, FAISS and BM25, used by the examples. A
    text is embedded as its length, and the dense search returns the squared
    distances to the stored vectors, smallest first, as [IndexFlatL2] does.
    The lexical scorer is [BM25Okapi] of [rank_bm25] with its defaults
    [k1 = 1.5], [b = 0.75], [epsilon = 0.25], over exact rationals; the
    library's [idf], [log(N - n + 0.5) - log(n + 0.5)], is replaced by
    [(N - n + 0.5) / (n + 0.5) - 1], which has the same sign and is zero for
    the same document counts. *)
Module Toy.

Definition encode (t : string) : Z := PyStr.len t.

Definition faiss_search (vectors : list Z) (q : Z) (k : Z) : list (Q * Z) :=
  Indexer.slice_to k
    (map (fun e : Z * Z => (inject_Z (snd e), fst e))
       (Indexer.sorted_reverse (fun x y : Z * Z => snd x >? snd y)
          (Indexer.enumerate (map (fun v => (v - q) * (v - q)) vectors)))).

(** [BM25Okapi(corpus)]: the index keeps the tokenised corpus, and the
    statistics the library derives from it are computed from it on
    demand. *)
Definition bm25_okapi (corpus : list (list string)) : list (list string) :=
  corpus.

(** [len(corpus)] and [doc_len]. *)
Definition size {A : Type} (l : list A) : Q := inject_Z (Z.of_nat (length l)).

(** The keys of [self.idf]: the words of the corpus. *)
Definition vocabulary (corpus : list (list string)) : list string :=
  remove_dups (concat corpus).

(** [nd[word]]: the number of documents that hold the word. *)
Definition doc_count (corpus : list (list string)) (w : string) : Q :=
  size (List.filter (fun doc => LinkGraph.mem w doc) corpus).

(** [doc_freqs[i].get(word) or 0]. *)
Definition term_count (w : string) (doc : list string) : Q :=
  size (List.filter (String.eqb w) doc).

Definition raw_idf (corpus : list (list string)) (w : string) : Q :=
  ((size corpus - doc_count corpus w + (1 # 2))
   / (doc_count corpus w + (1 # 2)) - 1)%Q.

Definition average_idf (corpus : list (list string)) : Q :=
  (fold_left Qplus (map (raw_idf corpus) (vocabulary corpus)) 0
   / size (vocabulary corpus))%Q.

(** [self.idf.get(word) or 0], after [_calc_idf] has put
    [epsilon * average_idf] in the place of every negative value. *)
Definition idf (corpus : list (list string)) (w : string) : Q :=
  if LinkGraph.mem w (vocabulary corpus) then
    if Indexer.Qlt_bool (raw_idf corpus w) 0
    then ((1 # 4) * average_idf corpus)%Q
    else raw_idf corpus w
  else 0.

Definition avgdl (corpus : list (list string)) : Q :=
  (size (concat corpus) / size corpus)%Q.

(** [BM25Okapi.get_scores]. *)
Definition get_scores (corpus : list (list string)) (query : list string)
    : list Q :=
  map (fun doc =>
         fold_left
           (fun score q =>
              (score
               + idf corpus q
                 * (term_count q doc * ((3 # 2) + 1)
                    / (term_count q doc
                       + (3 # 2) * (1 - (3 # 4)
                                    + (3 # 4) * size doc / avgdl corpus))))%Q)
           query 0%Q)
    corpus.

Abbreviation State := (Indexer.State Z (list (list string))).
Abbreviation Files := (Indexer.Files Z (list (list string))).

Definition init : State := Indexer.init Z (list (list string)).

Definition build_index :=
  Indexer.build_index Z (list (list string)) encode bm25_okapi.

Definition load_indices := Indexer.load_indices Z (list (list string)).

Definition search (set_iter : list string -> list string) :=
  Indexer.search Z Q (list (list string)) encode faiss_search get_scores
    Indexer.Qlt_bool set_iter.

(** Chunk [index] of the page [arxmgd_arc_html]. *)
Definition make_chunk (index : Z) (t : string) : DocumentChunk :=
  {| chunk_id := "arxmgd_arc_html_chunk_" +:+ pretty index;
     chunk_source := ARXMGD; chunk_page_id := "arxmgd_arc_html";
     chunk_title := "Arc"; chunk_path := "arc.html"; chunk_anchor := None;
     content := t; html_content := "<p>" +:+ t +:+ "</p>";
     chunk_index := index; total_chunks := 2; start_offset := 0;
     end_offset := PyStr.len t;
     metadata := [("word_count", JInt (Z.of_nat (length (PyStr.split t))))] |}.

Definition two_chunks : list DocumentChunk :=
  [make_chunk 0 "arc"; make_chunk 1 "arc arc"].

(** Two chunks without a common word: each word is in one of the two
    documents, so that its [idf] is [log(1.5) - log(1.5)], and every score
    is zero. *)
Definition disjoint_chunks : list DocumentChunk :=
  [make_chunk 0 "line"; make_chunk 1 "arc"].

End Toy.

(* ===================================================================== *)
(** * topic_parser.py and toc_parser.py, as far as ingestion uses them *)
(* ===================================================================== *)

Module TopicParser.

(** [s.replace(a, b)] for one-character [a] and [b]. *)
Fixpoint replace_char (a b : ascii) (s : string) : string :=
  match s with
  | EmptyString => EmptyString
  | String c rest =>
      String (if Ascii.eqb c a then b else c) (replace_char a b rest)
  end.

(** The backslash character. *)
Definition backslash : ascii := ascii_of_nat 92.

(** [clean_path] of [_generate_page_id]. *)
Definition clean_path (relative_path : string) : string :=
  replace_char "." "_"
    (replace_char backslash "_" (replace_char "/" "_" relative_path)).

(** [_generate_page_id], on [str(html_file.relative_to(extraction_root))]. *)
Definition _generate_page_id (source : SourceType) (relative_path : string)
    : string :=
  source_value source +:+ "_" +:+ clean_path relative_path.

End TopicParser.

Module TocParser.

Section WithFiles.
(** The file system under the extraction root: whether a file of that name
    exists, and the TOC nodes that the rest of [parse_hhc] reads out of it
    with BeautifulSoup. *)
Variable exists_file : string -> bool.
Variable read_toc : string -> list LinkGraph.TOCTreeNode.

(** [parse_hhc]: a missing file gives the empty TOC. The argument is joined
    to the extraction root as it is. *)
Definition parse_hhc (hhc_path : string) : list LinkGraph.TOCTreeNode :=
  if exists_file hhc_path then read_toc hhc_path else [].

End WithFiles.

End TocParser.

(* ===================================================================== *)
(** * ingest.py: CHMIngestionPipeline *)
(* ===================================================================== *)

Module Ingest.

(** The loop "Update total_chunks for each chunk". *)
Definition set_total_chunks (chunks : list DocumentChunk)
    : list DocumentChunk :=
  map (fun c =>
         {| chunk_id := chunk_id c; chunk_source := chunk_source c;
            chunk_page_id := chunk_page_id c; chunk_title := chunk_title c;
            chunk_path := chunk_path c; chunk_anchor := chunk_anchor c;
            content := content c; html_content := html_content c;
            chunk_index := chunk_index c;
            total_chunks := Z.of_nat (length chunks);
            start_offset := start_offset c; end_offset := end_offset c;
            metadata := metadata c |})
    chunks.

Section Pipeline.
(** BeautifulSoup as in [Chunker], pathlib as in [LinkGraph], the embedder
    and BM25 as in [Indexer], and the files as in [TocParser]. *)
Variable find_all : string -> list Chunker.Element.
Variable id_elements : string -> list (string * string).
Variable name_elements : string -> list (string * string).
Variable join_parent : string -> string -> string.
Variables (Vector BM25 : Type).
Variable encode : string -> Vector.
Variable bm25_okapi : list (list string) -> BM25.
Variable exists_file : string -> bool.
Variable read_toc : string -> list LinkGraph.TOCTreeNode.

(** The body of the loop "Chunk pages": the state is
    [(self.chunker.anchor_map, all_chunks)]. The chunker is
    [HeadingAwareChunker()], with its default configuration. *)
Definition chunk_one (st : PyDict.t Chunker.AnchorEntry * list DocumentChunk)
    (page : DocumentPage) : PyDict.t Chunker.AnchorEntry * list DocumentChunk :=
  let loop :=
    Chunker.chunk_page_state Chunker.default_config find_all id_elements
      name_elements (fst st) page in
  (Chunker.anchor_map loop, snd st ++ set_total_chunks (Chunker.chunks loop)).

Definition chunk_pages (pages : list DocumentPage)
    : PyDict.t Chunker.AnchorEntry * list DocumentChunk :=
  fold_left chunk_one pages ([], []).

(** What [ingest_source] leaves behind. *)
Inductive Outcome :=
| NotExtracted
| KeyError
| Failed (e : Indexer.Exn)
| Ingested (graph : gmap string LinkGraph.Edges)
    (index : Indexer.State Vector BM25) (files : Indexer.Files Vector BM25)
    (count : Z).

(** [ingest_source], given whether the extraction directory exists and the
    pages [parse_all_topics] returned. [NotExtracted] is the early
    [return 0]; [Ingested] carries the saved graph, the indexer, its files
    and the returned chunk count. *)
Definition ingest_source (root_exists : bool) (pages : list DocumentPage)
    : Outcome :=
  if negb root_exists then NotExtracted
  else
    let toc_nodes := TocParser.parse_hhc exists_file read_toc "*.hhc" in
    match LinkGraph.build_graph join_parent toc_nodes pages with
    | None => KeyError
    | Some link_graph =>
        let '(anchor_map, all_chunks) := chunk_pages pages in
        match
          Indexer.build_index Vector BM25 encode bm25_okapi
            (Indexer.init Vector BM25) all_chunks (Some anchor_map)
        with
        | Indexer.Raise e => Failed e
        | Indexer.Ok (index, files) =>
            Ingested link_graph index files (Z.of_nat (length all_chunks))
        end
    end.

End Pipeline.

End Ingest.

(* ===================================================================== *)
(** * Chunker: overlap seeds *)
(* ===================================================================== *)

Module ChunkerFacts.
Import Chunker.

Lemma prefix_nil (s : string) : String.prefix "" s = true.
Proof. by destruct s. Qed.

Lemma prefix_of_empty (p : string) : String.prefix p "" = true -> p = "".
Proof. by destruct p. Qed.

Lemma prefix_app (p s : string) : String.prefix p (p +:+ s) = true.
Proof.
  induction p as [|c p IH]; simpl; [apply prefix_nil|].
  destruct (Ascii.ascii_dec c c); [exact IH | congruence].
Qed.

Lemma prefix_refl (s : string) : String.prefix s s = true.
Proof.
  induction s as [|c s IH]; simpl; [done|].
  destruct (Ascii.ascii_dec c c); [exact IH | congruence].
Qed.

Lemma prefix_app_r (p s t : string) :
  String.prefix p s = true -> String.prefix p (s +:+ t) = true.
Proof.
  revert s; induction p as [|c p IH]; intros s H; simpl; [apply prefix_nil|].
  destruct s as [|d s]; simpl in *; [discriminate|].
  destruct (Ascii.ascii_dec c d); [by apply IH | discriminate].
Qed.

Section WithConfig.
Variable self : Config.
Variable id_elements : string -> list (string * string).
Variable name_elements : string -> list (string * string).
Variable page : DocumentPage.

Abbreviation step := (Chunker.step self id_elements name_elements page).
Abbreviation emit := (Chunker.emit id_elements name_elements page).
Abbreviation finish := (Chunker.finish self id_elements name_elements page).
Abbreviation run := (Chunker.run self id_elements name_elements page).
Abbreviation closed_buffers :=
  (Chunker.closed_buffers self id_elements name_elements page).

Lemma emit_contents (st : Loop) :
  map content (chunks (emit st))
  = map content (chunks st) ++ [current_chunk_text st].
Proof. unfold Chunker.emit; simpl. by rewrite map_app. Qed.

Lemma step_contents (st : Loop) (sec : string * string) :
  map content (chunks (step st sec))
  = map content (chunks st)
    ++ (if closes self st (fst sec) && emitted self (current_chunk_text st)
        then [current_chunk_text st] else []).
Proof.
  destruct sec as [t h]; unfold Chunker.step, emitted; simpl.
  destruct (closes self st t); cbn [andb].
  - destruct (_ >=? _); cbn [chunks]; [apply emit_contents | by rewrite app_nil_r].
  - destruct (PyStr.truthy _); cbn [chunks]; by rewrite app_nil_r.
Qed.

(** The chunks of a run are the buffers that were closed and met the
    minimum size, in order. *)
Lemma run_contents (secs : list (string * string)) (st : Loop) :
  map content (chunks (run st secs))
  = map content (chunks st)
    ++ map fst (List.filter snd (closed_buffers st secs)).
Proof.
  revert st; induction secs as [|sec secs IH]; intros st.
  - unfold Chunker.run, Chunker.finish.
    cbn [fold_left Chunker.closed_buffers].
    change (_estimate_tokens (current_chunk_text st) >=? min_chunk_tokens self)
      with (emitted self (current_chunk_text st)).
    destruct (PyStr.truthy _); cbn [andb]; [|by rewrite app_nil_r].
    destruct (emitted self _); cbn [List.filter snd map fst];
      [apply emit_contents | by rewrite app_nil_r].
  - change (run st (sec :: secs)) with (run (step st sec) secs).
    rewrite IH, step_contents; simpl.
    rewrite List.filter_app, map_app, <- app_assoc; f_equal; f_equal.
    destruct (closes self st (fst sec)); simpl; [|done].
    by destruct (emitted self _).
Qed.

(** A section that does not close the buffer extends it. *)
Lemma step_keeps_prefix (p : string) (st : Loop) (sec : string * string) :
  closes self st (fst sec) = false ->
  String.prefix p (current_chunk_text st) = true ->
  String.prefix p (current_chunk_text (step st sec)) = true.
Proof.
  destruct sec as [t h]; unfold Chunker.step; simpl; intros -> Hp.
  destruct (PyStr.truthy (current_chunk_text st)) eqn:E; simpl.
  - by apply prefix_app_r.
  - destruct (current_chunk_text st); [|discriminate].
    apply prefix_of_empty in Hp as ->. apply prefix_nil.
Qed.

(** A section that closes the buffer opens the next one with the seed. *)
Lemma step_seeds (st : Loop) (sec : string * string) :
  closes self st (fst sec) = true ->
  String.prefix (_get_overlap_text self (current_chunk_text st))
    (current_chunk_text (step st sec)) = true.
Proof.
  destruct sec as [t h]; unfold Chunker.step; simpl; intros ->; simpl.
  destruct (_get_overlap_text self (current_chunk_text st)) eqn:E;
    simpl PyStr.truthy; cbv iota.
  - apply prefix_nil.
  - apply prefix_app.
Qed.

Lemma first_closed_prefix (p : string) (secs : list (string * string))
    (st : Loop) (b : string) (e : bool) :
  String.prefix p (current_chunk_text st) = true ->
  closed_buffers st secs !! 0%nat = Some (b, e) ->
  String.prefix p b = true.
Proof.
  revert st; induction secs as [|sec secs IH]; intros st Hp; simpl.
  - destruct (PyStr.truthy _); simpl; [|done]. by intros [= <- _].
  - destruct (closes self st (fst sec)) eqn:Hc; simpl.
    + by intros [= <- _].
    + apply IH. by apply step_keeps_prefix.
Qed.

Lemma closed_buffers_seeded (secs : list (string * string)) (st : Loop)
    (j : nat) (b b' : string) (e e' : bool) :
  closed_buffers st secs !! j = Some (b, e) ->
  closed_buffers st secs !! S j = Some (b', e') ->
  String.prefix (_get_overlap_text self b) b' = true.
Proof.
  revert st j; induction secs as [|sec secs IH]; intros st j; simpl.
  - destruct (PyStr.truthy _); simpl; [|done].
    destruct j; simpl; done.
  - destruct (closes self st (fst sec)) eqn:Hc; simpl; [|apply IH].
    destruct j as [|j]; simpl.
    + intros [= <- _] H1.
      eapply first_closed_prefix; [|exact H1]. by apply step_seeds.
    + apply IH.
Qed.

End WithConfig.

(** ** C10 *)

Lemma run_from (self : Config)
    (id_elements name_elements : string -> list (string * string))
    (page : DocumentPage) (st : Loop) (pre rest : list (string * string)) :
  Chunker.run self id_elements name_elements page st (pre ++ rest)
  = Chunker.run self id_elements name_elements page
      (fold_left (Chunker.step self id_elements name_elements page) pre st)
      rest.
Proof. unfold Chunker.run. by rewrite fold_left_app. Qed.

(** The claim as stated, for one page: whenever a section closes a buffer
    of at most [overlap_tokens // 4] words, the next chunk of the page (the
    first one after those the loop holds once the section is read) begins
    with that section's text. *)
Definition short_buffer_starts_next_chunk
    (self : Config) (find_all : string -> list Element)
    (id_elements name_elements : string -> list (string * string))
    (am : PyDict.t AnchorEntry) (page : DocumentPage) : Prop :=
  forall (pre rest : list (string * string)) (sec : string * string)
         (c : DocumentChunk),
    items find_all page = pre ++ sec :: rest ->
    let st :=
      fold_left (Chunker.step self id_elements name_elements page) pre
        (start am) in
    let st' := Chunker.step self id_elements name_elements page st sec in
    closes self st (fst sec) = true ->
    Z.of_nat (length (PyStr.split (current_chunk_text st)))
      <= overlap_tokens self / 4 ->
    chunk_page self find_all id_elements name_elements am page
      !! length (chunks st') = Some c ->
    PyStr.startswith (fst sec) (content c) = true.

(** C10, as amended. When a section closes a buffer of at most
    [overlap_tokens // 4] whitespace separated words, the overlap seed is
    empty and the buffer the section opens is exactly the section's text;
    the next buffer to be closed begins with that text, and when it meets
    [min_chunk_tokens] it is the page's next chunk. (When it does not, it is
    dropped, and the chunk after it may carry its last words over.) *)
Theorem short_buffer_has_no_overlap
    (self : Config) (find_all : string -> list Element)
    (id_elements name_elements : string -> list (string * string))
    (am : PyDict.t AnchorEntry) (page : DocumentPage)
    (pre rest : list (string * string)) (sec : string * string) :
  items find_all page = pre ++ sec :: rest ->
  let st :=
    fold_left (Chunker.step self id_elements name_elements page) pre
      (start am) in
  let st' := Chunker.step self id_elements name_elements page st sec in
  closes self st (fst sec) = true ->
  Z.of_nat (length (PyStr.split (current_chunk_text st)))
    <= overlap_tokens self / 4 ->
  _get_overlap_text self (current_chunk_text st) = ""
  /\ current_chunk_text st' = fst sec
  /\ forall b e,
       Chunker.closed_buffers self id_elements name_elements page st' rest
         !! 0%nat = Some (b, e) ->
       PyStr.startswith (fst sec) b = true
       /\ (e = true ->
           exists c,
             chunk_page self find_all id_elements name_elements am page
               !! length (chunks st') = Some c
             /\ content c = b).
Proof.
  intros Hitems st st' Hc Hw.
  assert (E : _get_overlap_text self (current_chunk_text st) = "").
  { unfold _get_overlap_text.
    destruct (Z.gtb_spec (Z.of_nat (length (PyStr.split (current_chunk_text st))))
                (overlap_tokens self / 4)); [lia | reflexivity]. }
  assert (E' : current_chunk_text st' = fst sec).
  { subst st'. destruct sec as [t h]. unfold Chunker.step.
    cbn [fst] in *. rewrite Hc, E. reflexivity. }
  split; [exact E|]. split; [exact E'|].
  intros b e Hb. split.
  { eapply first_closed_prefix; [|exact Hb]. rewrite E'. apply prefix_refl. }
  intros ->.
  assert (Hrun : chunk_page self find_all id_elements name_elements am page
                 = chunks (Chunker.run self id_elements name_elements page
                             st' rest)).
  { unfold chunk_page, chunk_page_state. rewrite Hitems, run_from.
    reflexivity. }
  pose proof (run_contents self id_elements name_elements page rest st')
    as Hcont.
  destruct (Chunker.closed_buffers self id_elements name_elements page st'
              rest) as [|[b0 e0] trace]; [done|].
  injection Hb as -> ->. cbn [List.filter snd map fst] in Hcont.
  assert (Hlook : map content
                    (chunks (Chunker.run self id_elements name_elements page
                               st' rest))
                  !! length (chunks st') = Some b).
  { rewrite Hcont, lookup_app_r by (rewrite length_map; lia).
    by rewrite length_map, Nat.sub_diag. }
  change (map content ?l) with (content <$> l) in Hlook.
  rewrite list_lookup_fmap in Hlook.
  rewrite Hrun.
  destruct (chunks _ !! length (chunks st')) as [c|]; [|done].
  exists c. split; [done|]. by injection Hlook.
Qed.

Definition small_config : Config :=
  {| target_tokens := 3; overlap_tokens := 8; min_chunk_tokens := 1 |}.

Definition sample_page : DocumentPage :=
  {| page_id := "arxmgd_intro_html"; page_source := ARXMGD;
     page_title := "Intro"; page_path := "intro.html"; page_content := "";
     page_html_content := ""; page_anchors := []; page_see_also := [] |}.

Definition two_headings (_ : string) : list Element :=
  [ {| tag := Heading 1; text := "aaaa bbbb"; html := "<h1>aaaa bbbb</h1>" |};
    {| tag := Heading 2; text := "cccccccccc";
       html := "<h2>cccccccccc</h2>" |} ].

Definition two_word_buffer : Loop :=
  {| chunks := []; current_chunk_text := "aaaa bbbb";
     current_chunk_html := "<h1>aaaa bbbb</h1>"; current_offset := 0;
     next_chunk_index := 0; anchor_map := [] |}.

Example two_headings_chunks :
  map content
    (chunk_page small_config two_headings (fun _ => []) (fun _ => []) []
       sample_page)
  = ["aaaa bbbb"; "cccccccccc"].
Proof. reflexivity. Qed.

Lemma short_buffer_has_no_overlap_witness :
  let st' :=
    step small_config (fun _ => []) (fun _ => []) sample_page
      two_word_buffer ("cccccccccc", "<h2>cccccccccc</h2>") in
  _get_overlap_text small_config "aaaa bbbb" = ""
  /\ current_chunk_text st' = "cccccccccc"
  /\ forall b e,
       Chunker.closed_buffers small_config (fun _ => []) (fun _ => [])
         sample_page st' [] !! 0%nat = Some (b, e) ->
       PyStr.startswith "cccccccccc" b = true
       /\ (e = true ->
           exists c,
             chunk_page small_config two_headings (fun _ => []) (fun _ => [])
               [] sample_page !! length (chunks st') = Some c
             /\ content c = b).
Proof.
  apply (short_buffer_has_no_overlap small_config two_headings (fun _ => [])
           (fun _ => []) [] sample_page
           [("aaaa bbbb", "<h1>aaaa bbbb</h1>")] []
           ("cccccccccc", "<h2>cccccccccc</h2>")).
  - reflexivity.
  - reflexivity.
  - vm_compute. discriminate.
Defined.

(** A buffer of two words that is closed and emitted, followed by a buffer
    of three words that is closed below the minimum size: target 1,
    overlap 8, minimum 2. *)
Definition drop_config : Config :=
  {| target_tokens := 1; overlap_tokens := 8; min_chunk_tokens := 2 |}.

Definition short_then_dropped (_ : string) : list Element :=
  [ {| tag := Heading 1; text := "aaaa bbbb"; html := "<h1>aaaa bbbb</h1>" |};
    {| tag := Heading 2; text := "c d e"; html := "<h2>c d e</h2>" |};
    {| tag := Heading 2; text := "ffffffffffff";
       html := "<h2>ffffffffffff</h2>" |} ].

Example short_then_dropped_trace :
  Chunker.closed_buffers drop_config (fun _ => []) (fun _ => []) sample_page
    (start []) (items short_then_dropped sample_page)
  = [("aaaa bbbb", true); ("c d e", false); ("d e ffffffffffff", true)].
Proof. reflexivity. Qed.

Example short_then_dropped_chunks :
  map content
    (chunk_page drop_config short_then_dropped (fun _ => []) (fun _ => []) []
       sample_page)
  = ["aaaa bbbb"; "d e ffffffffffff"].
Proof. reflexivity. Qed.

(** C10, as stated, fails: the section ["c d e"] closes the buffer
    ["aaaa bbbb"], of two words, with an empty seed; the buffer it opens is
    dropped when the third section closes it, and the next chunk is
    ["d e ffffffffffff"], which carries ["d e"] over and does not begin with
    ["c d e"]. *)
Lemma dropped_buffer_carries_words_over :
  ~ short_buffer_starts_next_chunk drop_config short_then_dropped
      (fun _ => []) (fun _ => []) [] sample_page.
Proof.
  intros H.
  specialize (H [("aaaa bbbb", "<h1>aaaa bbbb</h1>")]
                [("ffffffffffff", "<h2>ffffffffffff</h2>")]
                ("c d e", "<h2>c d e</h2>")).
  cbv zeta in H.
  destruct (chunk_page drop_config short_then_dropped (fun _ => [])
              (fun _ => []) [] sample_page !! 1%nat) as [c|] eqn:Ec;
    [|vm_compute in Ec; discriminate].
  specialize (H c eq_refl eq_refl).
  assert (Hw : Z.of_nat (length (PyStr.split "aaaa bbbb")) <= 8 / 4)
    by (vm_compute; discriminate).
  specialize (H Hw Ec).
  vm_compute in Ec. injection Ec as <-.
  vm_compute in H. discriminate.
Qed.

(** ** C3 *)

(** C3, as amended. On every page, the overlap seed taken from a buffer
    when it is closed appears verbatim at the start of the next buffer, and
    the page's chunks are, in order, the closed buffers that met
    [min_chunk_tokens]. So two adjacent chunks satisfy the overlap property
    whenever no buffer was discarded between them. *)
Theorem overlap_seed_starts_next_buffer
    (self : Config) (find_all : string -> list Element)
    (id_elements name_elements : string -> list (string * string))
    (am : PyDict.t AnchorEntry) (page : DocumentPage) :
  let trace :=
    closed_buffers self id_elements name_elements page (start am)
      (items find_all page) in
  map content (chunk_page self find_all id_elements name_elements am page)
  = map fst (List.filter snd trace)
  /\ forall (j : nat) (b b' : string) (e e' : bool),
       trace !! j = Some (b, e) -> trace !! S j = Some (b', e') ->
       PyStr.startswith (_get_overlap_text self b) b' = true.
Proof.
  cbv zeta; split.
  - unfold chunk_page, chunk_page_state. by rewrite run_contents.
  - intros j b b' e e'. apply closed_buffers_seeded.
Qed.

(** A page with three headings; under [tight_config] the second heading
    opens a buffer that is closed below the minimum size. *)
Definition tight_config : Config :=
  {| target_tokens := 3; overlap_tokens := 4; min_chunk_tokens := 3 |}.

Definition three_headings (_ : string) : list Element :=
  [ {| tag := Heading 1; text := "aaaa bbbb cccc";
       html := "<h1>aaaa bbbb cccc</h1>" |};
    {| tag := Heading 2; text := "d"; html := "<h2>d</h2>" |};
    {| tag := Heading 2; text := "eeee ffff gggg hhhh";
       html := "<h2>eeee ffff gggg hhhh</h2>" |} ].

Example three_headings_chunks :
  map content
    (chunk_page tight_config three_headings (fun _ => []) (fun _ => []) []
       sample_page)
  = ["aaaa bbbb cccc"; "d eeee ffff gggg hhhh"].
Proof. reflexivity. Qed.

Example three_headings_trace :
  closed_buffers tight_config (fun _ => []) (fun _ => []) sample_page
    (start []) (items three_headings sample_page)
  = [("aaaa bbbb cccc", true); ("cccc d", false);
     ("d eeee ffff gggg hhhh", true)].
Proof. reflexivity. Qed.

(** C3, as stated, fails: chunk 0 is ["aaaa bbbb cccc"] with seed ["cccc"],
    the buffer ["cccc d"] it seeded is dropped, and chunk 1 starts with
    ["d"]. *)
Lemma overlap_property_fails :
  ~ overlap_property tight_config
      (chunk_page tight_config three_headings (fun _ => []) (fun _ => []) []
         sample_page).
Proof.
  intros H.
  specialize (H 0%nat _ _ eq_refl eq_refl).
  vm_compute in H. discriminate.
Qed.

(** The same under the default configuration (1000, 150, 200): a first
    section of 1700 one-letter words, a second of one 700-letter word, a
    third of one 3300-letter word. The second section closes the first
    buffer, which becomes chunk 0 with a seed of 38 words; the buffer it
    opens has 776 characters, below the minimum, and is dropped when the
    third section closes it. *)
Fixpoint repeat_word (w : string) (n : nat) : string :=
  match n with
  | O => ""
  | S O => w
  | S n' => w +:+ " " +:+ repeat_word w n'
  end.

Fixpoint repeat_char (c : ascii) (n : nat) : string :=
  match n with
  | O => ""
  | S n' => String c (repeat_char c n')
  end.

Definition long_headings (_ : string) : list Element :=
  [ {| tag := Heading 1; text := repeat_word "a" 1700; html := "<h1>a</h1>" |};
    {| tag := Heading 2; text := repeat_char "x" 700; html := "<h2>x</h2>" |};
    {| tag := Heading 2; text := repeat_char "y" 3300; html := "<h2>y</h2>" |} ].

Example long_headings_trace :
  map (fun b => (PyStr.len (fst b), snd b))
    (closed_buffers default_config (fun _ => []) (fun _ => []) sample_page
       (start []) (items long_headings sample_page))
  = [(3399, true); (776, false); (4075, true)].
Proof. vm_compute. reflexivity. Qed.

Example default_config_drops_seed :
  ~ overlap_property default_config
      (chunk_page default_config long_headings (fun _ => []) (fun _ => []) []
         sample_page).
Proof.
  intros H.
  set (cs := chunk_page default_config long_headings (fun _ => [])
               (fun _ => []) [] sample_page) in H.
  destruct (cs !! 0%nat) as [a|] eqn:Ea; [|vm_compute in Ea; discriminate].
  destruct (cs !! 1%nat) as [b|] eqn:Eb; [|vm_compute in Eb; discriminate].
  specialize (H 0%nat a b Ea Eb).
  vm_compute in Ea. injection Ea as <-.
  vm_compute in Eb. injection Eb as <-.
  vm_compute in H. discriminate.
Qed.

End ChunkerFacts.

(* ===================================================================== *)
(** * Link graph: parent/children and see-also edges *)
(* ===================================================================== *)

Module LinkGraphFacts.
Import LinkGraph.

(** Induction over a TOC tree, with the hypothesis for all children. *)
Lemma TOCTreeNode_ind (P : TOCTreeNode -> Prop) :
  (forall title path cs, Forall P cs -> P (TOCNode title path cs)) ->
  forall node, P node.
Proof.
  intros step. fix IH 1. intros [title path cs]. apply step.
  induction cs as [|c cs IHcs]; constructor; [apply IH | exact IHcs].
Qed.

Lemma mem_In (x : string) (l : list string) : mem x l = true <-> In x l.
Proof.
  unfold mem. rewrite existsb_exists. split.
  - intros (y & Hy & E). apply String.eqb_eq in E. by subst.
  - intros H. exists x. split; [done | apply String.eqb_refl].
Qed.

Lemma truthy_id_Some (o : option string) (s : string) :
  truthy_id o = Some s -> o = Some s /\ PyStr.truthy s = true.
Proof.
  destruct o as [t|]; simpl; [|done].
  destruct (PyStr.truthy t) eqn:E; [|done]. by intros [= <-].
Qed.

Lemma truthy_id_idem (o : option string) (s : string) :
  truthy_id o = Some s -> truthy_id (Some s) = Some s.
Proof. intros H. apply truthy_id_Some in H as [_ H]. simpl. by rewrite H. Qed.

(** The TOC pairs the builder acts on, in the order it meets them: each
    resolved node below a resolved ancestor, paired with the nearest such
    ancestor. [pid] is the [parent_id] argument. *)
Fixpoint toc_edges (path_to_id : gmap string string) (pid : option string)
    (node : TOCTreeNode) : list (string * string) :=
  match node with
  | TOCNode _ path cs =>
      match toc_page path_to_id path with
      | None => flat_map (fun c => toc_edges path_to_id pid c) cs
      | Some page_id =>
          match truthy_id pid with
          | Some p => [(p, page_id)]
          | None => []
          end ++ flat_map (fun c => toc_edges path_to_id (Some page_id) c) cs
      end
  end.

(** A TOC node that resolves to [P] with a direct child that resolves to
    [C], anywhere in the forest. *)
Inductive toc_pair (path_to_id : gmap string string)
    : list TOCTreeNode -> string -> string -> Prop :=
| toc_pair_here nodes n c P C :
    In n nodes -> In c (toc_children n) ->
    toc_page path_to_id (toc_path n) = Some P ->
    toc_page path_to_id (toc_path c) = Some C ->
    toc_pair path_to_id nodes P C
| toc_pair_below nodes n P C :
    In n nodes -> toc_pair path_to_id (toc_children n) P C ->
    toc_pair path_to_id nodes P C.

(** The parent a page ends up with: the one of its last edge, [d] when it
    has none. *)
Definition last_parent (k : string) (es : list (string * string))
    (d : option string) : option string :=
  fold_left (fun acc e => if String.eqb (snd e) k then Some (fst e) else acc)
    es d.

(** [set_parent] along a list of edges. *)
Fixpoint apply_edges (es : list (string * string)) (g : Graph)
    : option Graph :=
  match es with
  | [] => Some g
  | (p, c) :: rest =>
      match set_parent p c g with
      | Some g' => apply_edges rest g'
      | None => None
      end
  end.

Lemma apply_edges_app (es1 es2 : list (string * string)) (g : Graph) :
  apply_edges (es1 ++ es2) g
  = match apply_edges es1 g with
    | Some g' => apply_edges es2 g'
    | None => None
    end.
Proof.
  revert g; induction es1 as [|[p c] es1 IH]; intros g; simpl; [done|].
  destruct (set_parent p c g); [apply IH | done].
Qed.

Section WithIndex.
Variable path_to_id : gmap string string.

Abbreviation toc_page := (LinkGraph.toc_page path_to_id).
Abbreviation _process_toc_node := (LinkGraph._process_toc_node path_to_id).
Abbreviation process_nodes := (LinkGraph.process_nodes path_to_id).
Abbreviation toc_edges := (LinkGraphFacts.toc_edges path_to_id).

Lemma toc_page_truthy (path i : string) :
  toc_page path = Some i -> truthy_id (Some i) = Some i.
Proof.
  unfold LinkGraph.toc_page. destruct (PyStr.truthy path); [|done].
  apply truthy_id_idem.
Qed.

Lemma toc_page_indexed (path i : string) :
  toc_page path = Some i -> path_to_id !! path = Some i.
Proof.
  unfold LinkGraph.toc_page. destruct (PyStr.truthy path); [|done].
  intros H. by apply truthy_id_Some in H as [H _].
Qed.

(** The recursion over the tree performs [set_parent] along
    [toc_edges]. *)
Lemma process_nodes_edges (nodes : list TOCTreeNode) (pid : option string) :
  Forall (fun n => forall pid g,
            _process_toc_node n pid g = apply_edges (toc_edges pid n) g)
    nodes ->
  forall g,
    process_nodes nodes pid g
    = apply_edges (flat_map (fun c => toc_edges pid c) nodes) g.
Proof.
  induction 1 as [|n nodes Hn _ IH]; intros g; simpl; [done|].
  rewrite apply_edges_app, Hn. destruct (apply_edges _ g); [apply IH | done].
Qed.

Lemma process_children_unfold (cs : list TOCTreeNode) (pid : option string)
    (g : Graph) :
  (fix loop (cs : list TOCTreeNode) (g : Graph) {struct cs} : option Graph :=
     match cs with
     | [] => Some g
     | child :: rest =>
         match _process_toc_node child pid g with
         | Some g' => loop rest g'
         | None => None
         end
     end) cs g
  = process_nodes cs pid g.
Proof.
  revert g; induction cs as [|c cs IH]; intros g; simpl; [done|].
  destruct (LinkGraph._process_toc_node _ c pid g); [apply IH | done].
Qed.

Lemma process_node_edges (node : TOCTreeNode) :
  forall pid g,
    _process_toc_node node pid g = apply_edges (toc_edges pid node) g.
Proof.
  induction node as [title path cs IH] using TOCTreeNode_ind.
  intros pid g. cbn [LinkGraph._process_toc_node LinkGraphFacts.toc_edges].
  destruct (toc_page path) as [i|].
  - rewrite apply_edges_app.
    destruct (truthy_id pid) as [p|]; cbn [apply_edges].
    + destruct (set_parent p i g) as [g1|]; [|done].
      rewrite process_children_unfold. by apply process_nodes_edges.
    + rewrite process_children_unfold. by apply process_nodes_edges.
  - rewrite process_children_unfold. by apply process_nodes_edges.
Qed.

Lemma add_toc_relationships_edges (toc : list TOCTreeNode) (g : Graph) :
  _add_toc_relationships path_to_id toc g
  = apply_edges (flat_map (fun n => toc_edges None n) toc) g.
Proof.
  unfold _add_toc_relationships. apply process_nodes_edges.
  apply Forall_forall. intros n _. apply process_node_edges.
Qed.

(** Every resolved parent/child pair of the TOC is among the edges. *)
Lemma toc_pair_edge (nodes : list TOCTreeNode) (P C : string) :
  toc_pair path_to_id nodes P C ->
  forall pid, In (P, C) (flat_map (fun n => toc_edges pid n) nodes).
Proof.
  induction 1 as [nodes n c P C Hn Hc HP HC | nodes n P C Hn _ IH];
    intros pid; apply in_flat_map; exists n; (split; [done|]).
  - destruct n as [t path cs]; cbn [toc_path toc_children] in *.
    cbn [LinkGraphFacts.toc_edges]. rewrite HP.
    apply in_or_app; right. apply in_flat_map. exists c; split; [done|].
    destruct c as [t' path' cs']; cbn [toc_path] in *.
    cbn [LinkGraphFacts.toc_edges]. rewrite HC.
    rewrite (toc_page_truthy _ _ HP). by left.
  - destruct n as [t path cs]; cbn [toc_children] in *.
    cbn [LinkGraphFacts.toc_edges].
    destruct (toc_page path); [apply in_or_app; right|]; apply IH.
Qed.

(** Both ends of an edge are page ids taken from [path_to_id]. *)
Lemma toc_edges_indexed (node : TOCTreeNode) :
  forall pid p c,
    (forall q, truthy_id pid = Some q -> exists path, path_to_id !! path = Some q) ->
    In (p, c) (toc_edges pid node) ->
    (exists path, path_to_id !! path = Some p)
    /\ (exists path, path_to_id !! path = Some c).
Proof.
  induction node as [title path cs IH] using TOCTreeNode_ind.
  intros pid p c Hpid. cbn [LinkGraphFacts.toc_edges].
  assert (Below : forall pid',
    (forall q, truthy_id pid' = Some q -> exists path, path_to_id !! path = Some q) ->
    In (p, c) (flat_map (fun n => toc_edges pid' n) cs) ->
    (exists path, path_to_id !! path = Some p)
    /\ (exists path, path_to_id !! path = Some c)).
  { intros pid' Hpid' Hin. apply in_flat_map in Hin as (n & Hn & Hin).
    rewrite List.Forall_forall in IH. by apply (IH n Hn pid'). }
  destruct (toc_page path) as [i|] eqn:Hi; [|by apply Below].
  intros Hin. apply in_app_or in Hin as [Hin|Hin].
  - destruct (truthy_id pid) as [q|] eqn:Hq; [|done].
    destruct Hin as [[= <- <-]|[]]. split; [by apply Hpid|].
    exists path. by apply toc_page_indexed.
  - apply (Below (Some i)); [|done].
    intros q Hq. rewrite (toc_page_truthy _ _ Hi) in Hq.
    injection Hq as <-. exists path. by apply toc_page_indexed.
Qed.

End WithIndex.

(** ** The effect of the TOC pass on the graph *)

(** [g'] is [g] after [set_parent] along [es]: same keys, same see-also
    lists, each parent overwritten by the last edge into the page, and the
    children of [k] extended by the edges out of [k]. *)
Definition toc_rel (es : list (string * string)) (g g' : Graph) : Prop :=
  forall k,
    match g !! k, g' !! k with
    | Some e, Some e' =>
        see_also e' = see_also e
        /\ parent e' = last_parent k es (parent e)
        /\ forall x, In x (children e') <-> In x (children e) \/ In (k, x) es
    | None, None => True
    | _, _ => False
    end.

Lemma toc_rel_nil (g : Graph) : toc_rel [] g g.
Proof.
  intros k. destruct (g !! k); [|done]. simpl.
  split; [done|]. split; [done|]. intros x. tauto.
Qed.

Lemma toc_rel_cons (p c : string) (es : list (string * string))
    (g g1 g' : Graph) :
  toc_rel [(p, c)] g g1 -> toc_rel es g1 g' -> toc_rel ((p, c) :: es) g g'.
Proof.
  intros H1 H2 k. specialize (H1 k). specialize (H2 k).
  destruct (g !! k) as [e|], (g1 !! k) as [e1|], (g' !! k) as [e'|];
    try done.
  destruct H1 as (S1 & P1 & C1), H2 as (S2 & P2 & C2).
  split; [congruence|]. split.
  - rewrite P2, P1. reflexivity.
  - intros x. rewrite C2, C1. simpl. split; intros ?; destruct_or?; auto.
Qed.

Lemma toc_rel_keys (es : list (string * string)) (g g' : Graph) (k : string) :
  toc_rel es g g' -> is_Some (g !! k) -> is_Some (g' !! k).
Proof.
  intros H [e He]. specialize (H k). rewrite He in H.
  destruct (g' !! k); [by eexists | done].
Qed.

Lemma eqb_false_ne (a b : string) : a <> b -> String.eqb a b = false.
Proof. apply String.eqb_neq. Qed.

Local Ltac solve_rel :=
  cbn [parent children see_also fst snd];
  split; [done|]; split; [done|]; intros x; rewrite ?in_app_iff; cbn [In];
  split; intros ?; destruct_or?; simplify_eq; auto; try tauto.

(** With both pages in the graph, [set_parent] does not fail and records
    the edge. *)
Lemma set_parent_rel (p c : string) (g : Graph) :
  is_Some (g !! p) -> is_Some (g !! c) ->
  exists g', set_parent p c g = Some g' /\ toc_rel [(p, c)] g g'.
Proof.
  intros [ep Hp] [ec Hc]. unfold set_parent. rewrite Hc.
  destruct (decide (p = c)) as [->|Hne].
  - rewrite lookup_insert_eq. cbn [children parent see_also].
    destruct (mem c (children ec)) eqn:Hm;
      [apply mem_In in Hm
      |assert (~ In c (children ec)) by (rewrite <- mem_In; congruence)];
      (eexists; split; [reflexivity|]); intros k;
      unfold last_parent; cbn [fold_left fst snd];
      (destruct (decide (k = c)) as [->|Hk];
       [rewrite Hc, ?lookup_insert_eq, String.eqb_refl
       |rewrite ?lookup_insert_ne by done;
        destruct (g !! k); [rewrite (eqb_false_ne c k) by done|done]]);
      solve_rel.
  - rewrite lookup_insert_ne, Hp by done.
    destruct (mem c (children ep)) eqn:Hm;
      [apply mem_In in Hm
      |assert (~ In c (children ep)) by (rewrite <- mem_In; congruence)];
      (eexists; split; [reflexivity|]); intros k;
      unfold last_parent; cbn [fold_left fst snd];
      (destruct (decide (k = c)) as [->|Hk];
       [rewrite Hc, ?lookup_insert_eq, ?(lookup_insert_ne _ p c) by done;
        rewrite ?lookup_insert_eq, String.eqb_refl
       |rewrite (eqb_false_ne c k) by done;
        destruct (decide (k = p)) as [->|Hkp];
        [rewrite Hp, ?lookup_insert_eq, ?(lookup_insert_ne _ c p) by done;
         rewrite ?Hp
        |rewrite ?lookup_insert_ne by done; destruct (g !! k); [|done]]]);
      solve_rel.
Qed.

Lemma apply_edges_rel (es : list (string * string)) :
  forall g,
    (forall p c, In (p, c) es -> is_Some (g !! p) /\ is_Some (g !! c)) ->
    exists g', apply_edges es g = Some g' /\ toc_rel es g g'.
Proof.
  induction es as [|[p c] es IH]; intros g Hin; simpl.
  - exists g. split; [done | apply toc_rel_nil].
  - destruct (Hin p c (or_introl eq_refl)) as [Hp Hc].
    destruct (set_parent_rel p c g Hp Hc) as (g1 & -> & R1).
    destruct (IH g1) as (g' & -> & R2).
    { intros p' c' H'. destruct (Hin p' c' (or_intror H')).
      split; by eapply toc_rel_keys. }
    exists g'. split; [done | by eapply toc_rel_cons].
Qed.

Lemma last_parent_stable (C P : string) (es : list (string * string)) :
  (forall P', In (P', C) es -> P' = P) ->
  last_parent C es (Some P) = Some P.
Proof.
  unfold last_parent. induction es as [|[p c] es IH]; intros H; simpl; [done|].
  destruct (String.eqb_spec c C) as [->|Hne].
  - rewrite (H p (or_introl eq_refl)). apply IH. intros P' H'. apply H. by right.
  - apply IH. intros P' H'. apply H. by right.
Qed.

Lemma last_parent_unique (C P : string) (es : list (string * string))
    (d : option string) :
  In (P, C) es -> (forall P', In (P', C) es -> P' = P) ->
  last_parent C es d = Some P.
Proof.
  revert d; induction es as [|[p c] es IH]; intros d Hin H; [done|].
  assert (H' : forall P', In (P', C) es -> P' = P).
  { intros P' HP'. apply H. by right. }
  change (last_parent C ((p, c) :: es) d)
    with (last_parent C es (if String.eqb c C then Some p else d)).
  destruct (String.eqb_spec c C) as [->|Hne].
  - rewrite (H p (or_introl eq_refl)). by apply last_parent_stable.
  - destruct Hin as [[= <- <-]|Hin]; [done|]. by apply IH.
Qed.

(** ** The effect of the see-also pass *)

Definition see_rel (g g' : Graph) : Prop :=
  forall k,
    match g !! k, g' !! k with
    | Some e, Some e' =>
        parent e' = parent e /\ children e' = children e
        /\ forall x, In x (see_also e') -> In x (see_also e) \/ x <> k
    | None, None => True
    | _, _ => False
    end.

Lemma see_rel_refl (g : Graph) : see_rel g g.
Proof. intros k. destruct (g !! k); [|done]. auto. Qed.

Lemma see_rel_trans (g1 g2 g3 : Graph) :
  see_rel g1 g2 -> see_rel g2 g3 -> see_rel g1 g3.
Proof.
  intros H1 H2 k. specialize (H1 k). specialize (H2 k).
  destruct (g1 !! k), (g2 !! k), (g3 !! k); try done.
  destruct H1 as (P1 & C1 & S1), H2 as (P2 & C2 & S2).
  repeat split; [congruence | congruence |].
  intros x Hx. destruct (S2 x Hx) as [H|H]; [by apply S1 | by right].
Qed.

Section SeeAlso.
Variable path_to_id : gmap string string.
Variable join_parent : string -> string -> string.

Lemma add_see_also_rel (page : DocumentPage) (g : Graph) (link : string) :
  see_rel g (add_see_also path_to_id join_parent page g link).
Proof.
  unfold add_see_also.
  destruct (truthy_id _) as [target|]; [|apply see_rel_refl].
  destruct (String.eqb_spec target (page_id page)) as [|Hne];
    simpl; [apply see_rel_refl|].
  destruct (g !! page_id page) as [e|] eqn:He; [|apply see_rel_refl].
  destruct (mem target (see_also e)); [apply see_rel_refl|].
  intros k. destruct (decide (k = page_id page)) as [->|Hk].
  - rewrite He, lookup_insert_eq. simpl. repeat split.
    intros x Hx. apply in_app_or in Hx as [Hx|[<-|[]]]; [by left | by right].
  - rewrite lookup_insert_ne by done. destruct (g !! k); [|done]. auto.
Qed.

Lemma add_see_also_fold (page : DocumentPage) (links : list string) :
  forall g, see_rel g (fold_left (add_see_also path_to_id join_parent page) links g).
Proof.
  induction links as [|l links IH]; intros g; simpl; [apply see_rel_refl|].
  eapply see_rel_trans; [apply add_see_also_rel | apply IH].
Qed.

Lemma add_see_also_relationships_rel (pages : list DocumentPage) :
  forall g,
    see_rel g (_add_see_also_relationships path_to_id join_parent pages g).
Proof.
  unfold _add_see_also_relationships.
  induction pages as [|page pages IH]; intros g; simpl; [apply see_rel_refl|].
  eapply see_rel_trans; [|apply IH].
  destruct (g !! page_id page); [apply add_see_also_fold | apply see_rel_refl].
Qed.

End SeeAlso.

(** ** The first loop of [build_graph] *)

Definition indexed (st : gmap string string * Graph) : Prop :=
  (forall path i, fst st !! path = Some i -> is_Some (snd st !! i))
  /\ (forall k e, snd st !! k = Some e -> e = no_edges).

Lemma index_page_indexed (st : gmap string string * Graph)
    (page : DocumentPage) :
  indexed st -> indexed (index_page st page).
Proof.
  intros [H1 H2]. split; simpl.
  - intros path i. destruct (decide (page_path page = path)) as [<-|Hne].
    + rewrite lookup_insert_eq. intros [= <-]. by rewrite lookup_insert_eq.
    + rewrite lookup_insert_ne by done. intros Hi.
      destruct (decide (page_id page = i)) as [<-|Hne'].
      * by rewrite lookup_insert_eq.
      * rewrite lookup_insert_ne by done. by eapply H1.
  - intros k e. destruct (decide (page_id page = k)) as [<-|Hne].
    + rewrite lookup_insert_eq. by intros [= <-].
    + rewrite lookup_insert_ne by done. apply H2.
Qed.

Lemma index_pages_indexed (pages : list DocumentPage) :
  indexed (index_pages pages).
Proof.
  unfold index_pages.
  assert (G : forall st, indexed st -> indexed (fold_left index_page pages st)).
  { induction pages as [|page pages IH]; intros st Hst; simpl; [done|].
    apply IH. by apply index_page_indexed. }
  apply G. split; intros ? ?; simpl; by rewrite lookup_empty.
Qed.

(** ** [build_graph] *)

(** [build_graph] never fails, and its result is the indexed pages with the
    TOC edges and then the see-also edges applied. *)
Lemma build_graph_rel (join_parent : string -> string -> string)
    (toc : list TOCTreeNode) (pages : list DocumentPage) :
  exists g1 g,
    build_graph join_parent toc pages = Some g
    /\ toc_rel (flat_map (fun n => toc_edges (fst (index_pages pages)) None n) toc)
         (snd (index_pages pages)) g1
    /\ see_rel g1 g.
Proof.
  unfold build_graph.
  pose proof (index_pages_indexed pages) as [Hidx Hnew].
  destruct (index_pages pages) as [idx g0]; simpl in *.
  rewrite add_toc_relationships_edges.
  destruct (apply_edges_rel
              (flat_map (fun n => toc_edges idx None n) toc) g0)
    as (g1 & -> & R1).
  { intros p c Hin. apply in_flat_map in Hin as (n & _ & Hin).
    apply toc_edges_indexed in Hin as [[pp Hp] [pc Hc]]; [|done].
    split; by eapply Hidx. }
  exists g1, (_add_see_also_relationships idx join_parent pages g1).
  split; [done|]. split; [done|]. apply add_see_also_relationships_rel.
Qed.

(** ** C5 *)

(** The claim as stated: every resolved TOC parent/child pair is recorded
    in both directions. *)
Definition parent_child_consistent (join_parent : string -> string -> string)
    (toc : list TOCTreeNode) (pages : list DocumentPage) : Prop :=
  forall g, build_graph join_parent toc pages = Some g ->
  forall P C, toc_pair (fst (index_pages pages)) toc P C ->
    (exists e, g !! C = Some e /\ parent e = Some P)
    /\ (exists e, g !! P = Some e /\ In C (children e)).

(** C5, as amended. For every TOC parent/child pair [(P, C)] whose paths
    both resolve, [C] is among [graph[P].children]; and [graph[C].parent]
    is [P] when no TOC occurrence of [C] has another resolved nearest
    ancestor (the parent field holds one id, and a later occurrence
    overwrites it). *)
Theorem toc_pairs_in_graph (join_parent : string -> string -> string)
    (toc : list TOCTreeNode) (pages : list DocumentPage) :
  exists g,
    build_graph join_parent toc pages = Some g
    /\ forall P C,
         toc_pair (fst (index_pages pages)) toc P C ->
         (exists e, g !! P = Some e /\ In C (children e))
         /\ ((forall P',
                In (P', C)
                  (flat_map (fun n => toc_edges (fst (index_pages pages)) None n)
                     toc) ->
                P' = P) ->
             exists e, g !! C = Some e /\ parent e = Some P).
Proof.
  destruct (build_graph_rel join_parent toc pages) as (g1 & g & Hg & R1 & R2).
  exists g. split; [exact Hg|]. intros P C Hpair.
  pose proof (index_pages_indexed pages) as [Hidx Hnew].
  pose proof (toc_pair_edge _ _ _ _ Hpair None) as Hedge.
  assert (In (P, C)
            (flat_map (fun n => toc_edges (fst (index_pages pages)) None n) toc))
    as Hedge' by exact Hedge.
  apply in_flat_map in Hedge' as (n & _ & Hin).
  apply toc_edges_indexed in Hin as [[pp HP] [pc HC]]; [|done].
  apply Hidx in HP as [eP HP]. apply Hidx in HC as [eC HC].
  split.
  - specialize (R1 P). specialize (R2 P). rewrite HP in R1.
    destruct (g1 !! P) as [e1|]; [|done]. destruct (g !! P) as [e|]; [|done].
    exists e. split; [done|].
    destruct R1 as (_ & _ & C1), R2 as (_ & -> & _). apply C1. by right.
  - intros Huniq. specialize (R1 C). specialize (R2 C). rewrite HC in R1.
    destruct (g1 !! C) as [e1|]; [|done]. destruct (g !! C) as [e|]; [|done].
    exists e. split; [done|].
    destruct R1 as (_ & P1 & _), R2 as (-> & _ & _). rewrite P1.
    by apply last_parent_unique.
Qed.

(** In general [graph[C].parent] is the parent of the last edge into [C]
    in depth-first order. *)
Lemma parent_is_last_toc_parent (join_parent : string -> string -> string)
    (toc : list TOCTreeNode) (pages : list DocumentPage) :
  exists g,
    build_graph join_parent toc pages = Some g
    /\ forall C e, g !! C = Some e ->
         parent e
         = last_parent C
             (flat_map (fun n => toc_edges (fst (index_pages pages)) None n) toc)
             None.
Proof.
  destruct (build_graph_rel join_parent toc pages) as (g1 & g & Hg & R1 & R2).
  exists g. split; [exact Hg|]. intros C e He.
  pose proof (index_pages_indexed pages) as [_ Hnew].
  specialize (R1 C). specialize (R2 C). rewrite He in R2.
  destruct (g1 !! C) as [e1|]; [|done].
  destruct (snd (index_pages pages) !! C) as [e0|] eqn:H0; [|done].
  apply Hnew in H0 as ->.
  destruct R1 as (_ & P1 & _), R2 as (-> & _ & _). exact P1.
Qed.

(** Three pages, and a TOC that lists the third under each of the first
    two. *)
Definition make_page (i path : string) (links : list string) : DocumentPage :=
  {| page_id := i; page_source := ARXMGD; page_title := path;
     page_path := path; page_content := ""; page_html_content := "";
     page_anchors := []; page_see_also := links |}.

Definition three_pages : list DocumentPage :=
  [ make_page "arxmgd_curves_html" "curves.html" [];
    make_page "arxmgd_solids_html" "solids.html" [];
    make_page "arxmgd_arc_html" "arc.html" [] ].

Definition two_books : list TOCTreeNode :=
  [ TOCNode "Curves" "curves.html" [TOCNode "Arc" "arc.html" []];
    TOCNode "Solids" "solids.html" [TOCNode "Arc" "arc.html" []] ].

Example two_books_graph :
  build_graph PosixPath.join_parent two_books three_pages
  = Some (list_to_map
            [ ("arxmgd_curves_html",
               {| parent := None; children := ["arxmgd_arc_html"];
                  see_also := [] |});
              ("arxmgd_solids_html",
               {| parent := None; children := ["arxmgd_arc_html"];
                  see_also := [] |});
              ("arxmgd_arc_html",
               {| parent := Some "arxmgd_solids_html"; children := [];
                  see_also := [] |}) ]).
Proof. vm_compute. reflexivity. Qed.

(** C5, as stated, fails: ["arc.html"] is a child of ["curves.html"] in
    the TOC, but its recorded parent is ["solids.html"]. *)
Lemma shared_child_keeps_last_parent :
  ~ parent_child_consistent PosixPath.join_parent two_books three_pages.
Proof.
  intros H.
  destruct (H _ two_books_graph "arxmgd_curves_html" "arxmgd_arc_html")
    as [(e & He & Hp) _].
  { eapply (toc_pair_here _ _ (TOCNode "Curves" "curves.html" _)
              (TOCNode "Arc" "arc.html" [])).
    - by left.
    - by left.
    - vm_compute. reflexivity.
    - vm_compute. reflexivity. }
  vm_compute in He. injection He as <-. discriminate.
Qed.

(** ** C7 *)

(** C7. No page id occurs in its own see-also list in a built graph. *)
Theorem no_self_see_also (join_parent : string -> string -> string)
    (toc : list TOCTreeNode) (pages : list DocumentPage) :
  exists g,
    build_graph join_parent toc pages = Some g
    /\ forall P e, g !! P = Some e -> ~ In P (see_also e).
Proof.
  destruct (build_graph_rel join_parent toc pages) as (g1 & g & Hg & R1 & R2).
  exists g. split; [exact Hg|]. intros P e He Hin.
  pose proof (index_pages_indexed pages) as [_ Hnew].
  specialize (R1 P). specialize (R2 P). rewrite He in R2.
  destruct (g1 !! P) as [e1|]; [|done].
  destruct (snd (index_pages pages) !! P) as [e0|] eqn:H0; [|done].
  apply Hnew in H0 as ->.
  destruct R1 as (S1 & _ & _), R2 as (_ & _ & S2).
  destruct (S2 P Hin) as [H|H]; [|done]. rewrite S1 in H. destruct H.
Qed.

(** A page that links to itself, by name and through its directory. *)
Example self_link_dropped :
  build_graph PosixPath.join_parent []
    [ make_page "arxmgd_guide_arc_html" "guide/arc.html"
        ["guide/arc.html"; "arc.html"; "arc"; "line.html"];
      make_page "arxmgd_guide_line_html" "guide/line.html" [] ]
  = Some (list_to_map
            [ ("arxmgd_guide_arc_html",
               {| parent := None; children := [];
                  see_also := ["arxmgd_guide_line_html"] |});
              ("arxmgd_guide_line_html", no_edges) ]).
Proof. vm_compute. reflexivity. Qed.

End LinkGraphFacts.

(* ===================================================================== *)
(** * Link graph: how paths are resolved *)
(* ===================================================================== *)

Module LinkResolutionFacts.
Import LinkGraph.







(** TOC paths are looked up as they are. *)
Lemma toc_page_exact (path_to_id : gmap string string) (path i : string) :
  toc_page path_to_id path = Some i <->
  path <> "" /\ i <> "" /\ path_to_id !! path = Some i.
Proof.
  unfold toc_page, truthy_id. destruct path as [|c path]; simpl.
  - split; [done | by intros []].
  - destruct (path_to_id !! String c path) as [j|]; [|split; [done | by intros (_ & _ & ?)]].
    destruct j as [|d j]; simpl.
    + split; [done | intros (_ & H & [= <-]); done].
    + split; [by intros [= <-] | by intros (_ & _ & [= <-])].
Qed.

Definition one_page : list DocumentPage :=
  [ LinkGraphFacts.make_page "arxmgd_Arc_html" "Arc.html" [] ].

Example lower_case_reference_unresolved :
  _resolve_link_path (fst (index_pages one_page)) PosixPath.join_parent
    "arc.html" "index.html" = None.
Proof. vm_compute. reflexivity. Qed.

Example lower_case_toc_path_unresolved :
  toc_page (fst (index_pages one_page)) "arc.html" = None.
Proof. vm_compute. reflexivity. Qed.

Example extensionless_toc_path_unresolved :
  toc_page (fst (index_pages one_page)) "Arc" = None.
Proof. vm_compute. reflexivity. Qed.

Example extensionless_reference_resolved :
  _resolve_link_path (fst (index_pages one_page)) PosixPath.join_parent
    "Arc" "index.html" = Some "arxmgd_Arc_html".
Proof. vm_compute. reflexivity. Qed.


End LinkResolutionFacts.

(* ===================================================================== *)
(** * Link graph: the dict returned by [get_neighbors] *)
(* ===================================================================== *)

Module NeighborsFacts.
Import NeighborsHeap.

(** Rebinding a key of the returned dict does not reach the store. *)
Lemma set_parent_is_private (st : Store) (page_id : string)
    (v : option string) (q : string) :
  let '(r, st1) := get_neighbors st page_id in
  stored (snd (mutate (SetParent v) r st1)) q = stored st1 q.
Proof. by destruct (get_neighbors st page_id). Qed.

(** For a known page the returned dict holds the stored list objects, and
    an append through it shows in the stored record. *)
Lemma append_reaches_stored_record (st : Store) (page_id x : string)
    (d : EdgeDict) (cs : list string) :
  graph st !! page_id = Some d ->
  lists st !! children d = Some cs ->
  is_Some (lists st !! see_also d) ->
  let '(r, st1) := get_neighbors st page_id in
  exists e,
    stored (snd (mutate (AppendChild x) r st1)) page_id = Some e
    /\ LinkGraph.children e = cs ++ [x].
Proof.
  intros Hd Hcs [ss Hss]. unfold get_neighbors. rewrite Hd.
  unfold stored, mutate, update_list; simpl. rewrite Hd; simpl.
  rewrite lookup_alter_eq, Hcs; simpl.
  destruct (decide (children d = see_also d)) as [E|Hne].
  - rewrite <- E, lookup_alter_eq, Hcs; simpl. by eexists.
  - rewrite lookup_alter_ne, Hss by done; simpl. by eexists.
Qed.

Example curves_records_built :
  LinkGraph.build_graph PosixPath.join_parent
    [ LinkGraph.TOCNode "Curves" "curves.html"
        [LinkGraph.TOCNode "Arc" "arc.html" []] ]
    [ LinkGraphFacts.make_page "arxmgd_curves_html" "curves.html" [];
      LinkGraphFacts.make_page "arxmgd_arc_html" "arc.html" [] ]
  = Some (list_to_map curves_records).
Proof. vm_compute. reflexivity. Qed.

(** C8 on the code. The stored record of ["arxmgd_curves_html"] has the
    children [["arxmgd_arc_html"]]; after
    [get_neighbors("arxmgd_curves_html")["children"].append("x")] it has
    the children [["arxmgd_arc_html"; "x"]]: the returned dict is not a
    value copy. *)
Theorem get_neighbors_shares_lists :
  stored curves_store "arxmgd_curves_html"
  = Some {| LinkGraph.parent := None;
            LinkGraph.children := ["arxmgd_arc_html"];
            LinkGraph.see_also := [] |}
  /\ (let '(r, st1) := get_neighbors curves_store "arxmgd_curves_html" in
      stored (snd (mutate (AppendChild "x") r st1)) "arxmgd_curves_html")
     = Some {| LinkGraph.parent := None;
               LinkGraph.children := ["arxmgd_arc_html"; "x"];
               LinkGraph.see_also := [] |}
  /\ ~ returns_value_copy curves_store "arxmgd_curves_html".
Proof.
  split; [vm_compute; reflexivity|]. split; [vm_compute; reflexivity|].
  intros H. specialize (H (AppendChild "x") "arxmgd_curves_html").
  vm_compute in H. discriminate.
Qed.

(** Every list address held by a record has been allocated. *)
Definition allocated (st : Store) : Prop :=
  forall k d,
    graph st !! k = Some d ->
    (children d < next st)%nat /\ (see_also d < next st)%nat.

Lemma store_record_allocated (st : Store) (page_id : string)
    (e : LinkGraph.Edges) :
  allocated st -> allocated (store_record st page_id e).
Proof.
  intros H k d. unfold store_record; simpl.
  destruct (decide (page_id = k)) as [->|Hne].
  - rewrite lookup_insert_eq. intros [= <-]; simpl. lia.
  - rewrite lookup_insert_ne by done. intros Hd.
    destruct (H k d Hd). lia.
Qed.

Lemma store_of_allocated (records : list (string * LinkGraph.Edges)) :
  allocated (store_of records).
Proof.
  unfold store_of.
  assert (G : forall st, allocated st ->
            allocated (fold_left
                         (fun st kv => store_record st (fst kv) (snd kv))
                         records st)).
  { induction records as [|kv records IH]; intros st Hst; simpl; [done|].
    apply IH. by apply store_record_allocated. }
  apply G. intros k d. unfold empty; simpl. by rewrite lookup_empty.
Qed.

(** For an unknown id the returned lists are new, and the store keeps its
    records whatever the caller does. *)
Lemma unknown_id_is_private (st : Store) (page_id : string) :
  allocated st -> graph st !! page_id = None ->
  returns_value_copy st page_id.
Proof.
  intros Hwf Hnone m q. unfold get_neighbors. rewrite Hnone.
  unfold stored.
  assert (G : forall (f g : list string -> list string) (a b : loc),
            (a = next st \/ a = S (next st)) ->
            (b = next st \/ b = S (next st)) ->
            (graph st !! q ≫= λ d,
               alter f a (<[S (next st) := []]> (<[next st := []]> (lists st)))
                 !! children d ≫= λ cs,
               alter g b (<[S (next st) := []]> (<[next st := []]> (lists st)))
                 !! see_also d ≫= λ ss,
               Some {| LinkGraph.parent := parent d; LinkGraph.children := cs;
                       LinkGraph.see_also := ss |})
            = (graph st !! q ≫= λ d,
                 lists st !! children d ≫= λ cs,
                 lists st !! see_also d ≫= λ ss,
                 Some {| LinkGraph.parent := parent d;
                         LinkGraph.children := cs;
                         LinkGraph.see_also := ss |})).
  { intros f g a b Ha Hb. destruct (graph st !! q) as [d|] eqn:Hd; [|done].
    simpl. destruct (Hwf q d Hd) as [Hc Hs].
    rewrite !lookup_alter_ne by lia. rewrite !lookup_insert_ne by lia. done. }
  destruct m; simpl.
  - rewrite <- (G id id (next st) (next st)) by tauto.
    by rewrite !alter_id.
  - apply G; tauto.
  - apply G; tauto.
  - apply G; tauto.
  - apply G; tauto.
Qed.

End NeighborsFacts.

(* ===================================================================== *)
(** * Facts about insertion-ordered dictionaries and sorting *)
(* ===================================================================== *)

Module PyDictFacts.
Section Dict.
Context {V : Type}.
Implicit Types (d : PyDict.t V) (k : string) (v : V).

Lemma get_set_eq k v d : PyDict.get k (PyDict.set k v d) = Some v.
Proof.
induction d as [|[k' v'] d IH]; simpl.
- by rewrite String.eqb_refl.
- destruct (String.eqb_spec k k') as [->|Hne]; simpl.
  + by rewrite String.eqb_refl.
  + by rewrite (proj2 (String.eqb_neq k k') Hne).
Qed.

Lemma get_set_ne k k' v d :
k <> k' -> PyDict.get k' (PyDict.set k v d) = PyDict.get k' d.
Proof.
intros Hne. induction d as [|[k0 v0] d IH]; simpl.
- by rewrite (proj2 (String.eqb_neq k' k)).
- destruct (String.eqb_spec k k0) as [->|Hne0]; simpl.
  + by rewrite (proj2 (String.eqb_neq k' k0)) by congruence.
  + by rewrite IH.
Qed.

Lemma get_None k d : PyDict.get k d = None <-> ~ In k (PyDict.keys d).
Proof.
induction d as [|[k' v'] d IH]; simpl; [tauto|].
destruct (String.eqb_spec k k') as [->|Hne].
- split; [done | tauto].
- rewrite IH. split; [intros H [E|E]; [congruence | tauto] | tauto].
Qed.

(** A new key goes to the end. *)
Lemma set_new k v d :
~ In k (PyDict.keys d) -> PyDict.set k v d = d ++ [(k, v)].
Proof.
induction d as [|[k' v'] d IH]; simpl; [done|]. intros H.
destruct (String.eqb_spec k k') as [->|Hne]; [tauto|].
rewrite IH; [done | tauto].
Qed.

Lemma keys_set k v d x :
In x (PyDict.keys (PyDict.set k v d)) <-> x = k \/ In x (PyDict.keys d).
Proof.
induction d as [|[k' v'] d IH]; simpl; [intuition|].
destruct (String.eqb_spec k k') as [->|Hne]; simpl; [intuition|].
rewrite IH. intuition.
Qed.

Lemma keys_app d d' : PyDict.keys (d ++ d') = PyDict.keys d ++ PyDict.keys d'.
Proof. apply map_app. Qed.

(** Filling a dict from keys that are new and distinct lists them in
  order. *)
Lemma fill_new (f : string -> V) (ks : list string) d :
NoDup ks -> (forall k, In k ks -> ~ In k (PyDict.keys d)) ->
fold_left (fun d k => PyDict.set k (f k) d) ks d
= d ++ map (fun k => (k, f k)) ks.
Proof.
revert d; induction ks as [|k ks IH]; intros d Hnd Hnew; simpl.
- by rewrite app_nil_r.
- apply NoDup_cons in Hnd as [Hk Hnd]. rewrite list_elem_of_In in Hk.
  rewrite set_new by (apply Hnew; by left).
  rewrite IH, <- app_assoc; [done | done |].
  intros k' Hk'. rewrite keys_app, in_app_iff. simpl.
  intros [H|[->|[]]]; [|by apply Hk].
  apply (Hnew k'); [by right | done].
Qed.

(** Keys stay distinct. *)
Lemma set_keys_NoDup k v d :
NoDup (PyDict.keys d) -> NoDup (PyDict.keys (PyDict.set k v d)).
Proof.
induction d as [|[k' v'] d IH]; simpl.
- intros _. apply NoDup_singleton.
- intros Hnd. apply NoDup_cons in Hnd as [Hk' Hnd].
  destruct (String.eqb_spec k k') as [->|Hne]; simpl.
  + by apply NoDup_cons.
  + apply NoDup_cons. split; [|by apply IH].
    rewrite list_elem_of_In, keys_set. rewrite list_elem_of_In in Hk'.
    intros [E|E]; [congruence | done].
Qed.

End Dict.
End PyDictFacts.

Module SortedFacts.

Lemma StronglySorted_weaken {A : Type} (R R' : A -> A -> Prop) (l : list A) :
(forall a b, R a b -> R' a b) -> StronglySorted R l -> StronglySorted R' l.
Proof.
intros HR. induction 1 as [|x l Hs IH Hx]; constructor; [exact IH|].
eapply List.Forall_impl; [apply HR | exact Hx].
Qed.

Section Sorted.
Context {A : Type} (lt : A -> A -> bool).
Hypothesis lt_asym : forall x y, lt x y = true -> lt y x = false.
Hypothesis lt_negtrans :
forall x y z, lt x y = false -> lt y z = false -> lt x z = false.

Abbreviation insert_desc := (Indexer.insert_desc lt).
Abbreviation sorted_reverse := (Indexer.sorted_reverse lt).

(** [x] is not below [y]. *)
Definition ge (x y : A) : Prop := lt x y = false.

Lemma insert_desc_perm (x : A) (l : list A) :
Permutation (insert_desc x l) (x :: l).
Proof.
induction l as [|y l IH]; simpl; [done|].
destruct (lt x y); [|done].
rewrite IH. apply perm_swap.
Qed.

Lemma sorted_reverse_perm (l : list A) : Permutation (sorted_reverse l) l.
Proof.
induction l as [|x l IH]; simpl; [done|].
rewrite insert_desc_perm. by constructor.
Qed.

Lemma insert_desc_sorted (x : A) (l : list A) :
StronglySorted ge l -> StronglySorted ge (insert_desc x l).
Proof.
induction 1 as [|y l Hs IH Hy]; simpl.
- repeat constructor.
- destruct (lt x y) eqn:E.
  + constructor; [exact IH|].
    rewrite insert_desc_perm. constructor; [by apply lt_asym | exact Hy].
  + constructor; [by constructor|].
    constructor; [exact E|].
    eapply List.Forall_impl; [|exact Hy].
    intros z Hz. by eapply lt_negtrans.
Qed.

Lemma sorted_reverse_sorted (l : list A) :
StronglySorted ge (sorted_reverse l).
Proof.
induction l as [|x l IH]; simpl; [constructor|].
by apply insert_desc_sorted.
Qed.

End Sorted.
End SortedFacts.

(* ===================================================================== *)
(** * Hybrid index: reciprocal rank fusion *)
(* ===================================================================== *)

Module FusionFacts.
Import Indexer.

(** The 0-based position of [c] in a candidate list, counted from [i];
    [None] when [c] is not a candidate. *)
Fixpoint position_from {S : Type} (i : Z) (c : string)
    (l : list (string * S)) : option Z :=
  match l with
  | [] => None
  | (c', _) :: rest =>
      if String.eqb c c' then Some i else position_from (i + 1) c rest
  end.

(** The rank the specification gives [c] in a ranker's list: its position,
    and 60 when it is absent. *)
Definition candidate_rank {S : Type} (l : list (string * S)) (c : string) : Z :=
  match position_from 0 c l with
  | Some r => r
  | None => 60
  end.

(** The fused score the specification gives [c]. *)
Definition fused_score {S : Type} (dense lexical : list (string * S))
    (c : string) : Q :=
  (1 / inject_Z (60 + candidate_rank dense c + 1)
   + 1 / inject_Z (60 + candidate_rank lexical c + 1))%Q.

(** What is known of a set's iteration order: it lists the members, each
    once. *)
Definition enumerates (set_iter : list string -> list string) : Prop :=
  forall l, NoDup (set_iter l) /\ forall x, In x (set_iter l) <-> In x l.

Section Ranks.
Context {S : Type}.
Implicit Types (l : list (string * S)) (c : string).

Lemma position_from_None i c l :
  position_from i c l = None <-> ~ In c (map fst l).
Proof.
  revert i; induction l as [|[c' s] l IH]; intros i; simpl; [tauto|].
  destruct (String.eqb_spec c c') as [->|Hne].
  - split; [done | tauto].
  - rewrite IH. split; [intros H [E|E]; [congruence | tauto] | tauto].
Qed.

Lemma position_from_lookup i c l r :
  position_from i c l = Some r ->
  i <= r /\ exists s, l !! Z.to_nat (r - i) = Some (c, s).
Proof.
  revert i; induction l as [|[c' s] l IH]; intros i; simpl; [done|].
  destruct (String.eqb_spec c c') as [->|Hne].
  - intros [= <-]. split; [lia|]. exists s. by rewrite Z.sub_diag.
  - intros H. apply IH in H as (Hle & s' & Hs'). split; [lia|].
    exists s'. replace (Z.to_nat (r - i)) with (Datatypes.S (Z.to_nat (r - (i + 1)))) by lia.
    exact Hs'.
Qed.

(** In a list without repeated ids, the candidate at position [n] has
    rank [n]. *)
Lemma candidate_rank_lookup l (n : nat) c s :
  NoDup (map fst l) -> l !! n = Some (c, s) ->
  candidate_rank l c = Z.of_nat n.
Proof.
  unfold candidate_rank.
  assert (G : forall i, NoDup (map fst l) -> l !! n = Some (c, s) ->
              position_from i c l = Some (i + Z.of_nat n)).
  { revert n; induction l as [|[c' s'] l IH]; intros n i Hnd Hn; [done|].
    simpl in *. apply NoDup_cons in Hnd as [Hc' Hnd]. rewrite list_elem_of_In in Hc'.
    destruct n as [|n]; simpl in Hn.
    - injection Hn as -> ->. rewrite String.eqb_refl. f_equal. lia.
    - destruct (String.eqb_spec c c') as [->|Hne].
      + exfalso. apply Hc', in_map_iff.
        exists (c', s). split; [done|]. apply list_elem_of_In.
        by eapply list_elem_of_lookup_2.
      + rewrite (IH n (i + 1)) by done. f_equal. lia. }
  intros Hnd Hn. by rewrite (G 0 Hnd Hn).
Qed.

Lemma candidate_rank_absent l c :
  ~ In c (map fst l) -> candidate_rank l c = 60.
Proof.
  intros H. unfold candidate_rank.
  by rewrite (proj2 (position_from_None 0 c l) H).
Qed.

Lemma candidate_rank_nonneg l c : 0 <= candidate_rank l c.
Proof.
  unfold candidate_rank. destruct (position_from 0 c l) as [r|] eqn:E; [|lia].
  by apply position_from_lookup in E as [? _].
Qed.

(** The rank dict built by the comprehension. *)
Lemma rank_fold_get l :
  forall i (d : PyDict.t Z) c,
    NoDup (map fst l) ->
    PyDict.get c
      (fold_left
         (fun d (e : Z * (string * S)) => PyDict.set (fst (snd e)) (fst e) d)
         (enumerate_from i l) d)
    = match position_from i c l with
      | Some r => Some r
      | None => PyDict.get c d
      end.
Proof.
  induction l as [|[c' s] l IH]; intros i d c Hnd; simpl; [done|].
  apply NoDup_cons in Hnd as [Hc' Hnd]. rewrite list_elem_of_In in Hc'. rewrite IH by done.
  destruct (String.eqb_spec c c') as [->|Hne].
  - rewrite (proj2 (position_from_None (i + 1) c' l)).
    + apply PyDictFacts.get_set_eq.
    + done.
  - destruct (position_from (i + 1) c l); [done|].
    apply PyDictFacts.get_set_ne. congruence.
Qed.

Lemma rank_fold_keys l :
  forall i (d : PyDict.t Z) c,
    In c (PyDict.keys
            (fold_left
               (fun d (e : Z * (string * S)) =>
                  PyDict.set (fst (snd e)) (fst e) d)
               (enumerate_from i l) d))
    <-> In c (PyDict.keys d) \/ In c (map fst l).
Proof.
  induction l as [|[c' s] l IH]; intros i d c; simpl; [tauto|].
  rewrite IH, PyDictFacts.keys_set. intuition.
Qed.

Lemma rank_dict_get l c :
  NoDup (map fst l) ->
  get_default (rank_dict l) c 60 = candidate_rank l c.
Proof.
  intros Hnd. unfold get_default, rank_dict, enumerate, candidate_rank.
  rewrite rank_fold_get by done. by destruct (position_from 0 c l).
Qed.

Lemma rank_dict_keys l c :
  In c (PyDict.keys (rank_dict l)) <-> In c (map fst l).
Proof.
  unfold rank_dict, enumerate. rewrite rank_fold_keys. simpl. tauto.
Qed.

End Ranks.

(** ** The order on fused scores *)

Lemma Qlt_bool_false (x y : Q) : Qlt_bool x y = false <-> (y <= x)%Q.
Proof.
  unfold Qlt_bool. rewrite negb_false_iff. apply Qle_bool_iff.
Qed.

Lemma Qlt_bool_true (x y : Q) : Qlt_bool x y = true <-> (x < y)%Q.
Proof.
  unfold Qlt_bool. rewrite negb_true_iff, <- not_true_iff_false, Qle_bool_iff.
  split; [apply Qnot_le_lt | apply Qlt_not_le].
Qed.

Definition score_lt (x y : string * Q) : bool := Qlt_bool (snd x) (snd y).

Lemma score_lt_asym (x y : string * Q) :
  score_lt x y = true -> score_lt y x = false.
Proof.
  unfold score_lt. rewrite Qlt_bool_true, Qlt_bool_false. apply Qlt_le_weak.
Qed.

Lemma score_lt_negtrans (x y z : string * Q) :
  score_lt x y = false -> score_lt y z = false -> score_lt x z = false.
Proof.
  unfold score_lt. rewrite !Qlt_bool_false. intros H1 H2.
  by eapply Qle_trans.
Qed.

(** [1.0 / n] shrinks as [n] grows. *)
Lemma reciprocal_antitone (a b : Z) :
  0 < b <= a -> (1 / inject_Z a <= 1 / inject_Z b)%Q.
Proof.
  intros [Hb Hab]. destruct a as [|a|a], b as [|b|b]; try lia.
  unfold Qle, Qdiv, Qmult, Qinv, inject_Z; simpl. lia.
Qed.

(** ** The fusion *)

Section Fusion.
Context {S : Type}.
Variable set_iter : list string -> list string.
Hypothesis set_iter_enumerates : enumerates set_iter.
Variables dense lexical : list (string * S).
Hypothesis dense_distinct : NoDup (map fst dense).
Hypothesis lexical_distinct : NoDup (map fst lexical).

Definition all_chunk_ids : list string :=
  set_iter (PyDict.keys (rank_dict dense) ++ PyDict.keys (rank_dict lexical)).

Lemma all_chunk_ids_spec (c : string) :
  In c all_chunk_ids <-> In c (map fst dense) \/ In c (map fst lexical).
Proof.
  unfold all_chunk_ids.
  rewrite (proj2 (set_iter_enumerates _)), in_app_iff, !rank_dict_keys. tauto.
Qed.

(** The fusion is the stable descending sort of the candidates, in set
    order, each with its fused score. *)
Lemma fusion_unfold :
  _reciprocal_rank_fusion set_iter dense lexical 60
  = sorted_reverse score_lt
      (map (fun c => (c, fused_score dense lexical c)) all_chunk_ids).
Proof.
  unfold _reciprocal_rank_fusion. fold all_chunk_ids. f_equal.
  rewrite (PyDictFacts.fill_new
             (fun c => (1 / inject_Z (60 + get_default (rank_dict dense) c 60 + 1)
                        + 1 / inject_Z (60 + get_default (rank_dict lexical) c 60 + 1))%Q)).
  - simpl. apply map_ext. intros c. unfold fused_score.
    by rewrite !rank_dict_get.
  - apply set_iter_enumerates.
  - intros k _ [].
Qed.

Lemma fusion_perm :
  Permutation (_reciprocal_rank_fusion set_iter dense lexical 60)
    (map (fun c => (c, fused_score dense lexical c)) all_chunk_ids).
Proof. rewrite fusion_unfold. apply SortedFacts.sorted_reverse_perm. Qed.

Lemma fusion_In (c : string) (s : Q) :
  In (c, s) (_reciprocal_rank_fusion set_iter dense lexical 60) <->
  In c all_chunk_ids /\ s = fused_score dense lexical c.
Proof.
  split.
  - intros H. apply (Permutation_in _ fusion_perm) in H.
    by apply in_map_iff in H as (c' & [= <- <-] & Hc).
  - intros [Hc ->]. apply (Permutation_in _ (Permutation_sym fusion_perm)).
    apply in_map_iff. by exists c.
Qed.

Lemma fusion_keys :
  Permutation (map fst (_reciprocal_rank_fusion set_iter dense lexical 60))
    all_chunk_ids.
Proof.
  rewrite fusion_perm, map_map. simpl. by rewrite map_id.
Qed.

Lemma fusion_sorted :
  StronglySorted (fun a b => (snd b <= snd a)%Q)
    (_reciprocal_rank_fusion set_iter dense lexical 60).
Proof.
  rewrite fusion_unfold.
  eapply SortedFacts.StronglySorted_weaken;
    [|apply SortedFacts.sorted_reverse_sorted;
      [apply score_lt_asym | apply score_lt_negtrans]].
  intros a b. unfold SortedFacts.ge, score_lt. apply Qlt_bool_false.
Qed.

End Fusion.

(** [r] is the rank of [c] in [l]: its 0-based position, or 60 when [c] is
    not in the list. *)
Definition is_rank {S : Type} (l : list (string * S)) (c : string) (r : Z)
    : Prop :=
  (exists (n : nat) (x : S), l !! n = Some (c, x) /\ r = Z.of_nat n)
  \/ (~ In c (map fst l) /\ r = 60).

Lemma candidate_rank_is_rank {S : Type} (l : list (string * S)) (c : string) :
  is_rank l c (candidate_rank l c).
Proof.
  unfold is_rank, candidate_rank.
  destruct (position_from 0 c l) as [r|] eqn:E.
  - left. apply position_from_lookup in E as (Hr & x & Hx).
    exists (Z.to_nat (r - 0)), x. split; [done | lia].
  - right. by apply position_from_None in E.
Qed.

(** A set order for the examples: first occurrences, in order. *)
Definition insertion_order (l : list string) : list string :=
  rev (remove_dups (rev l)).

Lemma insertion_order_enumerates : enumerates insertion_order.
Proof.
  intros l. unfold insertion_order. split.
  - rewrite <- Permutation_rev. apply NoDup_remove_dups.
  - intros x. rewrite <- in_rev, <- list_elem_of_In, elem_of_remove_dups,
      list_elem_of_In, <- in_rev. done.
Qed.

(** ** C1 *)

(** C1. For candidate lists without repeated chunk ids, every fused
    candidate carries the score [1/(60 + rank_dense + 1) + 1/(60 +
    rank_lexical + 1)], where a rank is the chunk's 0-based position in the
    ranker's list and 60 when the chunk is absent from it; the fusion holds
    each chunk of the union of the two candidate sets once, and is sorted
    by descending fused score. *)
Theorem fusion_scores_union_sorted {S : Type}
    (set_iter : list string -> list string)
    (dense lexical : list (string * S)) :
  enumerates set_iter ->
  NoDup (map fst dense) -> NoDup (map fst lexical) ->
  let fused := _reciprocal_rank_fusion set_iter dense lexical 60 in
  (forall c s, In (c, s) fused ->
     exists rd rl,
       is_rank dense c rd /\ is_rank lexical c rl
       /\ s = (1 / inject_Z (60 + rd + 1) + 1 / inject_Z (60 + rl + 1))%Q)
  /\ (forall c, In c (map fst fused) <->
                In c (map fst dense) \/ In c (map fst lexical))
  /\ NoDup (map fst fused)
  /\ StronglySorted (fun a b => (snd b <= snd a)%Q) fused.
Proof.
  intros Hset Hd Hl fused. subst fused. split; [|split; [|split]].
  - intros c s H.
    apply (fusion_In set_iter Hset dense lexical Hd Hl) in H as [_ ->].
    exists (candidate_rank dense c), (candidate_rank lexical c).
    split; [apply candidate_rank_is_rank|].
    split; [apply candidate_rank_is_rank | reflexivity].
  - intros c. split; intros H.
    + apply (all_chunk_ids_spec set_iter Hset dense lexical).
      eapply Permutation_in; [|exact H].
      by apply fusion_keys.
    + apply (all_chunk_ids_spec set_iter Hset dense lexical) in H.
      eapply Permutation_in; [|exact H].
      symmetry. by apply fusion_keys.
  - rewrite (fusion_keys set_iter Hset dense lexical Hd Hl).
    apply Hset.
  - by apply fusion_sorted.
Qed.

Definition dense_sample : list (string * Z) :=
  [("p_chunk_0", 3); ("p_chunk_1", 7); ("p_chunk_2", 9)].

Definition lexical_sample : list (string * Z) :=
  [("p_chunk_1", 12); ("p_chunk_3", 5)].

Example fusion_sample :
  map (fun e => (fst e, Qred (snd e)))
    (_reciprocal_rank_fusion insertion_order dense_sample lexical_sample 60)
  = [ ("p_chunk_1", 123 # 3782); ("p_chunk_0", 182 # 7381);
      ("p_chunk_3", 183 # 7502); ("p_chunk_2", 184 # 7623) ]%Q.
Proof. vm_compute. reflexivity. Qed.

Lemma fusion_scores_union_sorted_witness :
  let fused :=
    _reciprocal_rank_fusion insertion_order dense_sample lexical_sample 60 in
  (forall c s, In (c, s) fused ->
     exists rd rl,
       is_rank dense_sample c rd /\ is_rank lexical_sample c rl
       /\ s = (1 / inject_Z (60 + rd + 1) + 1 / inject_Z (60 + rl + 1))%Q)
  /\ (forall c, In c (map fst fused) <->
                In c (map fst dense_sample) \/ In c (map fst lexical_sample))
  /\ NoDup (map fst fused)
  /\ StronglySorted (fun a b => (snd b <= snd a)%Q) fused.
Proof.
  apply (fusion_scores_union_sorted insertion_order dense_sample lexical_sample).
  - apply insertion_order_enumerates.
  - apply (bool_decide_unpack _). vm_compute. exact I.
  - apply (bool_decide_unpack _). vm_compute. exact I.
Defined.

(** ** C4 *)

(** C4. A chunk at rank 0 of both candidate lists has the fused score
    [1/61 + 1/61], and no candidate has a higher one. *)
Theorem first_in_both_has_top_score {S : Type}
    (set_iter : list string -> list string)
    (dense lexical : list (string * S)) (c : string) (sd sl : S) :
  enumerates set_iter ->
  NoDup (map fst dense) -> NoDup (map fst lexical) ->
  dense !! 0%nat = Some (c, sd) -> lexical !! 0%nat = Some (c, sl) ->
  let fused := _reciprocal_rank_fusion set_iter dense lexical 60 in
  let top := (1 / inject_Z 61 + 1 / inject_Z 61)%Q in
  In (c, top) fused
  /\ forall c' s', In (c', s') fused -> (s' <= top)%Q.
Proof.
  intros Hset Hd Hl Hcd Hcl fused top. subst fused top.
  assert (Hc : fused_score dense lexical c
               = (1 / inject_Z 61 + 1 / inject_Z 61)%Q).
  { unfold fused_score.
    by rewrite (candidate_rank_lookup _ _ _ _ Hd Hcd),
               (candidate_rank_lookup _ _ _ _ Hl Hcl). }
  split.
  - apply (fusion_In set_iter Hset dense lexical Hd Hl). split; [|done].
    apply (all_chunk_ids_spec set_iter Hset dense lexical). left.
    apply in_map_iff. exists (c, sd). split; [done|].
    apply list_elem_of_In. by eapply list_elem_of_lookup_2.
  - intros c' s' H.
    apply (fusion_In set_iter Hset dense lexical Hd Hl) in H as [_ ->].
    unfold fused_score.
    pose proof (candidate_rank_nonneg dense c').
    pose proof (candidate_rank_nonneg lexical c').
    apply Qplus_le_compat; apply reciprocal_antitone; lia.
Qed.

Definition lexical_agreeing : list (string * Z) :=
  [("p_chunk_0", 12); ("p_chunk_3", 5)].

Lemma first_in_both_has_top_score_witness :
  let fused :=
    _reciprocal_rank_fusion insertion_order dense_sample lexical_agreeing 60 in
  let top := (1 / inject_Z 61 + 1 / inject_Z 61)%Q in
  In ("p_chunk_0", top) fused
  /\ forall c' s', In (c', s') fused -> (s' <= top)%Q.
Proof.
  apply (first_in_both_has_top_score insertion_order dense_sample
           lexical_agreeing "p_chunk_0" 3 12).
  - apply insertion_order_enumerates.
  - apply (bool_decide_unpack _). vm_compute. exact I.
  - apply (bool_decide_unpack _). vm_compute. exact I.
  - reflexivity.
  - reflexivity.
Defined.

End FusionFacts.

(* ===================================================================== *)
(** * Hybrid index: what the set order can and cannot change *)
(* ===================================================================== *)

Module TieFacts.
Import Indexer.
Import FusionFacts.

(** The fused score of [c] as the code reads it off the two rank dicts. *)
Definition code_score {S : Type} (dense lexical : list (string * S)) (k : Z)
    (c : string) : Q :=
  (1 / inject_Z (k + get_default (rank_dict dense) c k + 1)
   + 1 / inject_Z (k + get_default (rank_dict lexical) c k + 1))%Q.

(** The members of [all_chunk_ids], as they are put into the set. *)
Definition candidates {S : Type} (dense lexical : list (string * S))
    : list string :=
  PyDict.keys (rank_dict dense) ++ PyDict.keys (rank_dict lexical).

(** Scores up to the representation of a rational. *)
Definition norm_scores (l : list (string * Q)) : list Q :=
  map (fun e => Qred (snd e)) l.

(** Two outcomes of [search] agree on the scores, position by position. *)
Definition same_scores (a b : Result (list SearchResult)) : Prop :=
  match a, b with
  | Ok ra, Ok rb =>
      map (fun r => Qred (sr_score r)) ra = map (fun r => Qred (sr_score r)) rb
  | Raise ea, Raise eb => ea = eb
  | _, _ => False
  end.

Lemma fusion_raw {S : Type} (set_iter : list string -> list string)
    (dense lexical : list (string * S)) (k : Z) :
  enumerates set_iter ->
  _reciprocal_rank_fusion set_iter dense lexical k
  = sorted_reverse score_lt
      (map (fun c => (c, code_score dense lexical k c))
         (set_iter (candidates dense lexical))).
Proof.
  intros Hset. unfold _reciprocal_rank_fusion. fold (candidates dense lexical).
  f_equal.
  rewrite (PyDictFacts.fill_new (code_score dense lexical k)).
  - reflexivity.
  - apply Hset.
  - intros c _ [].
Qed.

Lemma StronglySorted_map {A B : Type} (R : A -> A -> Prop) (R' : B -> B -> Prop)
    (f : A -> B) (l : list A) :
  (forall a b, R a b -> R' (f a) (f b)) ->
  StronglySorted R l -> StronglySorted R' (map f l).
Proof.
  intros HR. induction 1 as [|x l Hs IH Hx]; simpl; constructor; [exact IH|].
  apply List.Forall_forall. intros y Hy.
  apply in_map_iff in Hy as (z & <- & Hz). apply HR.
  rewrite List.Forall_forall in Hx. by apply Hx.
Qed.

(** A list has one sorted arrangement when the order is antisymmetric on
    its elements. *)
Lemma sorted_perm_unique {A : Type} (R : A -> A -> Prop) (P : A -> Prop) :
  (forall a b, P a -> P b -> R a b -> R b a -> a = b) ->
  forall l1 l2,
    List.Forall P l1 -> StronglySorted R l1 -> StronglySorted R l2 ->
    Permutation l1 l2 -> l1 = l2.
Proof.
  intros Hanti. induction l1 as [|h1 t1 IH]; intros l2 HP S1 S2 Hp.
  - by apply Permutation_nil in Hp.
  - destruct l2 as [|h2 t2].
    { symmetry in Hp. by apply Permutation_nil in Hp. }
    apply StronglySorted_inv in S1 as [S1 F1].
    apply StronglySorted_inv in S2 as [S2 F2].
    rewrite List.Forall_forall in F1, F2.
    pose proof (proj1 (List.Forall_forall P (h1 :: t1)) HP) as HP'.
    assert (E : h1 = h2).
    { destruct (Permutation_in h1 Hp (or_introl eq_refl)) as [E|Hin1]; [done|].
      destruct (Permutation_in h2 (Permutation_sym Hp) (or_introl eq_refl))
        as [E|Hin2]; [done|].
      apply Hanti; [apply HP'; by left | apply HP'; by right | by apply F1
                   | by apply F2]. }
    subst h2. f_equal. apply IH; [|done|done|by eapply Permutation_cons_inv].
    by apply List.Forall_inv_tail in HP.
Qed.

Lemma Qred_idem (q : Q) : Qred (Qred q) = Qred q.
Proof. apply Qred_complete, Qred_correct. Qed.

(** The scores of the fusion do not depend on the set order. *)
Lemma fused_scores_order_independent {S : Type}
    (iter1 iter2 : list string -> list string)
    (dense lexical : list (string * S)) (k : Z) :
  enumerates iter1 -> enumerates iter2 ->
  norm_scores (_reciprocal_rank_fusion iter1 dense lexical k)
  = norm_scores (_reciprocal_rank_fusion iter2 dense lexical k).
Proof.
  intros H1 H2. rewrite !fusion_raw by done. unfold norm_scores.
  assert (Hsorted : forall l,
    StronglySorted (fun a b => (b <= a)%Q)
      (map (fun e : string * Q => Qred (snd e)) (sorted_reverse score_lt l))).
  { intros l. eapply StronglySorted_map;
      [|apply SortedFacts.sorted_reverse_sorted;
        [apply score_lt_asym | apply score_lt_negtrans]].
    intros a b. unfold SortedFacts.ge, score_lt. rewrite Qlt_bool_false.
    by rewrite !Qred_correct. }
  apply (sorted_perm_unique (fun a b => (b <= a)%Q) (fun q => Qred q = q)).
  - intros a b Ha Hb Hab Hba. rewrite <- Ha, <- Hb.
    apply Qred_complete. by apply Qle_antisym.
  - apply List.Forall_forall. intros q Hq.
    apply in_map_iff in Hq as (e & <- & _). apply Qred_idem.
  - apply Hsorted.
  - apply Hsorted.
  - apply Permutation_map.
    rewrite !SortedFacts.sorted_reverse_perm. apply Permutation_map.
    apply NoDup_Permutation; [apply H1 | apply H2 |].
    intros c. rewrite !list_elem_of_In.
    rewrite (proj2 (H1 _)), (proj2 (H2 _)). done.
Qed.

Lemma slice_to_map {A B : Type} (f : A -> B) (k : Z) (l : list A) :
  map f (slice_to k l) = slice_to k (map f l).
Proof.
  unfold slice_to. rewrite length_map.
  destruct (k <? 0); symmetry; apply firstn_map.
Qed.

Lemma slice_to_In {A : Type} (k : Z) (l : list A) (x : A) :
  In x (slice_to k l) -> In x l.
Proof.
  unfold slice_to. rewrite <- !list_elem_of_In.
  destruct (k <? 0); apply subseteq_take.
Qed.

Section Search.
Variables (Vector Score BM25 : Type).
Variable encode : string -> Vector.
Variable faiss_search : list Vector -> Vector -> Z -> list (Score * Z).
Variable get_scores : BM25 -> list string -> list Score.
Variable score_ltb : Score -> Score -> bool.
Variable self : State Vector BM25.

Lemma key_has_value {V : Type} (d : PyDict.t V) (c : string) :
  In c (PyDict.keys d) -> exists v, PyDict.get c d = Some v.
Proof.
  intros Hin. destruct (PyDict.get c d) as [v|] eqn:E; [by exists v|].
  by apply PyDictFacts.get_None in E.
Qed.

(** Both rankers name chunks of [self.chunk_metadata] only. *)
Lemma chunk_id_of_index_key (idx : Z) (c : string) :
  chunk_id_of_index _ _ self idx = Some c ->
  In c (PyDict.keys (chunk_metadata _ _ self)).
Proof.
  unfold chunk_id_of_index.
  destruct (List.find _ _) as [[c' v]|] eqn:E; [|done].
  intros [= <-]. apply find_some in E as [Hin _].
  apply in_map_iff. by exists (c', v).
Qed.

Lemma faiss_ids_known (vectors : list Vector) (query : string) (k : Z)
    (hits : list (string * Score)) (c : string) (s : Score) :
  _faiss_search _ _ _ encode faiss_search self vectors query k = Ok hits ->
  In (c, s) hits ->
  In c (PyDict.keys (chunk_metadata _ _ self)).
Proof.
  unfold _faiss_search. destruct (k >? 0); [|done]. intros [= <-].
  unfold faiss_chunk_ids. rewrite <- list_elem_of_In, list_elem_of_omap.
  intros ([score idx] & _ & H).
  destruct (idx <? _); [|done].
  destruct (chunk_id_of_index _ _ self idx) as [c'|] eqn:E; [|done].
  injection H as <- _. by eapply chunk_id_of_index_key.
Qed.

Lemma bm25_ids_known (bm25 : BM25) (query : string) (k : Z)
    (c : string) (s : Score) :
  In (c, s) (_bm25_search _ _ _ get_scores score_ltb self bm25 query k) ->
  In c (PyDict.keys (chunk_metadata _ _ self)).
Proof.
  unfold _bm25_search. rewrite <- list_elem_of_In, list_elem_of_omap.
  intros ([idx score] & _ & H). simpl in H.
  destruct (chunk_id_of_index _ _ self idx) as [c'|] eqn:E; [|done].
  injection H as <- _. by eapply chunk_id_of_index_key.
Qed.

(** ** The rankers do not repeat a chunk id *)

Lemma unique_value {V : Type} (d : PyDict.t V) (k : string) (v v' : V) :
  NoDup (PyDict.keys d) -> In (k, v) d -> In (k, v') d -> v = v'.
Proof.
  induction d as [|[k0 v0] d IH]; simpl; [done|].
  intros Hnd. apply NoDup_cons in Hnd as [Hk0 Hnd].
  rewrite list_elem_of_In in Hk0.
  intros [[= -> ->]|H1] [[= E]|H2].
  - done.
  - exfalso. apply Hk0, in_map_iff. by exists (k, v').
  - exfalso. subst k0. apply Hk0, in_map_iff. by exists (k, v).
  - by apply IH.
Qed.

(** With distinct keys, one chunk id answers to one index. *)
Lemma chunk_id_of_index_inj (i j : Z) (c : string) :
  NoDup (PyDict.keys (chunk_metadata _ _ self)) ->
  chunk_id_of_index _ _ self i = Some c ->
  chunk_id_of_index _ _ self j = Some c ->
  i = j.
Proof.
  unfold chunk_id_of_index. intros Hnd.
  destruct (List.find _ _) as [[c1 [ch1 i1]]|] eqn:E1; [|done].
  destruct (List.find (fun kv => snd (snd kv) =? j) _)
    as [[c2 [ch2 i2]]|] eqn:E2; [|done].
  intros [= ->] [= ->].
  apply find_some in E1 as [H1 Hi]. apply find_some in E2 as [H2 Hj].
  simpl in Hi, Hj. apply Z.eqb_eq in Hi, Hj.
  pose proof (unique_value _ _ _ _ Hnd H1 H2) as [= _ E]. lia.
Qed.

Lemma omap_ids_distinct {A B : Type} (key : A -> Z)
    (f : A -> option (string * B)) (l : list A) :
  (forall a b c x y, f a = Some (c, x) -> f b = Some (c, y) -> key a = key b) ->
  NoDup (map key l) -> NoDup (map fst (omap f l)).
Proof.
  intros Hinj. induction l as [|a l IH]; simpl; [constructor|].
  intros Hnd. apply NoDup_cons in Hnd as [Ha Hnd].
  destruct (f a) as [[c x]|] eqn:Ea; simpl; [|by apply IH].
  apply NoDup_cons. split; [|by apply IH].
  rewrite list_elem_of_In, in_map_iff. intros ([c' y] & E & Hin).
  simpl in E. subst c'.
  apply list_elem_of_In, list_elem_of_omap in Hin as (b & Hb & Eb).
  apply Ha. rewrite (Hinj a b c x y Ea Eb).
  apply list_elem_of_In, in_map. by apply list_elem_of_In.
Qed.

Lemma enumerate_from_indices {A : Type} (l : list A) (i : Z) :
  NoDup (map fst (enumerate_from i l))
  /\ forall j, In j (map fst (enumerate_from i l)) -> i <= j.
Proof.
  revert i; induction l as [|x l IH]; intros i; simpl.
  - split; [constructor | done].
  - destruct (IH (i + 1)) as [Hnd Hge]. split.
    + apply NoDup_cons. split; [|done].
      rewrite list_elem_of_In. intros H. apply Hge in H. lia.
    + intros j [<-|H]; [lia|]. apply Hge in H. lia.
Qed.

(** The dense candidates are distinct when the indices FAISS returned are
    (FAISS repeats only the padding index [-1], when [k] exceeds the number
    of stored vectors). *)
Lemma faiss_ids_distinct (vectors : list Vector) (query : string) (k : Z)
    (hits : list (string * Score)) :
  NoDup (PyDict.keys (chunk_metadata _ _ self)) ->
  NoDup (map snd (faiss_search vectors (encode query) k)) ->
  _faiss_search _ _ _ encode faiss_search self vectors query k = Ok hits ->
  NoDup (map fst hits).
Proof.
  intros Hkeys Hidx. unfold _faiss_search.
  destruct (k >? 0); [|done]. intros [= <-]. unfold faiss_chunk_ids.
  apply (omap_ids_distinct snd); [|done].
  intros [s1 i1] [s2 i2] c x y; simpl.
  destruct (i1 <? _); [|done]. destruct (i2 <? _); [|done].
  destruct (chunk_id_of_index _ _ self i1) as [c1|] eqn:E1; [|done].
  destruct (chunk_id_of_index _ _ self i2) as [c2|] eqn:E2; [|done].
  simpl. intros [= -> _] [= -> _]. by eapply chunk_id_of_index_inj.
Qed.

(** The lexical candidates are distinct. *)
Lemma bm25_ids_distinct (bm25 : BM25) (query : string) (k : Z) :
  NoDup (PyDict.keys (chunk_metadata _ _ self)) ->
  NoDup (map fst (_bm25_search _ _ _ get_scores score_ltb self bm25 query k)).
Proof.
  intros Hkeys. unfold _bm25_search.
  apply (omap_ids_distinct fst).
  - intros [i1 s1] [i2 s2] c x y; simpl.
    destruct (chunk_id_of_index _ _ self i1) as [c1|] eqn:E1; [|done].
    destruct (chunk_id_of_index _ _ self i2) as [c2|] eqn:E2; [|done].
    simpl. intros [= -> _] [= -> _]. by eapply chunk_id_of_index_inj.
  - rewrite slice_to_map. unfold slice_to.
    assert (Hnd : NoDup (map fst
              (sorted_reverse (fun x y : Z * Score => score_ltb (snd x) (snd y))
                 (enumerate (get_scores bm25 (PyStr.split (PyStr.lower query))))))).
    { rewrite SortedFacts.sorted_reverse_perm. apply enumerate_from_indices. }
    destruct (k <? 0); (eapply sublist_NoDup; [exact Hnd | apply sublist_take]).
Qed.

(** A fused entry whose id is in the metadata becomes one result, with the
    fused score. *)
Lemma to_results_scores (query : string) (top : list (string * Q)) :
  (forall c s, In (c, s) top -> In c (PyDict.keys (chunk_metadata _ _ self))) ->
  map sr_score (to_results _ _ self query top) = map snd top.
Proof.
  induction top as [|[c s] top IH]; intros Hin; [done|].
  unfold to_results in *. cbn [omap list_omap fst snd].
  destruct (key_has_value (chunk_metadata _ _ self) c) as [[chunk i] ->].
  { apply (Hin c s). by left. }
  cbn [map sr_score]. f_equal. apply IH.
  intros c' s' H. apply (Hin c' s'). by right.
Qed.

Lemma fused_ids_known {S : Type} (set_iter : list string -> list string)
    (dense lexical : list (string * S)) (c : string) (s : Q) :
  enumerates set_iter ->
  (forall c x, In (c, x) dense -> In c (PyDict.keys (chunk_metadata _ _ self))) ->
  (forall c x, In (c, x) lexical -> In c (PyDict.keys (chunk_metadata _ _ self))) ->
  In (c, s) (_reciprocal_rank_fusion set_iter dense lexical 60) ->
  In c (PyDict.keys (chunk_metadata _ _ self)).
Proof.
  intros Hset Hd Hl. rewrite fusion_raw by done. intros Hin.
  eapply Permutation_in in Hin; [|apply SortedFacts.sorted_reverse_perm].
  apply in_map_iff in Hin as (c' & [= <- _] & Hc).
  apply (proj1 (proj2 (Hset _) _)) in Hc. unfold candidates in Hc.
  rewrite in_app_iff, !rank_dict_keys, !in_map_iff in Hc.
  destruct Hc as [([c1 x] & <- & H)|([c1 x] & <- & H)]; [by eapply Hd | by eapply Hl].
Qed.

(** Whatever the set orders, two searches on the same index return equally
    many results with the same scores at each position. *)
Lemma search_scores_order_independent
    (iter1 iter2 : list string -> list string) (query : string) (k : Z) :
  enumerates iter1 -> enumerates iter2 ->
  same_scores
    (search _ _ _ encode faiss_search get_scores score_ltb iter1 self query k)
    (search _ _ _ encode faiss_search get_scores score_ltb iter2 self query k).
Proof.
  intros H1 H2. unfold search.
  destruct (faiss_index _ _ self) as [vectors|]; [|done].
  destruct (bm25_index _ _ self) as [bm25|]; [|done].
  destruct (_faiss_search _ _ _ _ _ self vectors query (k * 2))
    as [hits|e] eqn:Ehits; [|done].
  unfold same_scores.
  rewrite <- !(map_map sr_score Qred).
  rewrite !to_results_scores.
  - rewrite !(map_map snd Qred), !slice_to_map.
    f_equal. by apply fused_scores_order_independent.
  - intros c s H. apply slice_to_In in H.
    eapply fused_ids_known; [exact H2| | |exact H].
    + intros ? ?. by eapply faiss_ids_known.
    + intros ? ?. apply bm25_ids_known.
  - intros c s H. apply slice_to_In in H.
    eapply fused_ids_known; [exact H1| | |exact H].
    + intros ? ?. by eapply faiss_ids_known.
    + intros ? ?. apply bm25_ids_known.
Qed.

End Search.

End TieFacts.

(* ===================================================================== *)
(** * Hybrid index: search, save and load *)
(* ===================================================================== *)

Module IndexFacts.
Import Indexer.

(** ** C9 *)

(** C9. With the dense or the lexical index missing, [search] raises
    [RuntimeError] whatever the query and [k]; it does not return a list,
    empty or not. *)
Theorem search_unbuilt_raises
    (Vector Score BM25 : Type) (encode : string -> Vector)
    (faiss_search : list Vector -> Vector -> Z -> list (Score * Z))
    (get_scores : BM25 -> list string -> list Score)
    (score_ltb : Score -> Score -> bool)
    (set_iter : list string -> list string)
    (self : State Vector BM25) (query : string) (k : Z) :
  faiss_index _ _ self = None \/ bm25_index _ _ self = None ->
  search Vector Score BM25 encode faiss_search get_scores score_ltb set_iter
    self query k
  = Raise (RuntimeError "Indices not loaded")
  /\ forall results,
       search Vector Score BM25 encode faiss_search get_scores score_ltb
         set_iter self query k
       <> Ok results.
Proof.
  intros H.
  assert (E : search Vector Score BM25 encode faiss_search get_scores
                score_ltb set_iter self query k
              = Raise (RuntimeError "Indices not loaded")).
  { unfold search. destruct H as [-> | H]; [done|].
    rewrite H. by destruct (faiss_index _ _ self). }
  split; [exact E|]. intros results. rewrite E. discriminate.
Qed.

Lemma search_unbuilt_raises_witness :
  Toy.search FusionFacts.insertion_order Toy.init "revision cloud" 3
  = Raise (RuntimeError "Indices not loaded")
  /\ forall results,
       Toy.search FusionFacts.insertion_order Toy.init "revision cloud" 3
       <> Ok results.
Proof.
  apply (search_unbuilt_raises Z Q (list (list string)) Toy.encode
           Toy.faiss_search Toy.get_scores Qlt_bool FusionFacts.insertion_order
           Toy.init "revision cloud" 3).
  left. reflexivity.
Defined.

(** ** Saving and loading *)

Section RoundTrip.
Variables (Vector Score BM25 : Type).
Variable encode : string -> Vector.
Variable faiss_search : list Vector -> Vector -> Z -> list (Score * Z).
Variable bm25_okapi : list (list string) -> BM25.
Variable get_scores : BM25 -> list string -> list Score.
Variable score_ltb : Score -> Score -> bool.

Abbreviation State := (Indexer.State Vector BM25).
Abbreviation Files := (Indexer.Files Vector BM25).
Abbreviation build_index := (Indexer.build_index Vector BM25 encode bm25_okapi).
Abbreviation load_indices := (Indexer.load_indices Vector BM25).
Abbreviation search :=
  (Indexer.search Vector Score BM25 encode faiss_search get_scores score_ltb).

Lemma source_round_trip (s : SourceType) :
  source_of_value (source_value s) = Some s.
Proof. by destruct s. Qed.

(** A chunk survives [model_dump] and re-validation. *)
Lemma chunk_round_trip (c : DocumentChunk) :
  validate_chunk (model_dump c) = Some c.
Proof.
  destruct c as [i src pid title path anchor txt h ci tc so eo md].
  unfold validate_chunk, model_dump, field_str, field_int; simpl.
  rewrite source_round_trip; simpl.
  by destruct anchor.
Qed.

Lemma store_metadata_keys (chunks : list DocumentChunk) :
  NoDup (PyDict.keys (_store_metadata chunks)).
Proof.
  unfold _store_metadata, enumerate.
  assert (G : forall i (d : PyDict.t (DocumentChunk * Z)),
            NoDup (PyDict.keys d) ->
            NoDup (PyDict.keys
                     (fold_left
                        (fun d (e : Z * DocumentChunk) =>
                           PyDict.set (chunk_id (snd e)) (snd e, fst e) d)
                        (enumerate_from i chunks) d))).
  { induction chunks as [|c chunks IH]; intros i d Hd; simpl; [done|].
    apply IH. by apply PyDictFacts.set_keys_NoDup. }
  apply G. constructor.
Qed.

(** Reading [metadata.json] back rebuilds the dict that was dumped. *)
Lemma load_metadata_round_trip (rest acc : PyDict.t (DocumentChunk * Z)) :
  NoDup (PyDict.keys (acc ++ rest)) ->
  load_metadata
    (map (fun kv => (fst kv, (model_dump (fst (snd kv)), snd (snd kv)))) rest)
    acc
  = Ok (acc ++ rest).
Proof.
  revert acc; induction rest as [|[cid [c i]] rest IH]; intros acc Hnd; simpl.
  - by rewrite app_nil_r.
  - rewrite chunk_round_trip.
    rewrite PyDictFacts.set_new.
    + rewrite IH; rewrite <- app_assoc; done.
    + rewrite PyDictFacts.keys_app in Hnd.
      apply NoDup_app in Hnd as (_ & Hdis & _).
      intros Hin. apply (Hdis cid); [by apply list_elem_of_In|].
      simpl. by left.
Qed.

(** What [build_index] leaves on disk loads back into the indexer it
    left in memory. *)
Lemma load_after_build (self fresh built : State) (files : Files)
    (chunks : list DocumentChunk)
    (am : option (PyDict.t Chunker.AnchorEntry)) :
  build_index self chunks am = Ok (built, files) ->
  load_indices fresh files = Ok built.
Proof.
  unfold Indexer.build_index. destruct chunks as [|c chunks]; [done|].
  cbn [_save_indices faiss_index bm25_index chunk_metadata anchor_map].
  intros [= <- <-]. unfold Indexer.load_indices.
  cbn [faiss_file bm25_file metadata_file anchor_map_file].
  rewrite (load_metadata_round_trip _ []); [done|].
  apply store_metadata_keys.
Qed.

(** ** C2 *)

(** The claim as stated, for a building process that iterates sets in
    the order [builder_iter] and a loading process that iterates them in
    the order [loader_iter]. *)
Definition search_survives_reload
    (builder_iter loader_iter : list string -> list string)
    (chunks : list DocumentChunk)
    (am : option (PyDict.t Chunker.AnchorEntry)) : Prop :=
  forall (built loaded : State) (files : Files),
    build_index (Indexer.init Vector BM25) chunks am = Ok (built, files) ->
    load_indices (Indexer.init Vector BM25) files = Ok loaded ->
    forall query k,
      search loader_iter loaded query k = search builder_iter built query k.

(** C2, as amended. An instance that loads the saved artifacts holds the
    same dense index, lexical index, chunk metadata and anchor map as the
    instance that built them. For every query and [k] the two result lists
    are identical when both instances iterate the set of fused candidates in
    the same order; whatever the two orders, the lists have the same length
    and the same score at each position. *)
Theorem reload_preserves_search_up_to_ties
    (builder_iter loader_iter : list string -> list string)
    (self fresh built : State) (files : Files)
    (chunks : list DocumentChunk)
    (am : option (PyDict.t Chunker.AnchorEntry)) :
  FusionFacts.enumerates builder_iter ->
  FusionFacts.enumerates loader_iter ->
  build_index self chunks am = Ok (built, files) ->
  exists loaded,
    load_indices fresh files = Ok loaded
    /\ faiss_index _ _ loaded = faiss_index _ _ built
    /\ bm25_index _ _ loaded = bm25_index _ _ built
    /\ chunk_metadata _ _ loaded = chunk_metadata _ _ built
    /\ anchor_map _ _ loaded = anchor_map _ _ built
    /\ forall query k,
         ((forall l, loader_iter l = builder_iter l) ->
          search loader_iter loaded query k = search builder_iter built query k)
         /\ TieFacts.same_scores
              (search loader_iter loaded query k)
              (search builder_iter built query k).
Proof.
  intros Hb Hl Hbuild. exists built. split; [by eapply load_after_build|].
  do 4 (split; [reflexivity|]).
  intros query k. split.
  - intros Hsame. unfold Indexer.search.
    destruct (faiss_index _ _ built) as [vectors|]; [|done].
    destruct (bm25_index _ _ built) as [bm25|]; [|done].
    destruct (_faiss_search _ _ _ _ _ built vectors query (k * 2)); [|done].
    unfold _reciprocal_rank_fusion. by rewrite Hsame.
  - by apply TieFacts.search_scores_order_independent.
Qed.

End RoundTrip.

Definition reverse_order (l : list string) : list string :=
  rev (FusionFacts.insertion_order l).

Lemma reverse_order_enumerates : FusionFacts.enumerates reverse_order.
Proof.
  intros l. unfold reverse_order.
  destruct (FusionFacts.insertion_order_enumerates l) as [Hnd Hin]. split.
  - by rewrite <- Permutation_rev.
  - intros x. by rewrite <- in_rev.
Qed.

Definition built_of (chunks : list DocumentChunk) : Toy.State :=
  match Toy.build_index Toy.init chunks None with
  | Ok (built, _) => built
  | Raise _ => Toy.init
  end.

Definition files_of (chunks : list DocumentChunk) : Toy.Files :=
  match Toy.build_index Toy.init chunks None with
  | Ok (_, files) => files
  | Raise _ => no_files _ _
  end.

Definition result_ids (r : Result (list SearchResult)) : option (list string) :=
  match r with
  | Ok results => Some (map sr_id results)
  | Raise _ => None
  end.

Example toy_build :
  Toy.build_index Toy.init Toy.disjoint_chunks None
  = Ok (built_of Toy.disjoint_chunks, files_of Toy.disjoint_chunks)
  /\ Toy.load_indices Toy.init (files_of Toy.disjoint_chunks)
     = Ok (built_of Toy.disjoint_chunks).
Proof. split; vm_compute; reflexivity. Qed.

(** The two candidate lists for the query ["arc"] on
    [Toy.disjoint_chunks]. The query is the text of chunk 1, which is
    therefore the nearest vector; every lexical score is zero, and the
    stable sort leaves the chunks in index order. *)
Example disjoint_dense_candidates :
  option_map (map fst)
    match
      _faiss_search Z Q (list (list string)) Toy.encode Toy.faiss_search
        (built_of Toy.disjoint_chunks) [4; 3] "arc" 2
    with
    | Ok hits => Some hits
    | Raise _ => None
    end
  = Some ["arxmgd_arc_html_chunk_1"; "arxmgd_arc_html_chunk_0"].
Proof. vm_compute. reflexivity. Qed.

Example disjoint_lexical_candidates :
  map (fun e => (fst e, Qred (snd e)))
    (_bm25_search Z Q (list (list string)) Toy.get_scores Qlt_bool
       (built_of Toy.disjoint_chunks)
       (Toy.bm25_okapi [["line"]; ["arc"]]) "arc" 2)
  = [("arxmgd_arc_html_chunk_0", 0%Q); ("arxmgd_arc_html_chunk_1", 0%Q)].
Proof. vm_compute. reflexivity. Qed.

Example toy_search_builder :
  result_ids
    (Toy.search FusionFacts.insertion_order (built_of Toy.disjoint_chunks)
       "arc" 1)
  = Some ["arxmgd_arc_html_chunk_1"].
Proof. vm_compute. reflexivity. Qed.

Example toy_search_loader :
  result_ids
    (Toy.search reverse_order (built_of Toy.disjoint_chunks) "arc" 1)
  = Some ["arxmgd_arc_html_chunk_0"].
Proof. vm_compute. reflexivity. Qed.

Lemma reload_preserves_search_up_to_ties_witness :
  exists loaded,
    Toy.load_indices Toy.init (files_of Toy.disjoint_chunks) = Ok loaded
    /\ faiss_index _ _ loaded = faiss_index _ _ (built_of Toy.disjoint_chunks)
    /\ bm25_index _ _ loaded = bm25_index _ _ (built_of Toy.disjoint_chunks)
    /\ chunk_metadata _ _ loaded
       = chunk_metadata _ _ (built_of Toy.disjoint_chunks)
    /\ anchor_map _ _ loaded = anchor_map _ _ (built_of Toy.disjoint_chunks)
    /\ forall query k,
         ((forall l, reverse_order l = FusionFacts.insertion_order l) ->
          Toy.search reverse_order loaded query k
          = Toy.search FusionFacts.insertion_order
              (built_of Toy.disjoint_chunks) query k)
         /\ TieFacts.same_scores
              (Toy.search reverse_order loaded query k)
              (Toy.search FusionFacts.insertion_order
                 (built_of Toy.disjoint_chunks) query k).
Proof.
  apply (reload_preserves_search_up_to_ties Z Q (list (list string))
           Toy.encode Toy.faiss_search Toy.bm25_okapi Toy.get_scores Qlt_bool
           FusionFacts.insertion_order reverse_order Toy.init Toy.init
           (built_of Toy.disjoint_chunks) (files_of Toy.disjoint_chunks)
           Toy.disjoint_chunks None).
  - apply FusionFacts.insertion_order_enumerates.
  - apply reverse_order_enumerates.
  - vm_compute. reflexivity.
Defined.

(** C2, as stated, fails when the two processes iterate the candidate set
    in different orders. On [Toy.disjoint_chunks], with contents ["line"]
    and ["arc"], the query ["arc"] puts chunk 1 first in the dense list and
    chunk 0 first in the lexical list, both chunks get the fused score
    [1/61 + 1/62], and [search("arc", 1)] returns chunk 1 in one order and
    chunk 0 in the other. *)
Lemma reload_can_reorder_ties :
  ~ search_survives_reload Z Q (list (list string)) Toy.encode
      Toy.faiss_search Toy.bm25_okapi Toy.get_scores Qlt_bool
      FusionFacts.insertion_order reverse_order Toy.disjoint_chunks None.
Proof.
  intros H.
  specialize (H _ _ _ eq_refl eq_refl "arc" 1).
  vm_compute in H. discriminate.
Qed.

End IndexFacts.

(* ===================================================================== *)
(** * Chunker: numbering, sizes and offsets of the chunks *)
(* ===================================================================== *)

Module ChunkerExtra.
Import Chunker.

Lemma length_append (a b : string) :
  String.length (a +:+ b) = (String.length a + String.length b)%nat.
Proof.
  induction a as [|c a IH]; [reflexivity|].
  change (S (String.length (a +:+ b))
          = S (String.length a + String.length b)). by rewrite IH.
Qed.

Lemma len_append (a b : string) :
  PyStr.len (a +:+ b) = PyStr.len a + PyStr.len b.
Proof. unfold PyStr.len. rewrite length_append. lia. Qed.

Lemma append_assoc (a b c : string) : (a +:+ b) +:+ c = a +:+ (b +:+ c).
Proof.
  induction a as [|x a IH]; [reflexivity|].
  change (String x ((a +:+ b) +:+ c) = String x (a +:+ (b +:+ c))).
  by rewrite IH.
Qed.

Lemma truthy_false (s : string) : PyStr.truthy s = false -> s = "".
Proof. by destruct s. Qed.

Section WithConfig.
Variable self : Config.
Variable id_elements : string -> list (string * string).
Variable name_elements : string -> list (string * string).
Variable page : DocumentPage.

Abbreviation step := (Chunker.step self id_elements name_elements page).
Abbreviation emit := (Chunker.emit id_elements name_elements page).
Abbreviation finish := (Chunker.finish self id_elements name_elements page).
Abbreviation run := (Chunker.run self id_elements name_elements page).

(** The chunk at position [i] of the page is numbered [i] and copies the
    page's fields. *)
Definition numbered (i : nat) (c : DocumentChunk) : Prop :=
  chunk_index c = Z.of_nat i
  /\ chunk_id c = page_id page +:+ "_chunk_" +:+ pretty (Z.of_nat i)
  /\ chunk_page_id c = page_id page
  /\ chunk_title c = page_title page
  /\ chunk_path c = page_path page
  /\ chunk_source c = page_source page
  /\ total_chunks c = 0.

(** The chunk is not empty and not below the minimum size. *)
Definition sized (c : DocumentChunk) : Prop :=
  content c <> "" /\ min_chunk_tokens self <= _estimate_tokens (content c).

(** The chunk's offsets span its text, and start at most [n] characters
    into the stream. *)
Definition spans (n : Z) (c : DocumentChunk) : Prop :=
  end_offset c - start_offset c = PyStr.len (content c)
  /\ 0 <= start_offset c <= n.

(** The loop invariant after [n] sections. *)
Definition inv (n : Z) (st : Loop) : Prop :=
  next_chunk_index st = Z.of_nat (length (chunks st))
  /\ 0 <= current_offset st <= n
  /\ forall i c, chunks st !! i = Some c -> numbered i c /\ sized c /\ spans n c.

Lemma inv_start (am : PyDict.t AnchorEntry) : inv 0 (start am).
Proof. unfold inv, start; simpl. split; [done|]. split; [lia | done]. Qed.

Lemma inv_weaken (n m : Z) (st : Loop) : n <= m -> inv n st -> inv m st.
Proof.
  intros Hnm (Hi & Ho & Hc). split; [done|]. split; [lia|].
  intros i c Hic. destruct (Hc i c Hic) as (Hn & Hs & Hspan & Hstart).
  split; [exact Hn|]. split; [exact Hs|]. split; [exact Hspan | lia].
Qed.

Lemma inv_emit (n : Z) (st : Loop) :
  current_chunk_text st <> "" ->
  min_chunk_tokens self <= _estimate_tokens (current_chunk_text st) ->
  inv n st -> inv n (emit st).
Proof.
  intros Htext Hmin (Hi & Ho & Hc). unfold Chunker.emit, _create_chunk.
  unfold inv. cbn [chunks next_chunk_index current_offset].
  split; [rewrite length_app; simpl; lia|]. split; [done|].
  intros i c. destruct (decide (i < length (chunks st))%nat) as [Hlt|Hge].
  - rewrite lookup_app_l by done. apply Hc.
  - rewrite lookup_app_r by lia.
    destruct (i - length (chunks st))%nat as [|j] eqn:Ej; [|done].
    intros [= <-]. assert (i = length (chunks st)) as -> by lia.
    unfold numbered, sized, spans; simpl. rewrite Hi.
    split; [split; [done|]; tauto|]. split; [split; [done | lia]|].
    split; lia.
Qed.

Lemma inv_step (n : Z) (st : Loop) (sec : string * string) :
  inv n st -> inv (n + 1) (step st sec).
Proof.
  intros Hinv. destruct sec as [t h]. unfold Chunker.step.
  destruct (closes self st t) eqn:Hc.
  - apply andb_prop in Hc as [Htext _].
    assert (Hinv1 : inv n
              (if _estimate_tokens (current_chunk_text st) >=? min_chunk_tokens self
               then emit st else st)).
    { destruct (Z.geb_spec (_estimate_tokens (current_chunk_text st))
                  (min_chunk_tokens self)); [|done].
      apply inv_emit; [|lia|done].
      intros E. by rewrite E in Htext. }
    set (st1 := if _ >=? _ then emit st else st) in *.
    assert (Hoff : current_offset st1 = current_offset st).
    { subst st1. by destruct (_ >=? _). }
    destruct Hinv1 as (Hi & Ho & Hcs). rewrite Hoff in Ho.
    split; [exact Hi|]. cbn [current_offset chunks]. split.
    + destruct (PyStr.truthy (_get_overlap_text self (current_chunk_text st)))
        eqn:E.
      * rewrite !len_append. change (PyStr.len " ") with 1. lia.
      * apply truthy_false in E. rewrite E. change (PyStr.len "") with 0. lia.
    + intros i c Hic. destruct (Hcs i c Hic) as (Hn & Hs & Hspan & Hstart).
      split; [exact Hn|]. split; [exact Hs|]. split; [exact Hspan | lia].
  - apply (inv_weaken n); [lia|].
    destruct Hinv as (Hi & Ho & Hcs).
    by destruct (PyStr.truthy (current_chunk_text st)).
Qed.

Lemma inv_fold (secs : list (string * string)) :
  forall n st,
    inv n st ->
    inv (n + Z.of_nat (length secs)) (fold_left step secs st).
Proof.
  induction secs as [|sec secs IH]; intros n st Hinv; simpl fold_left.
  - apply (inv_weaken n); [simpl; lia | done].
  - replace (n + Z.of_nat (length (sec :: secs)))
      with (n + 1 + Z.of_nat (length secs)) by (simpl; lia).
    apply IH. by apply inv_step.
Qed.

Lemma inv_finish (n : Z) (st : Loop) : inv n st -> inv n (finish st).
Proof.
  intros Hinv. unfold Chunker.finish.
  destruct (PyStr.truthy (current_chunk_text st)) eqn:Htext; [|done].
  destruct (Z.geb_spec (_estimate_tokens (current_chunk_text st))
              (min_chunk_tokens self)); [|done].
  apply inv_emit; [|lia|done]. intros E. by rewrite E in Htext.
Qed.

Lemma inv_run (am : PyDict.t AnchorEntry) (secs : list (string * string)) :
  inv (Z.of_nat (length secs)) (run (start am) secs).
Proof.
  unfold Chunker.run. apply inv_finish.
  apply (inv_fold secs 0). apply inv_start.
Qed.

End WithConfig.

(** X1. The chunks of a page are numbered from 0 in order: the chunk at
    position [i] has [chunk_index = i] and the id
    [page.id + "_chunk_" + str(i)], carries the page's id, title, path and
    source, and leaves [chunk_page] with [total_chunks = 0]. *)
Theorem chunks_are_numbered
    (self : Config) (find_all : string -> list Element)
    (id_elements name_elements : string -> list (string * string))
    (am : PyDict.t AnchorEntry) (page : DocumentPage)
    (i : nat) (c : DocumentChunk) :
  chunk_page self find_all id_elements name_elements am page !! i = Some c ->
  chunk_index c = Z.of_nat i
  /\ chunk_id c = page_id page +:+ "_chunk_" +:+ pretty (Z.of_nat i)
  /\ chunk_page_id c = page_id page
  /\ chunk_title c = page_title page
  /\ chunk_path c = page_path page
  /\ chunk_source c = page_source page
  /\ total_chunks c = 0.
Proof.
  intros Hc.
  destruct (inv_run self id_elements name_elements page am
              (items find_all page)) as (_ & _ & H).
  by destruct (H i c Hc) as [Hn _].
Qed.

(** X2. No chunk of a page is empty or below [min_chunk_tokens] in the
    chunker's own estimate. *)
Theorem chunks_meet_minimum
    (self : Config) (find_all : string -> list Element)
    (id_elements name_elements : string -> list (string * string))
    (am : PyDict.t AnchorEntry) (page : DocumentPage)
    (i : nat) (c : DocumentChunk) :
  chunk_page self find_all id_elements name_elements am page !! i = Some c ->
  content c <> ""
  /\ min_chunk_tokens self <= _estimate_tokens (content c).
Proof.
  intros Hi.
  destruct (inv_run self id_elements name_elements page am
              (items find_all page)) as (_ & _ & H).
  by destruct (H i c Hi) as (_ & Hs & _).
Qed.

(** X3. A chunk's offsets span exactly its text, but the start offset only
    counts the buffers closed before it with a non-empty seed: it lies
    between 0 and the number of sections of the page, whatever the lengths
    of the earlier chunks. *)
Theorem chunk_offsets
    (self : Config) (find_all : string -> list Element)
    (id_elements name_elements : string -> list (string * string))
    (am : PyDict.t AnchorEntry) (page : DocumentPage)
    (i : nat) (c : DocumentChunk) :
  chunk_page self find_all id_elements name_elements am page !! i = Some c ->
  end_offset c - start_offset c = PyStr.len (content c)
  /\ 0 <= start_offset c <= Z.of_nat (length (items find_all page)).
Proof.
  intros Hi.
  destruct (inv_run self id_elements name_elements page am
              (items find_all page)) as (_ & _ & H).
  by destruct (H i c Hi) as (_ & _ & Hs).
Qed.

Definition sample_chunks : list DocumentChunk :=
  chunk_page ChunkerFacts.tight_config ChunkerFacts.three_headings
    (fun _ => []) (fun _ => []) [] ChunkerFacts.sample_page.

Lemma chunks_are_numbered_witness :
  exists c,
    sample_chunks !! 1%nat = Some c
    /\ chunk_index c = 1
    /\ chunk_id c = "arxmgd_intro_html" +:+ "_chunk_" +:+ pretty 1
    /\ chunk_page_id c = "arxmgd_intro_html"
    /\ chunk_title c = "Intro"
    /\ chunk_path c = "intro.html"
    /\ chunk_source c = ARXMGD
    /\ total_chunks c = 0.
Proof.
  eexists. split; [reflexivity|].
  apply (chunks_are_numbered ChunkerFacts.tight_config
           ChunkerFacts.three_headings (fun _ => []) (fun _ => []) []
           ChunkerFacts.sample_page 1%nat).
  reflexivity.
Defined.

Lemma chunks_meet_minimum_witness :
  exists c,
    sample_chunks !! 1%nat = Some c
    /\ content c <> ""
    /\ 3 <= _estimate_tokens (content c).
Proof.
  eexists. split; [reflexivity|].
  apply (chunks_meet_minimum ChunkerFacts.tight_config
           ChunkerFacts.three_headings (fun _ => []) (fun _ => []) []
           ChunkerFacts.sample_page 1%nat).
  reflexivity.
Defined.

Lemma chunk_offsets_witness :
  exists c,
    sample_chunks !! 1%nat = Some c
    /\ end_offset c - start_offset c = PyStr.len (content c)
    /\ 0 <= start_offset c <= 3.
Proof.
  eexists. split; [reflexivity|].
  apply (chunk_offsets ChunkerFacts.tight_config
           ChunkerFacts.three_headings (fun _ => []) (fun _ => []) []
           ChunkerFacts.sample_page 1%nat).
  reflexivity.
Defined.

(** The second chunk of the sample page starts at offset 2 although the
    first chunk is 14 characters long. *)
Example sample_offsets :
  map (fun c => (start_offset c, end_offset c)) sample_chunks
  = [(0, 14); (2, 23)].
Proof. reflexivity. Qed.

(** ** A page that fits into one buffer *)

(** How the loop extends the buffer by a section that does not close it. *)
Definition extend (acc t : string) : string :=
  if PyStr.truthy acc then acc +:+ " " +:+ t else t.

Lemma len_extend (acc t : string) : PyStr.len acc <= PyStr.len (extend acc t).
Proof.
  unfold extend. destruct acc as [|c acc]; [unfold PyStr.len; simpl; lia|].
  cbn [PyStr.truthy]. rewrite len_append. unfold PyStr.len. lia.
Qed.

Lemma len_fold_extend (texts : list string) (acc : string) :
  PyStr.len acc <= PyStr.len (fold_left extend texts acc).
Proof.
  revert acc; induction texts as [|t texts IH]; intros acc; simpl; [lia|].
  pose proof (len_extend acc t). pose proof (IH (extend acc t)). lia.
Qed.

Lemma truthy_append (a b : string) :
  PyStr.truthy a = true -> PyStr.truthy (a +:+ b) = true.
Proof. by destruct a. Qed.

(** With non-empty texts, extending from a non-empty buffer is joining with
    single spaces. *)
Lemma fold_extend_join (texts : list string) (acc : string) :
  PyStr.truthy acc = true ->
  fold_left extend texts acc
  = match texts with
    | [] => acc
    | _ => acc +:+ " " +:+ PyStr.join " " texts
    end.
Proof.
  revert acc; induction texts as [|t texts IH]; intros acc Hacc; [done|].
  cbn [fold_left]. unfold extend at 2. rewrite Hacc.
  rewrite IH by by apply truthy_append.
  destruct texts as [|t' texts]; [done|].
  cbn iota. unfold PyStr.join. cbn [String.concat].
  by rewrite !append_assoc.
Qed.

(** The texts without the empty ones at the front. *)
Fixpoint drop_empty (texts : list string) : list string :=
  match texts with
  | [] => []
  | t :: rest => if PyStr.truthy t then texts else drop_empty rest
  end.

(** An empty buffer takes the first non-empty text as it is; from there on
    every text is appended after a space. *)
Lemma fold_extend_join_start (texts : list string) :
  fold_left extend texts "" = PyStr.join " " (drop_empty texts).
Proof.
  induction texts as [|t texts IH]; [done|].
  cbn [fold_left drop_empty]. change (extend "" t) with t.
  destruct (PyStr.truthy t) eqn:Ht.
  - rewrite fold_extend_join by done. by destruct texts.
  - apply truthy_false in Ht as ->. exact IH.
Qed.

Section OneBuffer.
Variable self : Config.
Variable id_elements : string -> list (string * string).
Variable name_elements : string -> list (string * string).
Variable page : DocumentPage.

(** While the estimate of the extended buffer stays within the target, no
    section closes it. *)
Lemma fold_without_close (secs : list (string * string)) :
  forall st,
    _estimate_tokens (fold_left extend (map fst secs) (current_chunk_text st))
      <= target_tokens self ->
    let st' := fold_left (Chunker.step self id_elements name_elements page)
                 secs st in
    chunks st' = chunks st
    /\ current_chunk_text st'
       = fold_left extend (map fst secs) (current_chunk_text st)
    /\ current_offset st' = current_offset st
    /\ next_chunk_index st' = next_chunk_index st.
Proof.
  induction secs as [|[t h] secs IH]; intros st Hfit; [done|].
  cbn [fold_left map fst] in *.
  set (st1 := Chunker.step self id_elements name_elements page st (t, h)).
  assert (Hc : closes self st t = false).
  { unfold closes. destruct (PyStr.truthy (current_chunk_text st)) eqn:E;
      [|done]. simpl. rewrite Z.gtb_ltb. apply Z.ltb_ge.
    assert (Hext : extend (current_chunk_text st) t
                   = current_chunk_text st +:+ " " +:+ t).
    { unfold extend. by rewrite E. }
    rewrite <- Hext.
    pose proof (len_fold_extend (map fst secs)
                  (extend (current_chunk_text st) t)) as Hlen.
    unfold _estimate_tokens in *.
    etransitivity; [|exact Hfit].
    apply Z.div_le_mono; [lia | exact Hlen]. }
  assert (Hstep : chunks st1 = chunks st
                  /\ current_chunk_text st1 = extend (current_chunk_text st) t
                  /\ current_offset st1 = current_offset st
                  /\ next_chunk_index st1 = next_chunk_index st).
  { subst st1. unfold Chunker.step, extend. rewrite Hc.
    by destruct (PyStr.truthy (current_chunk_text st)). }
  destruct Hstep as (H1 & H2 & H3 & H4).
  rewrite <- H2 in Hfit. destruct (IH st1 Hfit) as (I1 & I2 & I3 & I4).
  rewrite I1, I2, I3, I4, H1, H2, H3, H4. done.
Qed.

End OneBuffer.

(** X4. When the section texts of a page, joined by single spaces from the
    first non-empty one on, are estimated at no more than [target_tokens],
    no section closes a buffer: the page yields exactly one chunk, holding
    the joined text, if that text is non-empty and estimated at
    [min_chunk_tokens] or more, and no chunk at all otherwise, so that the
    text of a short page is dropped. *)
Theorem page_within_target_is_one_chunk
    (self : Config) (find_all : string -> list Element)
    (id_elements name_elements : string -> list (string * string))
    (am : PyDict.t AnchorEntry) (page : DocumentPage) :
  let joined :=
    PyStr.join " " (drop_empty (map fst (items find_all page))) in
  _estimate_tokens joined <= target_tokens self ->
  map content (chunk_page self find_all id_elements name_elements am page)
  = if PyStr.truthy joined
       && (_estimate_tokens joined >=? min_chunk_tokens self)
    then [joined] else [].
Proof.
  intros joined Hfit. unfold chunk_page, chunk_page_state, run.
  pose proof (fold_extend_join_start (map fst (items find_all page)))
    as Hjoin.
  fold joined in Hjoin.
  destruct (fold_without_close self id_elements name_elements page
              (items find_all page) (start am)) as (Hc & Ht & _ & _).
  { change (current_chunk_text (start am)) with "". by rewrite Hjoin. }
  change (current_chunk_text (start am)) with "" in Ht.
  rewrite Hjoin in Ht.
  set (st' := fold_left _ _ _) in *.
  unfold finish. rewrite Ht.
  destruct (_ && _).
  - rewrite ChunkerFacts.emit_contents, Hc, Ht. reflexivity.
  - by rewrite Hc.
Qed.

(** A page with two short headings under the default configuration: 11
    characters, 2 tokens, far below the minimum of 200. *)
Definition short_headings (_ : string) : list Element :=
  [ {| tag := Heading 1; text := "Arcs"; html := "<h1>Arcs</h1>" |};
    {| tag := Heading 2; text := "Usage"; html := "<h2>Usage</h2>" |};
    {| tag := Block; text := "x"; html := "<p>x</p>" |} ].

(** A page whose first heading is empty. *)
Definition empty_heading (_ : string) : list Element :=
  [ {| tag := Heading 1; text := ""; html := "<h1></h1>" |};
    {| tag := Heading 2; text := "abcdefgh"; html := "<h2>abcdefgh</h2>" |};
    {| tag := Heading 2; text := ""; html := "<h2></h2>" |} ].

Lemma page_within_target_is_one_chunk_witness :
  map content
    (chunk_page ChunkerFacts.small_config empty_heading (fun _ => [])
       (fun _ => []) [] ChunkerFacts.sample_page)
  = if PyStr.truthy "abcdefgh "
       && (_estimate_tokens "abcdefgh "
           >=? min_chunk_tokens ChunkerFacts.small_config)
    then ["abcdefgh "] else [].
Proof.
  apply (page_within_target_is_one_chunk ChunkerFacts.small_config
           empty_heading (fun _ => []) (fun _ => []) []
           ChunkerFacts.sample_page).
  vm_compute. discriminate.
Defined.

Example empty_heading_chunk :
  map content
    (chunk_page ChunkerFacts.small_config empty_heading (fun _ => [])
       (fun _ => []) [] ChunkerFacts.sample_page)
  = ["abcdefgh "].
Proof. reflexivity. Qed.

Example short_page_is_dropped :
  chunk_page default_config short_headings (fun _ => []) (fun _ => []) []
    ChunkerFacts.sample_page = [].
Proof. reflexivity. Qed.

(** ** Heading sections *)





End ChunkerExtra.

(* ===================================================================== *)
(** * Link graph: keys, lists and references of a built graph *)
(* ===================================================================== *)

Module LinkGraphExtra.
Import LinkGraph.
Import LinkGraphFacts.

(** ** The keys of the graph *)

Lemma index_pages_keys (pages : list DocumentPage) (k : string) :
  is_Some (snd (index_pages pages) !! k)
  <-> exists page, In page pages /\ page_id page = k.
Proof.
  unfold index_pages.
  assert (G : forall st,
    is_Some (snd (fold_left index_page pages st) !! k)
    <-> is_Some (snd st !! k) \/ exists page, In page pages /\ page_id page = k).
  { induction pages as [|p pages IH]; intros st; cbn [fold_left].
    - split; [by left | intros [H|(page & [] & _)]; exact H].
    - rewrite IH. destruct st as [idx g]. cbn [index_page fst snd]. split.
      + intros [H|(page & Hin & E)].
        * destruct (decide (page_id p = k)) as [E|Hne].
          -- right. exists p. split; [by left | exact E].
          -- left. by rewrite lookup_insert_ne in H.
        * right. exists page. split; [by right | exact E].
      + intros [H|(page & [<-|Hin] & E)].
        * left. destruct (decide (page_id p = k)) as [E|Hne].
          -- rewrite E, lookup_insert_eq. by eexists.
          -- by rewrite lookup_insert_ne.
        * left. rewrite E, lookup_insert_eq. by eexists.
        * right. by exists page. }
  rewrite G. cbn [snd]. rewrite lookup_empty. split.
  - intros [[? [=]]|H]; exact H.
  - by right.
Qed.

Lemma toc_rel_keys_iff (es : list (string * string)) (g g' : Graph)
    (k : string) :
  toc_rel es g g' -> is_Some (g !! k) <-> is_Some (g' !! k).
Proof.
  intros H. specialize (H k).
  destruct (g !! k), (g' !! k); try done; split; intros [? [=]].
Qed.

(** ** The see-also pass, exactly *)

(** [g'] is [g] with the same keys, parents and children, and with the
    see-also list of [k] extended by exactly the ids [x] with [T k x]. *)
Definition see_ext (T : string -> string -> Prop) (g g' : Graph) : Prop :=
  forall k,
    match g !! k, g' !! k with
    | Some e, Some e' =>
        parent e' = parent e /\ children e' = children e
        /\ (NoDup (see_also e) -> NoDup (see_also e'))
        /\ forall x, In x (see_also e') <-> In x (see_also e) \/ T k x
    | None, None => True
    | _, _ => False
    end.

Lemma see_ext_keys_iff (T : string -> string -> Prop) (g g' : Graph)
    (k : string) :
  see_ext T g g' -> is_Some (g !! k) <-> is_Some (g' !! k).
Proof.
  intros H. specialize (H k).
  destruct (g !! k), (g' !! k); try done; split; intros [? [=]].
Qed.

Lemma see_ext_refl (T : string -> string -> Prop) (g : Graph) :
  (forall k e x, g !! k = Some e -> T k x -> In x (see_also e)) ->
  see_ext T g g.
Proof.
  intros HT k. destruct (g !! k) as [e|] eqn:He; [|done].
  split; [done|]. split; [done|]. split; [done|].
  intros x. split; [by left | intros [H|H]; [exact H | by eapply HT]].
Qed.

Lemma see_ext_trans (T1 T2 T : string -> string -> Prop) (g1 g2 g3 : Graph) :
  (forall k x, T k x <-> T1 k x \/ T2 k x) ->
  see_ext T1 g1 g2 -> see_ext T2 g2 g3 -> see_ext T g1 g3.
Proof.
  intros HT H1 H2 k. specialize (H1 k). specialize (H2 k).
  destruct (g1 !! k), (g2 !! k), (g3 !! k); try done.
  destruct H1 as (P1 & C1 & N1 & S1), H2 as (P2 & C2 & N2 & S2).
  split; [congruence|]. split; [congruence|]. split; [by auto|].
  intros x. rewrite S2, S1, HT. tauto.
Qed.

Section SeeAlso.
Variable path_to_id : gmap string string.
Variable join_parent : string -> string -> string.

(** [x] is what [link] on [page] adds to the see-also list of [k]. *)
Definition link_target (page : DocumentPage) (link k x : string) : Prop :=
  page_id page = k
  /\ truthy_id (_resolve_link_path path_to_id join_parent link (page_path page))
     = Some x
  /\ x <> k.

Definition links_target (page : DocumentPage) (links : list string)
    (k x : string) : Prop :=
  exists link, In link links /\ link_target page link k x.

Definition pages_target (pages : list DocumentPage) (k x : string) : Prop :=
  exists page link,
    In page pages /\ In link (page_see_also page) /\ link_target page link k x.

Lemma add_see_also_ext (page : DocumentPage) (g : Graph) (link : string) :
  see_ext (link_target page link) g
    (add_see_also path_to_id join_parent page g link).
Proof.
  unfold add_see_also, link_target.
  destruct (truthy_id _) as [target|] eqn:Ht.
  2:{ apply see_ext_refl. by intros k e x _ (_ & ? & _). }
  destruct (String.eqb_spec target (page_id page)) as [E|Hne]; cbn [negb].
  { apply see_ext_refl. intros k e x _ (<- & [= <-] & H). done. }
  destruct (g !! page_id page) as [e|] eqn:He.
  2:{ apply see_ext_refl. intros k e x Hk (<- & _). congruence. }
  destruct (mem target (see_also e)) eqn:Hm.
  { apply mem_In in Hm. apply see_ext_refl.
    intros k e' x Hk (<- & [= <-] & _). congruence. }
  assert (Hnin : ~ In target (see_also e)) by (rewrite <- mem_In; congruence).
  intros k. destruct (decide (k = page_id page)) as [->|Hk].
  - rewrite He, lookup_insert_eq. cbn [parent children see_also].
    split; [done|]. split; [done|]. split.
    + intros Hnd. apply NoDup_app. split; [exact Hnd|].
      split; [|apply NoDup_singleton].
      intros x Hx Hx'. apply list_elem_of_In in Hx.
      apply list_elem_of_In in Hx' as [<-|[]]. done.
    + intros x. rewrite in_app_iff. cbn [In]. split.
      * intros [H|[<-|[]]]; [by left | by right].
      * intros [H|(_ & [= <-] & _)]; [by left | right; by left].
  - rewrite lookup_insert_ne by done. destruct (g !! k); [|done].
    split; [done|]. split; [done|]. split; [done|].
    intros x. split; [by left | intros [H|(E & _)]; [exact H | congruence]].
Qed.

Lemma add_see_also_fold_ext (page : DocumentPage) (links : list string) :
  forall g,
    see_ext (links_target page links) g
      (fold_left (add_see_also path_to_id join_parent page) links g).
Proof.
  induction links as [|l links IH]; intros g; cbn [fold_left].
  - apply see_ext_refl. by intros k e x _ (link & [] & _).
  - eapply see_ext_trans; [|apply add_see_also_ext | apply IH].
    intros k x. unfold links_target. split.
    + intros (link & [<-|Hin] & H); [by left | right; by exists link].
    + intros [H|(link & Hin & H)];
        [exists l; split; [by left | exact H]
        |exists link; split; [by right | exact H]].
Qed.

Lemma add_see_also_relationships_ext (pages : list DocumentPage) :
  forall g,
    see_ext (pages_target pages) g
      (_add_see_also_relationships path_to_id join_parent pages g).
Proof.
  unfold _add_see_also_relationships.
  induction pages as [|page pages IH]; intros g; cbn [fold_left].
  - apply see_ext_refl. by intros k e x _ (p & l & [] & _).
  - eapply (see_ext_trans (links_target page (page_see_also page)));
      [| |apply IH].
    + intros k x. unfold pages_target, links_target. split.
      * intros (p & l & [<-|Hin] & Hl & H);
          [left; by exists l | right; by exists p, l].
      * intros [(l & Hl & H)|(p & l & Hin & Hl & H)];
          [exists page, l; split; [by left | done]
          |exists p, l; split; [by right | done]].
    + destruct (g !! page_id page) eqn:He; [apply add_see_also_fold_ext|].
      apply see_ext_refl.
      intros k e x Hk (l & _ & <- & _). congruence.
Qed.

Lemma resolve_link_path_indexed (link current target : string) :
  _resolve_link_path path_to_id join_parent link current = Some target ->
  exists path, path_to_id !! path = Some target.
Proof.
  unfold _resolve_link_path, try_extension.
  repeat
    match goal with
    | |- context [path_to_id !! ?p] =>
        let E := fresh "E" in
        destruct (path_to_id !! p) eqn:E;
        [intros [= <-]; by eexists|]
    | |- context [negb ?b] => destruct b; cbn [negb]
    end; done.
Qed.

End SeeAlso.

(** ** No id is listed twice *)

Definition children_distinct (g : Graph) : Prop :=
  forall k e, g !! k = Some e -> NoDup (children e).

Lemma set_parent_distinct (p c : string) (g g' : Graph) :
  children_distinct g -> set_parent p c g = Some g' -> children_distinct g'.
Proof.
  intros Hg. unfold set_parent.
  destruct (g !! c) as [ec|] eqn:Hc; [|by intros [= <-]].
  set (g1 := <[c := _]> g).
  assert (H1 : children_distinct g1).
  { intros k e. unfold g1. destruct (decide (c = k)) as [<-|Hne].
    - rewrite lookup_insert_eq. intros [= <-]. cbn [children].
      by apply (Hg c ec).
    - rewrite lookup_insert_ne by done. apply Hg. }
  destruct (g1 !! p) as [pe|] eqn:Hp; [|done].
  destruct (mem c (children pe)) eqn:Hm; intros [= <-]; [exact H1|].
  assert (Hnin : ~ In c (children pe)) by (rewrite <- mem_In; congruence).
  intros k e. destruct (decide (p = k)) as [<-|Hne].
  - rewrite lookup_insert_eq. intros [= <-]. cbn [children].
    apply NoDup_app. split; [by apply (H1 p)|].
    split; [|apply NoDup_singleton].
    intros x Hx Hx'. apply list_elem_of_In in Hx.
    apply list_elem_of_In in Hx' as [<-|[]]. done.
  - rewrite lookup_insert_ne by done. apply H1.
Qed.

Lemma apply_edges_distinct (es : list (string * string)) :
  forall g g',
    children_distinct g -> apply_edges es g = Some g' -> children_distinct g'.
Proof.
  induction es as [|[p c] es IH]; intros g g' Hg; cbn [apply_edges].
  - by intros [= <-].
  - destruct (set_parent p c g) as [g1|] eqn:E; [|done].
    apply IH. by eapply set_parent_distinct.
Qed.

(** ** [build_graph], with the see-also pass exact *)

Lemma build_graph_ext (join_parent : string -> string -> string)
    (toc : list TOCTreeNode) (pages : list DocumentPage) :
  exists g1 g,
    build_graph join_parent toc pages = Some g
    /\ toc_rel (flat_map (fun n => toc_edges (fst (index_pages pages)) None n) toc)
         (snd (index_pages pages)) g1
    /\ children_distinct g1
    /\ see_ext (pages_target (fst (index_pages pages)) join_parent pages) g1 g.
Proof.
  unfold build_graph.
  pose proof (index_pages_indexed pages) as [Hidx Hnew].
  destruct (index_pages pages) as [idx g0]; cbn [fst snd] in *.
  rewrite add_toc_relationships_edges.
  destruct (apply_edges_rel (flat_map (fun n => toc_edges idx None n) toc) g0)
    as (g1 & E & R1).
  { intros p c Hin. apply in_flat_map in Hin as (n & _ & Hin).
    apply toc_edges_indexed in Hin as [[pp Hp] [pc Hc]]; [|done].
    split; by eapply Hidx. }
  rewrite E.
  exists g1, (_add_see_also_relationships idx join_parent pages g1).
  split; [done|]. split; [done|]. split.
  - eapply apply_edges_distinct; [|exact E].
    intros k e He. rewrite (Hnew k e He). constructor.
  - apply add_see_also_relationships_ext.
Qed.

(** What [build_graph] starts from and arrives at, for one key. *)
Lemma build_graph_at (join_parent : string -> string -> string)
    (toc : list TOCTreeNode) (pages : list DocumentPage) :
  let idx := fst (index_pages pages) in
  let es := flat_map (fun n => toc_edges idx None n) toc in
  exists g,
    build_graph join_parent toc pages = Some g
    /\ (forall k, is_Some (g !! k)
                  <-> exists page, In page pages /\ page_id page = k)
    /\ forall k e, g !! k = Some e ->
         parent e = last_parent k es None
         /\ (forall x, In x (children e) <-> In (k, x) es)
         /\ NoDup (children e)
         /\ NoDup (see_also e)
         /\ forall x, In x (see_also e)
                       <-> pages_target idx join_parent pages k x.
Proof.
  intros idx es.
  destruct (build_graph_ext join_parent toc pages)
    as (g1 & g & Hg & R1 & D1 & R2).
  fold idx in R1, R2. fold es in R1.
  pose proof (index_pages_indexed pages) as [_ Hnew].
  exists g. split; [exact Hg|]. split.
  - intros k. rewrite <- index_pages_keys.
    rewrite (toc_rel_keys_iff _ _ _ k R1).
    symmetry. by eapply see_ext_keys_iff.
  - intros k e He. specialize (R1 k). specialize (R2 k). rewrite He in R2.
    destruct (g1 !! k) as [e1|] eqn:H1; [|done].
    destruct (snd (index_pages pages) !! k) as [e0|] eqn:H0; [|done].
    apply Hnew in H0 as ->.
    destruct R1 as (S1 & P1 & C1), R2 as (P2 & C2 & N2 & S2).
    cbn [see_also parent children no_edges] in *.
    split; [by rewrite P2|]. split.
    { intros x. rewrite C2, C1. cbn [In]. tauto. }
    split; [rewrite C2; by apply (D1 k)|]. split.
    { apply N2. rewrite S1. constructor. }
    intros x. rewrite S2, S1. cbn [In]. tauto.
Qed.

Lemma last_parent_In (k p : string) (es : list (string * string))
    (d : option string) :
  last_parent k es d = Some p -> In (p, k) es \/ d = Some p.
Proof.
  revert d; induction es as [|[p' c] es IH]; intros d; [by right|].
  change (last_parent k ((p', c) :: es) d)
    with (last_parent k es (if String.eqb c k then Some p' else d)).
  intros H. apply IH in H as [H|H]; [left; by right|].
  destruct (String.eqb_spec c k) as [->|Hne]; [|by right].
  injection H as ->. left. by left.
Qed.

(** Both ends of a TOC edge are ids of pages. *)
Lemma toc_edge_pages (toc : list TOCTreeNode) (pages : list DocumentPage)
    (p c : string) :
  In (p, c) (flat_map (fun n => toc_edges (fst (index_pages pages)) None n) toc) ->
  (exists page, In page pages /\ page_id page = p)
  /\ (exists page, In page pages /\ page_id page = c).
Proof.
  intros Hin. apply in_flat_map in Hin as (n & _ & Hin).
  apply toc_edges_indexed in Hin as [[pp Hp] [pc Hc]]; [|done].
  pose proof (index_pages_indexed pages) as [Hidx _].
  split; apply index_pages_keys; by eapply Hidx.
Qed.

(** X6. [build_graph] never fails, and the keys of the graph it returns are
    exactly the ids of the pages it was given. *)
Theorem graph_keys_are_page_ids (join_parent : string -> string -> string)
    (toc : list TOCTreeNode) (pages : list DocumentPage) :
  exists g,
    build_graph join_parent toc pages = Some g
    /\ forall k, is_Some (g !! k)
                 <-> exists page, In page pages /\ page_id page = k.
Proof.
  destruct (build_graph_at join_parent toc pages) as (g & Hg & Hkeys & _).
  by exists g.
Qed.

(** X7. The see-also list of a page id holds exactly the ids that the
    outbound references of the pages with that id resolve to, the id itself
    excepted. *)
Theorem see_also_lists_resolved_references
    (join_parent : string -> string -> string)
    (toc : list TOCTreeNode) (pages : list DocumentPage) :
  exists g,
    build_graph join_parent toc pages = Some g
    /\ forall k e, g !! k = Some e ->
       forall x,
         In x (see_also e)
         <-> exists page link,
               In page pages /\ page_id page = k
               /\ In link (page_see_also page)
               /\ truthy_id
                    (_resolve_link_path (fst (index_pages pages)) join_parent
                       link (page_path page)) = Some x
               /\ x <> k.
Proof.
  destruct (build_graph_at join_parent toc pages) as (g & Hg & _ & H).
  exists g. split; [exact Hg|]. intros k e He x.
  destruct (H k e He) as (_ & _ & _ & _ & ->).
  unfold pages_target, link_target. split.
  - intros (page & link & H1 & H2 & H3 & H4 & H5). by exists page, link.
  - intros (page & link & H1 & H2 & H3 & H4 & H5). by exists page, link.
Qed.

(** X8. No id occurs twice in a children list or in a see-also list of a
    built graph. *)
Theorem lists_hold_no_duplicates (join_parent : string -> string -> string)
    (toc : list TOCTreeNode) (pages : list DocumentPage) :
  exists g,
    build_graph join_parent toc pages = Some g
    /\ forall k e, g !! k = Some e ->
         List.NoDup (children e) /\ List.NoDup (see_also e).
Proof.
  destruct (build_graph_at join_parent toc pages) as (g & Hg & _ & H).
  exists g. split; [exact Hg|]. intros k e He.
  destruct (H k e He) as (_ & _ & N1 & N2 & _).
  split; by apply NoDup_ListNoDup.
Qed.

(** X9. A built graph refers to its own pages only: the parent, the
    children and the see-also entries of every record are keys of the
    graph, and a page that has a parent is among that parent's children. *)
Theorem references_stay_in_graph (join_parent : string -> string -> string)
    (toc : list TOCTreeNode) (pages : list DocumentPage) :
  exists g,
    build_graph join_parent toc pages = Some g
    /\ forall k e, g !! k = Some e ->
         (forall p, parent e = Some p ->
            exists pe, g !! p = Some pe /\ In k (children pe))
         /\ (forall c, In c (children e) -> is_Some (g !! c))
         /\ (forall x, In x (see_also e) -> is_Some (g !! x)).
Proof.
  destruct (build_graph_at join_parent toc pages) as (g & Hg & Hkeys & H).
  exists g. split; [exact Hg|]. intros k e He.
  destruct (H k e He) as (P & C & _ & _ & S). split; [|split].
  - intros p Hp. rewrite P in Hp.
    apply last_parent_In in Hp as [Hp|Hp]; [|done].
    destruct (proj1 (toc_edge_pages _ _ _ _ Hp)) as (page & Hin & E).
    destruct (proj2 (Hkeys p)) as [pe Hpe]; [by exists page|].
    exists pe. split; [exact Hpe|].
    destruct (H p pe Hpe) as (_ & Cp & _). by apply Cp.
  - intros c Hc. apply C in Hc. apply Hkeys.
    exact (proj2 (toc_edge_pages _ _ _ _ Hc)).
  - intros x Hx. apply S in Hx as (page & link & _ & _ & _ & Hx & _).
    apply truthy_id_Some in Hx as [Hx _].
    apply resolve_link_path_indexed in Hx as [path Hx].
    pose proof (index_pages_indexed pages) as [Hidx _].
    apply Hkeys, index_pages_keys. by eapply Hidx.
Qed.

Definition guide_pages : list DocumentPage :=
  [ make_page "arxmgd_guide_html" "guide.html" ["guide/arc"; "guide/arc.html"];
    make_page "arxmgd_guide_arc_html" "guide/arc.html" ["line"; "missing"];
    make_page "arxmgd_guide_line_html" "guide/line.html" ["../guide.html"] ].

Definition guide_toc : list TOCTreeNode :=
  [ TOCNode "Guide" "guide.html"
      [ TOCNode "Shapes" ""
          [ TOCNode "Arc" "guide/arc.html" [];
            TOCNode "Line" "guide/line.html" [];
            TOCNode "Arc again" "guide/arc.html" [] ] ] ].

Example guide_graph :
  build_graph PosixPath.join_parent guide_toc guide_pages
  = Some (list_to_map
            [ ("arxmgd_guide_html",
               {| parent := None;
                  children := ["arxmgd_guide_arc_html"; "arxmgd_guide_line_html"];
                  see_also := ["arxmgd_guide_arc_html"] |});
              ("arxmgd_guide_arc_html",
               {| parent := Some "arxmgd_guide_html"; children := [];
                  see_also := ["arxmgd_guide_line_html"] |});
              ("arxmgd_guide_line_html",
               {| parent := Some "arxmgd_guide_html"; children := [];
                  see_also := [] |}) ]).
Proof. vm_compute. reflexivity. Qed.

End LinkGraphExtra.

(* ===================================================================== *)
(** * Hybrid index: what a search returns, and fetching chunks by id *)
(* ===================================================================== *)

Module IndexerExtra.
Import Indexer.

Lemma StronglySorted_sublist {A : Type} (R : A -> A -> Prop) (l1 l2 : list A) :
  sublist l1 l2 -> StronglySorted R l2 -> StronglySorted R l1.
Proof.
  induction 1 as [|x l1 l2 Hsub IH|x l1 l2 Hsub IH]; intros Hs.
  - constructor.
  - apply StronglySorted_inv in Hs as [Hs Hx]. constructor; [by apply IH|].
    rewrite List.Forall_forall in *. intros y Hy. apply Hx.
    apply list_elem_of_In. eapply elem_of_sublist; [|exact Hsub].
    by apply list_elem_of_In.
  - apply StronglySorted_inv in Hs as [Hs _]. by apply IH.
Qed.

Lemma omap_sublist {A B C : Type} (f : A -> option B) (g : B -> C)
    (h : A -> C) (l : list A) :
  (forall a b, f a = Some b -> g b = h a) ->
  sublist (map g (omap f l)) (map h l).
Proof.
  intros Hf. induction l as [|a l IH]; cbn [omap list_omap map]; [constructor|].
  destruct (f a) as [b|] eqn:E; cbn [map].
  - rewrite (Hf a b E). by constructor.
  - by constructor.
Qed.

Lemma slice_to_sublist {A : Type} (k : Z) (l : list A) :
  sublist (slice_to k l) l.
Proof. unfold slice_to. destruct (k <? 0); apply sublist_take. Qed.

Lemma slice_to_length {A : Type} (k : Z) (l : list A) :
  0 <= k -> Z.of_nat (length (slice_to k l)) <= k.
Proof.
  intros Hk. unfold slice_to.
  destruct (Z.ltb_spec k 0) as [|_]; [lia|]. rewrite length_take. lia.
Qed.

(** ** The metadata dict after [_store_metadata] *)

Section Store.

Abbreviation store_step :=
  (fun (d : PyDict.t (DocumentChunk * Z)) (e : Z * DocumentChunk) =>
     PyDict.set (chunk_id (snd e)) (snd e, fst e) d).

Lemma store_fold_get (chunks : list DocumentChunk) :
  forall i d cid c j,
    PyDict.get cid (fold_left store_step (enumerate_from i chunks) d)
    = Some (c, j) ->
    (In c chunks /\ chunk_id c = cid) \/ PyDict.get cid d = Some (c, j).
Proof.
  induction chunks as [|c0 chunks IH]; intros i d cid c j;
    cbn [enumerate_from fold_left fst snd]; [by right|].
  intros H. apply IH in H as [[Hin E]|H]; [left; split; [by right | exact E]|].
  destruct (decide (chunk_id c0 = cid)) as [E|Hne].
  - subst cid. rewrite PyDictFacts.get_set_eq in H. injection H as <- _.
    left. split; [by left | done].
  - rewrite PyDictFacts.get_set_ne in H by done. by right.
Qed.

Lemma store_fold_keeps (chunks : list DocumentChunk) :
  forall i d cid,
    is_Some (PyDict.get cid d) ->
    is_Some (PyDict.get cid (fold_left store_step (enumerate_from i chunks) d)).
Proof.
  induction chunks as [|c0 chunks IH]; intros i d cid H;
    cbn [enumerate_from fold_left fst snd]; [exact H|].
  apply IH. destruct (decide (chunk_id c0 = cid)) as [E|Hne].
  - subst cid. rewrite PyDictFacts.get_set_eq. by eexists.
  - by rewrite PyDictFacts.get_set_ne.
Qed.

Lemma store_fold_stays (chunks : list DocumentChunk) :
  forall i d cid,
    ~ In cid (map chunk_id chunks) ->
    PyDict.get cid (fold_left store_step (enumerate_from i chunks) d)
    = PyDict.get cid d.
Proof.
  induction chunks as [|c0 chunks IH]; intros i d cid Hnin;
    cbn [enumerate_from fold_left fst snd]; [done|].
  cbn [map In] in Hnin.
  rewrite IH by tauto. apply PyDictFacts.get_set_ne. tauto.
Qed.

Lemma store_fold_finds (chunks : list DocumentChunk) :
  forall i d c,
    In c chunks ->
    is_Some (PyDict.get (chunk_id c)
               (fold_left store_step (enumerate_from i chunks) d)).
Proof.
  induction chunks as [|c0 chunks IH]; intros i d c;
    cbn [enumerate_from fold_left fst snd]; [done|].
  intros [->|Hin]; [|by apply IH].
  apply store_fold_keeps. rewrite PyDictFacts.get_set_eq. by eexists.
Qed.

Lemma store_fold_distinct (chunks : list DocumentChunk) :
  forall i d c,
    List.NoDup (map chunk_id chunks) -> In c chunks ->
    exists j,
      PyDict.get (chunk_id c)
        (fold_left store_step (enumerate_from i chunks) d) = Some (c, j).
Proof.
  induction chunks as [|c0 chunks IH]; intros i d c Hnd;
    cbn [enumerate_from fold_left fst snd]; [done|].
  cbn [map] in Hnd. apply List.NoDup_cons_iff in Hnd as [Hc0 Hnd].
  intros [->|Hin]; [|by apply IH].
  exists i. rewrite store_fold_stays by done.
  apply PyDictFacts.get_set_eq.
Qed.

End Store.

Section WithLibraries.
Variables (Vector Score BM25 : Type).
Variable encode : string -> Vector.
Variable faiss_search : list Vector -> Vector -> Z -> list (Score * Z).
Variable bm25_okapi : list (list string) -> BM25.
Variable get_scores : BM25 -> list string -> list Score.
Variable score_ltb : Score -> Score -> bool.
Variable set_iter : list string -> list string.

Abbreviation State := (Indexer.State Vector BM25).
Abbreviation Files := (Indexer.Files Vector BM25).
Abbreviation build_index := (Indexer.build_index Vector BM25 encode bm25_okapi).
Abbreviation search :=
  (Indexer.search Vector Score BM25 encode faiss_search get_scores score_ltb
     set_iter).
Abbreviation get_chunk_by_id := (Indexer.get_chunk_by_id Vector BM25).

Lemma build_index_metadata (self built : State) (files : Files)
    (chunks : list DocumentChunk)
    (am : option (PyDict.t Chunker.AnchorEntry)) :
  build_index self chunks am = Ok (built, files) ->
  chunk_metadata _ _ built = _store_metadata chunks.
Proof.
  unfold Indexer.build_index. destruct chunks as [|c chunks]; [done|].
  cbn [_save_indices faiss_index]. by intros [= <- _].
Qed.

(** The fused list holds no chunk id twice, whatever the set order. *)
Lemma fusion_ids_distinct {S : Type} (dense lexical : list (string * S))
    (k : Z) :
  NoDup (map fst (_reciprocal_rank_fusion set_iter dense lexical k)).
Proof.
  unfold _reciprocal_rank_fusion.
  rewrite SortedFacts.sorted_reverse_perm.
  match goal with
  | |- NoDup (map fst (fold_left ?f ?l [])) =>
      assert (G : forall d, NoDup (PyDict.keys d) ->
                NoDup (PyDict.keys (fold_left f l d)))
  end.
  { induction (set_iter _) as [|c cs IH]; intros d Hd; cbn [fold_left];
      [exact Hd|].
    apply IH. by apply PyDictFacts.set_keys_NoDup. }
  apply G. constructor.
Qed.

(** The fused list is in descending order of score. *)
Lemma fusion_descending {S : Type} (dense lexical : list (string * S)) (k : Z) :
  StronglySorted (fun a b : string * Q => (snd b <= snd a)%Q)
    (_reciprocal_rank_fusion set_iter dense lexical k).
Proof.
  unfold _reciprocal_rank_fusion.
  eapply SortedFacts.StronglySorted_weaken;
    [|apply (SortedFacts.sorted_reverse_sorted FusionFacts.score_lt);
      [apply FusionFacts.score_lt_asym | apply FusionFacts.score_lt_negtrans]].
  intros a b. unfold SortedFacts.ge, FusionFacts.score_lt.
  by rewrite FusionFacts.Qlt_bool_false.
Qed.

(** X10. [search] returns a list only for [k > 0], since the FAISS binding
    asserts as much of the [2 * k] it is asked for; the list holds at most
    [k] results, in descending order of score. *)
Theorem search_results_bounded_and_sorted (self : State) (query : string)
    (k : Z) (results : list SearchResult) :
  search self query k = Ok results ->
  0 < k
  /\ Z.of_nat (length results) <= k
  /\ StronglySorted (fun a b => (sr_score b <= sr_score a)%Q) results.
Proof.
  unfold Indexer.search.
  destruct (faiss_index _ _ self) as [vectors|]; [|done].
  destruct (bm25_index _ _ self) as [bm25|]; [|done].
  destruct (_faiss_search _ _ _ _ _ self vectors query (k * 2))
    as [hits|e] eqn:Ehits; [|done].
  assert (Hpos : 0 < k).
  { unfold _faiss_search in Ehits.
    destruct (Z.gtb_spec (k * 2) 0); [lia | done]. }
  assert (Hk : 0 <= k) by lia.
  intros [= <-]. split; [exact Hpos|].
  set (fused := _reciprocal_rank_fusion _ _ _ _).
  assert (Hsub : sublist (map sr_score (to_results _ _ self query (slice_to k fused)))
                   (map snd (slice_to k fused))).
  { unfold to_results. apply omap_sublist. intros [c s] r. cbn [fst snd].
    destruct (PyDict.get c _) as [[chunk i]|]; [|done]. by intros [= <-]. }
  split.
  - apply sublist_length in Hsub. rewrite !length_map in Hsub.
    pose proof (slice_to_length k fused Hk). lia.
  - assert (Hs : StronglySorted (fun a b : Q => (b <= a)%Q)
                   (map sr_score (to_results _ _ self query (slice_to k fused)))).
    { eapply StronglySorted_sublist; [exact Hsub|].
      eapply (TieFacts.StronglySorted_map
                (fun a b : string * Q => (snd b <= snd a)%Q)); [by intros a b H|].
      eapply StronglySorted_sublist; [apply slice_to_sublist|].
      apply fusion_descending. }
    revert Hs. generalize (to_results _ _ self query (slice_to k fused)).
    induction l as [|r l IH]; cbn [map]; intros Hs; [constructor|].
    apply StronglySorted_inv in Hs as [Hs Hr]. constructor; [by apply IH|].
    rewrite List.Forall_forall in *. intros r' Hr'. apply Hr.
    by apply in_map.
Qed.

(** X11. After [build_index], [get_chunk_by_id] finds a chunk under every
    id that occurs among the indexed chunks and under no other id; the chunk
    it returns is one of the indexed chunks with that id, and with distinct
    ids it returns each chunk under its own id. *)
Theorem get_chunk_by_id_after_build (self built : State) (files : Files)
    (chunks : list DocumentChunk)
    (am : option (PyDict.t Chunker.AnchorEntry)) :
  build_index self chunks am = Ok (built, files) ->
  (forall cid c, get_chunk_by_id built cid = Some c ->
     In c chunks /\ chunk_id c = cid)
  /\ (forall cid, is_Some (get_chunk_by_id built cid)
                  <-> In cid (map chunk_id chunks))
  /\ (List.NoDup (map chunk_id chunks) ->
      forall c, In c chunks -> get_chunk_by_id built (chunk_id c) = Some c).
Proof.
  intros Hb. apply build_index_metadata in Hb.
  unfold Indexer.get_chunk_by_id. rewrite Hb.
  unfold _store_metadata, enumerate.
  assert (H1 : forall cid c,
    option_map fst
      (PyDict.get cid
         (fold_left
            (fun d (e : Z * DocumentChunk) =>
               PyDict.set (chunk_id (snd e)) (snd e, fst e) d)
            (enumerate_from 0 chunks) [])) = Some c ->
    In c chunks /\ chunk_id c = cid).
  { intros cid c H.
    destruct (PyDict.get cid _) as [[c' j]|] eqn:E; [|done].
    injection H as ->. by apply store_fold_get in E as [E|E]. }
  split; [exact H1|]. split.
  - intros cid. split.
    + intros [c Hc]. apply H1 in Hc as [Hin <-]. by apply in_map.
    + intros Hin. apply in_map_iff in Hin as (c & <- & Hin).
      destruct (store_fold_finds chunks 0 [] c Hin) as [v Hv].
      rewrite Hv. by eexists.
  - intros Hnd c Hin.
    destruct (store_fold_distinct chunks 0 [] c Hnd Hin) as [j ->]. done.
Qed.

(** X12. On an index left by [build_index], every search result can be
    fetched: [get_chunk_by_id] on the result's id returns an indexed chunk
    with that id, and the result's title, path and chunk index are that
    chunk's; and no chunk id occurs twice among the results. *)
Theorem search_results_can_be_fetched (self built : State) (files : Files)
    (chunks : list DocumentChunk)
    (am : option (PyDict.t Chunker.AnchorEntry))
    (query : string) (k : Z) (results : list SearchResult) :
  build_index self chunks am = Ok (built, files) ->
  search built query k = Ok results ->
  NoDup (map sr_id results)
  /\ forall r, In r results ->
       exists c,
         get_chunk_by_id built (sr_id r) = Some c
         /\ In c chunks
         /\ chunk_id c = sr_id r
         /\ chunk_title c = sr_title r
         /\ chunk_path c = sr_path r
         /\ Some (chunk_index c) = sr_chunk_index r.
Proof.
  intros Hb. pose proof (build_index_metadata _ _ _ _ _ Hb) as Hmd.
  unfold Indexer.search.
  destruct (faiss_index _ _ built) as [vectors|]; [|done].
  destruct (bm25_index _ _ built) as [bm25|]; [|done].
  destruct (_faiss_search _ _ _ _ _ built vectors query (k * 2))
    as [hits|e]; [|done].
  intros [= <-].
  set (fused := _reciprocal_rank_fusion _ _ _ _).
  assert (Hkeyed : forall cid c i,
            PyDict.get cid (chunk_metadata _ _ built) = Some (c, i) ->
            In c chunks /\ chunk_id c = cid).
  { rewrite Hmd. intros cid c i H. unfold _store_metadata, enumerate in H.
    by apply store_fold_get in H as [H|H]. }
  split.
  - assert (Hsub : sublist (map sr_id (to_results _ _ built query (slice_to k fused)))
                     (map fst (slice_to k fused))).
    { unfold to_results. apply omap_sublist. intros [c s] r. cbn [fst snd].
      destruct (PyDict.get c _) as [[chunk i]|] eqn:E; [|done].
      intros [= <-]. cbn [sr_id]. by apply Hkeyed in E as [_ E]. }
    eapply sublist_NoDup; [|exact Hsub].
    eapply sublist_NoDup; [|apply (fmap_sublist fst), slice_to_sublist].
    apply fusion_ids_distinct.
  - intros r Hr. unfold to_results in Hr.
    apply list_elem_of_In, list_elem_of_omap in Hr as ([cid s] & _ & Hr).
    cbn [fst snd] in Hr.
    destruct (PyDict.get cid _) as [[chunk i]|] eqn:E; [|done].
    injection Hr as <-. cbn [sr_id sr_title sr_path sr_chunk_index].
    destruct (Hkeyed _ _ _ E) as [Hin Hid].
    exists chunk. unfold Indexer.get_chunk_by_id. rewrite Hid, E.
    by rewrite <- Hid.
Qed.

End WithLibraries.

Definition toy_built : Toy.State :=
  match Toy.build_index Toy.init Toy.two_chunks None with
  | Ok (built, _) => built
  | Raise _ => Toy.init
  end.

Definition toy_files : Toy.Files :=
  match Toy.build_index Toy.init Toy.two_chunks None with
  | Ok (_, files) => files
  | Raise _ => no_files _ _
  end.

Definition toy_results : list SearchResult :=
  match Toy.search FusionFacts.insertion_order toy_built "arc" 2 with
  | Ok results => results
  | Raise _ => []
  end.

Example toy_results_ids :
  map sr_id toy_results
  = ["arxmgd_arc_html_chunk_0"; "arxmgd_arc_html_chunk_1"].
Proof. vm_compute. reflexivity. Qed.

Lemma search_results_bounded_and_sorted_witness :
  0 < 2
  /\ Z.of_nat (length toy_results) <= 2
  /\ StronglySorted (fun a b => (sr_score b <= sr_score a)%Q) toy_results.
Proof.
  apply (search_results_bounded_and_sorted Z Q (list (list string))
           Toy.encode Toy.faiss_search Toy.get_scores Qlt_bool
           FusionFacts.insertion_order toy_built "arc" 2 toy_results).
  vm_compute. reflexivity.
Defined.

(** For [k = 0] the indices are asked for [0] candidates, and the search
    fails in the FAISS binding. *)
Example search_zero_raises :
  Toy.search FusionFacts.insertion_order toy_built "arc" 0
  = Raise (AssertionError "k > 0").
Proof. vm_compute. reflexivity. Qed.

Lemma get_chunk_by_id_after_build_witness :
  (forall cid c,
     Indexer.get_chunk_by_id Z (list (list string)) toy_built cid = Some c ->
     In c Toy.two_chunks /\ chunk_id c = cid)
  /\ (forall cid,
        is_Some (Indexer.get_chunk_by_id Z (list (list string)) toy_built cid)
        <-> In cid (map chunk_id Toy.two_chunks))
  /\ (List.NoDup (map chunk_id Toy.two_chunks) ->
      forall c, In c Toy.two_chunks ->
        Indexer.get_chunk_by_id Z (list (list string)) toy_built (chunk_id c)
        = Some c).
Proof.
  apply (get_chunk_by_id_after_build Z (list (list string)) Toy.encode
           Toy.bm25_okapi Toy.init toy_built toy_files Toy.two_chunks None).
  vm_compute. reflexivity.
Defined.

Lemma search_results_can_be_fetched_witness :
  NoDup (map sr_id toy_results)
  /\ forall r, In r toy_results ->
       exists c,
         Indexer.get_chunk_by_id Z (list (list string)) toy_built (sr_id r)
         = Some c
         /\ In c Toy.two_chunks
         /\ chunk_id c = sr_id r
         /\ chunk_title c = sr_title r
         /\ chunk_path c = sr_path r
         /\ Some (chunk_index c) = sr_chunk_index r.
Proof.
  apply (search_results_can_be_fetched Z Q (list (list string)) Toy.encode
           Toy.faiss_search Toy.bm25_okapi Toy.get_scores Qlt_bool
           FusionFacts.insertion_order Toy.init toy_built toy_files
           Toy.two_chunks None "arc" 2 toy_results).
  - vm_compute. reflexivity.
  - vm_compute. reflexivity.
Defined.

(** ** Snippets *)

Lemma substring_length_le (n m : nat) (s : string) :
  (String.length (String.substring n m s) <= m)%nat.
Proof.
  revert n m; induction s as [|c s IH]; intros [|n] [|m]; cbn; try lia.
  - specialize (IH 0%nat m). lia.
  - apply (IH n 0%nat).
  - apply (IH n (S m)).
Qed.

Lemma len_slice (a b : Z) (s : string) :
  PyStr.len (PyStr.slice a b s) <= Z.max 0 (b - a).
Proof.
  unfold PyStr.len, PyStr.slice.
  pose proof (substring_length_le (Z.to_nat a) (Z.to_nat (b - a)) s). lia.
Qed.

(** X13. For content and query of code points below 256, on which
    [lower] keeps every length, and [max_length >= 0], a snippet is at most
    [max_length + len(query) + 6] characters long: the window around the
    match and the two ellipses; when the lower-cased query does not occur
    in the lower-cased content it is at most [max_length + 3] characters
    long. *)
Theorem snippet_length_bounded (text query : string) (max_length : Z) :
  0 <= max_length ->
  PyStr.len (_create_snippet text query max_length)
  <= max_length + PyStr.len query + 6
  /\ (PyStr.find (PyStr.lower query) (PyStr.lower text) = -1 ->
      PyStr.len (_create_snippet text query max_length) <= max_length + 3).
Proof.
  intros Hm. unfold _create_snippet.
  assert (Hq : 0 <= PyStr.len query) by (unfold PyStr.len; lia).
  set (pos := PyStr.find (PyStr.lower query) (PyStr.lower text)).
  pose proof (Z.mul_div_le max_length 2 ltac:(lia)) as Hhalf.
  assert (Hnone : PyStr.len
            (if PyStr.len text >? max_length
             then PyStr.slice 0 max_length text +:+ "..."
             else text) <= max_length + 3).
  { destruct (Z.gtb_spec (PyStr.len text) max_length) as [Hgt|Hle]; [|lia].
    rewrite ChunkerExtra.len_append. change (PyStr.len "...") with 3.
    pose proof (len_slice 0 max_length text). lia. }
  destruct (Z.eqb_spec pos (-1)) as [E|Hne].
  - split; [lia | done].
  - split; [|done].
    set (start_pos := Z.max 0 (pos - max_length / 2)).
    set (end_pos :=
           Z.min (PyStr.len text) (pos + PyStr.len query + max_length / 2)).
    pose proof (len_slice start_pos end_pos text) as Hs.
    assert (Hw : Z.max 0 (end_pos - start_pos) <= max_length + PyStr.len query)
      by (unfold start_pos, end_pos; lia).
    destruct (start_pos >? 0), (end_pos <? PyStr.len text);
      rewrite ?ChunkerExtra.len_append; change (PyStr.len "...") with 3; lia.
Qed.

Lemma snippet_length_bounded_witness :
  PyStr.len (_create_snippet "Creates an arc from three points" "ARC" 8)
  <= 8 + PyStr.len "ARC" + 6
  /\ (PyStr.find (PyStr.lower "ARC")
        (PyStr.lower "Creates an arc from three points") = -1 ->
      PyStr.len (_create_snippet "Creates an arc from three points" "ARC" 8)
      <= 8 + 3).
Proof.
  apply (snippet_length_bounded "Creates an arc from three points" "ARC" 8).
  lia.
Defined.

Example snippet_around_match :
  _create_snippet "Creates an arc from three points" "ARC" 8
  = "... an arc fro...".
Proof. vm_compute. reflexivity. Qed.

(** The match is found through [lower], which folds the accented capitals
    of Latin-1 as well: U+00C9 in the content meets U+00E9 in the query. *)
Definition cafe_content : string :=
  "abcdefghij CAF" +:+ String (ascii_of_N 201) " klmnopqrst".

Definition cafe_query : string := "caf" +:+ String (ascii_of_N 233) "".

Example snippet_accented_match :
  PyStr.find (PyStr.lower cafe_query) (PyStr.lower cafe_content) = 11
  /\ PyStr.len (_create_snippet cafe_content cafe_query 4) = 14.
Proof. vm_compute. split; reflexivity. Qed.

End IndexerExtra.

(* ===================================================================== *)
(** * Ingestion: the pipeline from pages to graph and index *)
(* ===================================================================== *)

Module IngestExtra.
Import Chunker.

(** ** The anchor map of the chunker *)

Lemma fold_set_get {A V : Type} (kf : A -> string) (vf : A -> V)
    (l : list A) :
  forall (d : PyDict.t V) key v,
    PyDict.get key (fold_left (fun d a => PyDict.set (kf a) (vf a) d) l d)
    = Some v ->
    PyDict.get key d = Some v \/ exists a, In a l /\ v = vf a.
Proof.
  induction l as [|a l IH]; intros d key v; cbn [fold_left]; [by left|].
  intros H. apply IH in H as [H|(a' & Hin & E)].
  - destruct (decide (kf a = key)) as [E|Hne].
    + subst key. rewrite PyDictFacts.get_set_eq in H. injection H as <-.
      right. exists a. split; [by left | done].
    + rewrite PyDictFacts.get_set_ne in H by done. by left.
  - right. exists a'. split; [by right | done].
Qed.

(** The anchor entry was written for the chunk: it names the chunk, repeats
    its offsets, and its own offset is a position in the chunk's markup. *)
Definition describes (entry : AnchorEntry) (c : DocumentChunk) : Prop :=
  anchor_chunk_id entry = chunk_id c
  /\ anchor_start_offset entry = start_offset c
  /\ anchor_end_offset entry = end_offset c
  /\ 0 <= anchor_offset entry <= PyStr.len (html_content c).

(** Every entry of [am] was in [am0] already or describes a chunk of
    [cs]. *)
Definition anchored (cs : list DocumentChunk) (am0 am : PyDict.t AnchorEntry)
    : Prop :=
  forall key entry,
    PyDict.get key am = Some entry ->
    PyDict.get key am0 = Some entry
    \/ exists c, In c cs /\ describes entry c.

Lemma find_from_bounds (sub s : string) :
  forall i r, PyStr.find_from i sub s = r ->
              r = -1 \/ i <= r <= i + PyStr.len s.
Proof.
  induction s as [|c s IH]; intros i r; cbn [PyStr.find_from].
  - destruct (String.prefix sub ""); intros <-; [right | by left].
    unfold PyStr.len. cbn [String.length]. lia.
  - destruct (String.prefix sub (String c s)); intros H.
    + right. subst r. unfold PyStr.len. lia.
    + apply IH in H as [H|H]; [by left | right].
      unfold PyStr.len in *. cbn [String.length]. lia.
Qed.

Lemma set_In {V : Type} (k : string) (v : V) (d : PyDict.t V)
    (kv : string * V) :
  In kv (PyDict.set k v d) -> snd kv = v \/ In kv d.
Proof.
  induction d as [|[k' v'] d IH]; cbn [PyDict.set].
  - intros [<-|[]]. by left.
  - destruct (String.eqb k k').
    + intros [<-|H]; [by left | right; by right].
    + intros [<-|H]; [right; by left|].
      apply IH in H as [H|H]; [by left | right; by right].
Qed.

Lemma extract_chunk_anchors_offsets
    (id_elements name_elements : string -> list (string * string))
    (h : string) (start_off end_off : Z) (kv : string * Z) :
  In kv (_extract_chunk_anchors id_elements name_elements h start_off end_off) ->
  0 <= snd kv <= PyStr.len h.
Proof.
  unfold _extract_chunk_anchors.
  set (record := fun (anchors : PyDict.t Z) (e : string * string) => _).
  assert (G : forall es (d : PyDict.t Z),
    (forall kv, In kv d -> 0 <= snd kv <= PyStr.len h) ->
    forall kv, In kv (fold_left record es d) -> 0 <= snd kv <= PyStr.len h).
  { induction es as [|e es IH]; intros d Hd; cbn [fold_left]; [exact Hd|].
    apply IH. intros kv'. unfold record at 1.
    destruct (Z.eqb_spec (PyStr.find (snd e) h) (-1)) as [_|Hne]; [apply Hd|].
    intros H. apply set_In in H as [->|H]; [|by apply Hd].
    destruct (find_from_bounds (snd e) h 0 _ eq_refl) as [E|E]; [done|].
    unfold PyStr.find. lia. }
  apply G. apply G. by intros ? [].
Qed.

Section WithConfig.
Variable self : Config.
Variable id_elements : string -> list (string * string).
Variable name_elements : string -> list (string * string).
Variable page : DocumentPage.
Variable am0 : PyDict.t AnchorEntry.

Abbreviation step := (Chunker.step self id_elements name_elements page).
Abbreviation emit := (Chunker.emit id_elements name_elements page).
Abbreviation finish := (Chunker.finish self id_elements name_elements page).
Abbreviation run := (Chunker.run self id_elements name_elements page).

Definition anchored_loop (st : Loop) : Prop :=
  anchored (chunks st) am0 (anchor_map st).

Lemma anchored_emit (st : Loop) : anchored_loop st -> anchored_loop (emit st).
Proof.
  intros Hst key entry. unfold Chunker.emit, _create_chunk.
  cbn [chunks anchor_map]. intros H.
  apply fold_set_get in H as [H|(kv & Hkv & ->)].
  - apply Hst in H as [H|(c & Hin & E)]; [by left|].
    right. exists c. split; [apply in_or_app; by left | exact E].
  - right. eexists. split; [apply in_or_app; right; by left|].
    unfold describes.
    cbn [anchor_chunk_id anchor_start_offset anchor_end_offset anchor_offset
         chunk_id start_offset end_offset html_content].
    split; [done|]. split; [done|]. split; [done|].
    by eapply extract_chunk_anchors_offsets.
Qed.

Lemma anchored_step (st : Loop) (sec : string * string) :
  anchored_loop st -> anchored_loop (step st sec).
Proof.
  intros Hst. destruct sec as [t h]. unfold Chunker.step.
  destruct (closes self st t).
  - unfold anchored_loop. cbn [chunks anchor_map].
    destruct (_ >=? _); [by apply anchored_emit | exact Hst].
  - by destruct (PyStr.truthy (current_chunk_text st)).
Qed.

Lemma anchored_run (secs : list (string * string)) :
  forall st, anchored_loop st -> anchored_loop (run st secs).
Proof.
  unfold Chunker.run.
  induction secs as [|sec secs IH]; intros st Hst; cbn [fold_left].
  - unfold Chunker.finish. destruct (_ && _); [by apply anchored_emit | done].
  - apply IH. by apply anchored_step.
Qed.

End WithConfig.

(** X22. Every entry that [chunk_page] leaves in the chunker's anchor map
    was there before the call or describes a chunk the call returned: it
    names that chunk's id, repeats its start and end offsets, and its offset
    is a position in the chunk's markup, as [_extract_chunk_anchors] found
    it there. *)
Theorem anchor_entries_describe_chunks (self : Config)
    (find_all : string -> list Element)
    (id_elements name_elements : string -> list (string * string))
    (am : PyDict.t AnchorEntry) (page : DocumentPage)
    (key : string) (entry : AnchorEntry) :
  PyDict.get key
    (anchor_map
       (chunk_page_state self find_all id_elements name_elements am page))
  = Some entry ->
  PyDict.get key am = Some entry
  \/ exists c,
       In c (chunk_page self find_all id_elements name_elements am page)
       /\ anchor_chunk_id entry = chunk_id c
       /\ anchor_start_offset entry = start_offset c
       /\ anchor_end_offset entry = end_offset c
       /\ 0 <= anchor_offset entry <= PyStr.len (html_content c).
Proof.
  unfold chunk_page, chunk_page_state.
  apply (anchored_run self id_elements name_elements page am).
  intros key' entry' H. by left.
Qed.

(** ** The loop "Chunk pages" *)

Lemma set_total_chunks_In (cs : list DocumentChunk) (c' : DocumentChunk) :
  In c' (Ingest.set_total_chunks cs) ->
  exists i c,
    cs !! i = Some c
    /\ chunk_id c' = chunk_id c
    /\ chunk_page_id c' = chunk_page_id c
    /\ chunk_index c' = chunk_index c
    /\ total_chunks c' = Z.of_nat (length cs).
Proof.
  unfold Ingest.set_total_chunks. intros H.
  apply in_map_iff in H as (c & <- & Hin).
  apply list_elem_of_In, list_elem_of_lookup in Hin as [i Hi].
  by exists i, c.
Qed.

Lemma set_total_chunks_describes (cs : list DocumentChunk)
    (entry : AnchorEntry) (c : DocumentChunk) :
  In c cs -> describes entry c ->
  exists c', In c' (Ingest.set_total_chunks cs) /\ describes entry c'.
Proof.
  intros Hin Hd. eexists. split.
  - unfold Ingest.set_total_chunks. apply in_map_iff. by exists c.
  - exact Hd.
Qed.

Section Pipeline.
Variable find_all : string -> list Element.
Variable id_elements : string -> list (string * string).
Variable name_elements : string -> list (string * string).
Variable join_parent : string -> string -> string.
Variables (Vector BM25 : Type).
Variable encode : string -> Vector.
Variable bm25_okapi : list (list string) -> BM25.
Variable exists_file : string -> bool.
Variable read_toc : string -> list LinkGraph.TOCTreeNode.

Abbreviation chunk_one :=
  (Ingest.chunk_one find_all id_elements name_elements).
Abbreviation chunk_pages :=
  (Ingest.chunk_pages find_all id_elements name_elements).
Abbreviation ingest_source :=
  (Ingest.ingest_source find_all id_elements name_elements join_parent
     Vector BM25 encode bm25_okapi exists_file read_toc).

(** What ingestion makes of a chunk of [page]. *)
Definition chunk_of (page : DocumentPage) (c : DocumentChunk) : Prop :=
  chunk_page_id c = page_id page
  /\ chunk_id c = page_id page +:+ "_chunk_" +:+ pretty (chunk_index c)
  /\ 0 <= chunk_index c < total_chunks c.

Lemma chunk_one_chunks (st : PyDict.t AnchorEntry * list DocumentChunk)
    (page : DocumentPage) (c : DocumentChunk) :
  In c (snd (chunk_one st page)) -> In c (snd st) \/ chunk_of page c.
Proof.
  unfold Ingest.chunk_one. cbn [snd]. intros H.
  apply in_app_or in H as [H|H]; [by left | right].
  apply set_total_chunks_In in H as (i & c0 & Hi & E1 & E2 & E3 & E4).
  destruct (ChunkerExtra.inv_run default_config id_elements name_elements
              page (fst st) (items find_all page)) as (_ & _ & Hinv).
  destruct (Hinv i c0 Hi) as ((N1 & N2 & N3 & _) & _).
  apply lookup_lt_Some in Hi.
  unfold chunk_of. rewrite E1, E2, E3, E4, N1, N2, N3.
  split; [done|]. split; [done | lia].
Qed.

Lemma chunk_pages_chunks (pages : list DocumentPage) (c : DocumentChunk) :
  In c (snd (chunk_pages pages)) ->
  exists page, In page pages /\ chunk_of page c.
Proof.
  unfold Ingest.chunk_pages.
  assert (G : forall st,
    In c (snd (fold_left chunk_one pages st)) ->
    In c (snd st) \/ exists page, In page pages /\ chunk_of page c).
  { induction pages as [|p pages IH]; intros st; cbn [fold_left]; [by left|].
    intros H. apply IH in H as [H|(page & Hin & H)].
    - apply chunk_one_chunks in H as [H|H]; [by left|].
      right. exists p. split; [by left | exact H].
    - right. exists page. split; [by right | exact H]. }
  intros H. by apply G in H as [[]|H].
Qed.

(** Every anchor entry names a chunk of the list. *)
Definition anchors_resolve (st : PyDict.t AnchorEntry * list DocumentChunk)
    : Prop :=
  forall key entry,
    PyDict.get key (fst st) = Some entry ->
    exists c, In c (snd st) /\ describes entry c.

Lemma chunk_one_anchors (st : PyDict.t AnchorEntry * list DocumentChunk)
    (page : DocumentPage) :
  anchors_resolve st -> anchors_resolve (chunk_one st page).
Proof.
  intros Hst key entry. unfold Ingest.chunk_one. cbn [fst snd]. intros H.
  unfold chunk_page_state in *.
  apply (anchored_run default_config id_elements name_elements page (fst st))
    in H as [H|(c & Hin & E)].
  - apply Hst in H as (c & Hin & E).
    exists c. split; [apply in_or_app; by left | exact E].
  - destruct (set_total_chunks_describes _ _ _ Hin E) as (c' & Hin' & E').
    exists c'. split; [apply in_or_app; by right | exact E'].
  - intros key' entry' H'. by left.
Qed.

Lemma chunk_pages_anchors (pages : list DocumentPage) :
  anchors_resolve (chunk_pages pages).
Proof.
  unfold Ingest.chunk_pages.
  assert (G : forall st, anchors_resolve st ->
                         anchors_resolve (fold_left chunk_one pages st)).
  { induction pages as [|p pages IH]; intros st Hst; cbn [fold_left];
      [exact Hst|].
    apply IH. by apply chunk_one_anchors. }
  apply G. intros key entry H. done.
Qed.

Lemma ingest_source_ingested (root_exists : bool) (pages : list DocumentPage)
    (g : gmap string LinkGraph.Edges) (index : Indexer.State Vector BM25)
    (files : Indexer.Files Vector BM25) (n : Z) :
  ingest_source root_exists pages = Ingest.Ingested _ _ g index files n ->
  root_exists = true
  /\ LinkGraph.build_graph join_parent
       (TocParser.parse_hhc exists_file read_toc "*.hhc") pages = Some g
  /\ Indexer.build_index Vector BM25 encode bm25_okapi
       (Indexer.init Vector BM25) (snd (chunk_pages pages))
       (Some (fst (chunk_pages pages)))
     = Indexer.Ok (index, files)
  /\ n = Z.of_nat (length (snd (chunk_pages pages))).
Proof.
  unfold Ingest.ingest_source. destruct root_exists; cbn [negb]; [|done].
  destruct (LinkGraph.build_graph _ _ _) as [g'|]; [|done].
  destruct (chunk_pages pages) as [am all]. cbn [fst snd].
  destruct (Indexer.build_index _ _ _ _ _ all (Some am))
    as [[index' files']|e]; [|done].
  by intros [= <- <- <- <-].
Qed.

Lemma build_index_anchor_map (index : Indexer.State Vector BM25)
    (files : Indexer.Files Vector BM25) (chunks : list DocumentChunk)
    (am : PyDict.t AnchorEntry) :
  Indexer.build_index Vector BM25 encode bm25_okapi
    (Indexer.init Vector BM25) chunks (Some am) = Indexer.Ok (index, files) ->
  Indexer.anchor_map _ _ index = am.
Proof.
  unfold Indexer.build_index. destruct chunks as [|c chunks]; [done|].
  cbn [Indexer._save_indices Indexer.faiss_index].
  intros [= <- _]. cbn [Indexer.anchor_map]. by destruct am.
Qed.

(** X14. Every chunk handed to the indexer belongs to one of the ingested
    pages: it carries that page's id, its own id is the page id followed by
    ["_chunk_"] and its index, and its index is below its
    [total_chunks]. *)
Theorem ingested_chunks_are_counted (pages : list DocumentPage)
    (c : DocumentChunk) :
  In c (snd (chunk_pages pages)) ->
  exists page,
    In page pages
    /\ chunk_page_id c = page_id page
    /\ chunk_id c = page_id page +:+ "_chunk_" +:+ pretty (chunk_index c)
    /\ 0 <= chunk_index c < total_chunks c.
Proof. apply chunk_pages_chunks. Qed.

(** X15. The outcomes of [ingest_source]: it returns 0 early exactly when
    the extraction directory is missing; [build_graph] never raises; the
    index build raises [ValueError] exactly when no page gave a chunk;
    otherwise the count returned is the positive number of chunks, and the
    files written load back into the indexer left in memory, whose anchor
    map is the chunker's. *)
Theorem ingest_outcome (fresh : Indexer.State Vector BM25)
    (root_exists : bool) (pages : list DocumentPage) :
  match ingest_source root_exists pages with
  | Ingest.NotExtracted _ _ => root_exists = false
  | Ingest.KeyError _ _ => False
  | Ingest.Failed _ _ e =>
      root_exists = true
      /\ e = Indexer.ValueError "No chunks provided for indexing"
      /\ snd (chunk_pages pages) = []
  | Ingest.Ingested _ _ g index files n =>
      root_exists = true
      /\ LinkGraph.build_graph join_parent
           (TocParser.parse_hhc exists_file read_toc "*.hhc") pages = Some g
      /\ n = Z.of_nat (length (snd (chunk_pages pages)))
      /\ 0 < n
      /\ Indexer.load_indices Vector BM25 fresh files = Indexer.Ok index
      /\ Indexer.anchor_map _ _ index = fst (chunk_pages pages)
  end.
Proof.
  unfold Ingest.ingest_source. destruct root_exists; cbn [negb]; [|done].
  destruct (LinkGraphFacts.build_graph_rel join_parent
              (TocParser.parse_hhc exists_file read_toc "*.hhc") pages)
    as (g1 & g & -> & _).
  destruct (chunk_pages pages) as [am all]. cbn [fst snd].
  destruct (Indexer.build_index Vector BM25 encode bm25_okapi
              (Indexer.init Vector BM25) all (Some am))
    as [[index files]|e] eqn:Hb.
  - split; [done|]. split; [done|]. split; [done|].
    split; [|split].
    + unfold Indexer.build_index in Hb.
      destruct all; [done | cbn [length]; lia].
    + by eapply IndexFacts.load_after_build.
    + by eapply build_index_anchor_map.
  - unfold Indexer.build_index in Hb. destruct all as [|c all]; [|done].
    by injection Hb as <-.
Qed.

(** X16. [ingest_source] asks the TOC parser for the file named ["*.hhc"]
    as it is, without expanding the pattern; unless a file of that very name
    exists the TOC is empty, and the graph that is saved gives no page a
    parent or a child. *)
Theorem ingest_without_toc_file_is_flat (root_exists : bool)
    (pages : list DocumentPage) (g : gmap string LinkGraph.Edges)
    (index : Indexer.State Vector BM25) (files : Indexer.Files Vector BM25)
    (n : Z) :
  exists_file "*.hhc" = false ->
  ingest_source root_exists pages = Ingest.Ingested _ _ g index files n ->
  forall k e, g !! k = Some e ->
    LinkGraph.parent e = None /\ LinkGraph.children e = [].
Proof.
  intros Hfile H. apply ingest_source_ingested in H as (_ & Hg & _).
  unfold TocParser.parse_hhc in Hg. rewrite Hfile in Hg.
  destruct (LinkGraphExtra.build_graph_at join_parent [] pages)
    as (g' & Hg' & _ & Hat).
  rewrite Hg in Hg'. injection Hg' as <-.
  intros k e He. destruct (Hat k e He) as (P & C & _).
  cbn [flat_map] in P, C. split; [exact P|].
  destruct (LinkGraph.children e) as [|x xs]; [done|].
  destruct (proj1 (C x) (or_introl eq_refl)).
Qed.

(** X17. After ingestion every anchor of the indexer's anchor map leads to
    a chunk: [get_chunk_by_anchor] returns an indexed chunk whose id is the
    one the entry names. *)
Theorem ingested_anchors_resolve (root_exists : bool)
    (pages : list DocumentPage) (g : gmap string LinkGraph.Edges)
    (index : Indexer.State Vector BM25) (files : Indexer.Files Vector BM25)
    (n : Z) (pid anchor : string) (entry : AnchorEntry) :
  ingest_source root_exists pages = Ingest.Ingested _ _ g index files n ->
  PyDict.get (pid +:+ "#" +:+ anchor) (Indexer.anchor_map _ _ index)
  = Some entry ->
  exists c,
    Indexer.get_chunk_by_anchor _ _ index pid anchor = Some c
    /\ chunk_id c = anchor_chunk_id entry
    /\ In c (snd (chunk_pages pages)).
Proof.
  intros H Hentry. apply ingest_source_ingested in H as (_ & _ & Hb & _).
  pose proof (build_index_anchor_map _ _ _ _ Hb) as Ham.
  destruct (chunk_pages_anchors pages (pid +:+ "#" +:+ anchor) entry)
    as (c0 & Hin0 & E0 & _); [by rewrite <- Ham|].
  unfold Indexer.get_chunk_by_anchor. rewrite Hentry.
  unfold Indexer.get_chunk_by_id.
  apply IndexerExtra.build_index_metadata in Hb. rewrite Hb.
  unfold Indexer._store_metadata, Indexer.enumerate.
  destruct (IndexerExtra.store_fold_finds (snd (chunk_pages pages)) 0 [] c0 Hin0)
    as [[c j] Hc].
  rewrite <- E0 in Hc. rewrite Hc. exists c. split; [done|].
  by apply IndexerExtra.store_fold_get in Hc as [[Hin E]|Hc].
Qed.

End Pipeline.

(** ** A run of the pipeline *)

(** Stand-ins for BeautifulSoup and the file system: every page holds one
    heading of 251 words that carries the id [top]; the extraction
    directory holds [arxmgd.hhc], which nests the guide's pages. *)
Fixpoint words (n : nat) : string :=
  match n with
  | O => "arc"
  | S n => "arc " +:+ words n
  end.

Definition long_heading (_ : string) : list Element :=
  [ {| tag := Heading 1; text := words 250;
       html := "<h1 id=top>" +:+ words 250 +:+ "</h1>" |} ].

Definition top_anchor (h : string) : list (string * string) := [("top", h)].

Definition only_arxmgd_hhc (path : string) : bool :=
  String.eqb path "arxmgd.hhc".

Definition sample_run : Ingest.Outcome Z (list (list string)) :=
  Ingest.ingest_source long_heading top_anchor (fun _ => [])
    PosixPath.join_parent Z (list (list string)) Toy.encode Toy.bm25_okapi
    only_arxmgd_hhc (fun _ => LinkGraphExtra.guide_toc) true
    LinkGraphExtra.guide_pages.

Definition run_chunks : list DocumentChunk :=
  snd (Ingest.chunk_pages long_heading top_anchor (fun _ => [])
         LinkGraphExtra.guide_pages).

Definition run_graph : gmap string LinkGraph.Edges :=
  match sample_run with
  | Ingest.Ingested _ _ g _ _ _ => g
  | _ => ∅
  end.

Definition run_index : Toy.State :=
  match sample_run with
  | Ingest.Ingested _ _ _ index _ _ => index
  | _ => Toy.init
  end.

Definition run_files : Toy.Files :=
  match sample_run with
  | Ingest.Ingested _ _ _ _ files _ => files
  | _ => Indexer.no_files _ _
  end.

Definition run_count : Z :=
  match sample_run with
  | Ingest.Ingested _ _ _ _ _ n => n
  | _ => 0
  end.

Example sample_run_chunks :
  run_count = 3
  /\ map (fun c => (chunk_id c, chunk_index c, total_chunks c)) run_chunks
     = [ ("arxmgd_guide_html_chunk_0", 0, 1);
         ("arxmgd_guide_arc_html_chunk_0", 0, 1);
         ("arxmgd_guide_line_html_chunk_0", 0, 1) ].
Proof. vm_compute. split; reflexivity. Qed.

Lemma ingested_chunks_are_counted_witness :
  exists c,
    run_chunks !! 1%nat = Some c
    /\ exists page,
         In page LinkGraphExtra.guide_pages
         /\ chunk_page_id c = page_id page
         /\ chunk_id c = page_id page +:+ "_chunk_" +:+ pretty (chunk_index c)
         /\ 0 <= chunk_index c < total_chunks c.
Proof.
  eexists. split; [vm_compute; reflexivity|].
  apply (ingested_chunks_are_counted long_heading top_anchor (fun _ => [])
           LinkGraphExtra.guide_pages).
  vm_compute. right. left. reflexivity.
Defined.

Lemma ingest_without_toc_file_is_flat_witness :
  only_arxmgd_hhc "*.hhc" = false
  /\ forall k e, run_graph !! k = Some e ->
       LinkGraph.parent e = None /\ LinkGraph.children e = [].
Proof.
  split; [reflexivity|].
  apply (ingest_without_toc_file_is_flat long_heading top_anchor (fun _ => [])
           PosixPath.join_parent Z (list (list string)) Toy.encode
           Toy.bm25_okapi only_arxmgd_hhc (fun _ => LinkGraphExtra.guide_toc)
           true LinkGraphExtra.guide_pages run_graph run_index run_files
           run_count).
  - reflexivity.
  - vm_compute. reflexivity.
Defined.

Definition top_of_guide : AnchorEntry :=
  {| anchor_chunk_id := "arxmgd_guide_html_chunk_0"; anchor_offset := 0;
     anchor_start_offset := 0; anchor_end_offset := 1003 |}.

Lemma ingested_anchors_resolve_witness :
  exists c,
    Indexer.get_chunk_by_anchor Z (list (list string)) run_index
      "arxmgd_guide_html" "top" = Some c
    /\ chunk_id c = anchor_chunk_id top_of_guide
    /\ In c run_chunks.
Proof.
  apply (ingested_anchors_resolve long_heading top_anchor (fun _ => [])
           PosixPath.join_parent Z (list (list string)) Toy.encode
           Toy.bm25_okapi only_arxmgd_hhc (fun _ => LinkGraphExtra.guide_toc)
           true LinkGraphExtra.guide_pages run_graph run_index run_files
           run_count "arxmgd_guide_html" "top" top_of_guide).
  - vm_compute. reflexivity.
  - vm_compute. reflexivity.
Defined.

Lemma anchor_entries_describe_chunks_witness :
  PyDict.get "arxmgd_guide_html#top" [] = Some top_of_guide
  \/ exists c,
       In c (chunk_page default_config long_heading top_anchor (fun _ => [])
               [] (LinkGraphFacts.make_page "arxmgd_guide_html" "guide.html" []))
       /\ anchor_chunk_id top_of_guide = chunk_id c
       /\ anchor_start_offset top_of_guide = start_offset c
       /\ anchor_end_offset top_of_guide = end_offset c
       /\ 0 <= anchor_offset top_of_guide <= PyStr.len (html_content c).
Proof.
  apply (anchor_entries_describe_chunks default_config long_heading top_anchor
           (fun _ => []) []
           (LinkGraphFacts.make_page "arxmgd_guide_html" "guide.html" [])
           "arxmgd_guide_html#top" top_of_guide).
  vm_compute. reflexivity.
Defined.

End IngestExtra.

(* ===================================================================== *)
(** * Hybrid index: positions, chunk ids and the lexical ranker *)
(* ===================================================================== *)

Module RankerExtra.
Import Indexer.

Lemma StronglySorted_of_map {A B : Type} (R : B -> B -> Prop) (f : A -> B)
    (l : list A) :
  StronglySorted R (map f l) -> StronglySorted (fun a b => R (f a) (f b)) l.
Proof.
  induction l as [|x l IH]; cbn [map]; intros Hs; [constructor|].
  apply StronglySorted_inv in Hs as [Hs Hx]. constructor; [by apply IH|].
  rewrite List.Forall_forall in *. intros y Hy. apply Hx. by apply in_map.
Qed.

Lemma enumerate_from_bounds {A : Type} (l : list A) :
  forall j i x, In (i, x) (enumerate_from j l) ->
                j <= i < j + Z.of_nat (length l).
Proof.
  induction l as [|y l IH]; intros j i x; cbn [enumerate_from length];
    [done|].
  intros [[= <- <-]|H]; [lia|]. apply IH in H. lia.
Qed.

(** ** The metadata dict of chunks with distinct ids *)

Abbreviation entry_of :=
  (fun e : Z * DocumentChunk => (chunk_id (snd e), (snd e, fst e))).

Lemma store_fold_new (chunks : list DocumentChunk) :
  forall i (d : PyDict.t (DocumentChunk * Z)),
    List.NoDup (map chunk_id chunks) ->
    (forall c, In c chunks -> ~ In (chunk_id c) (PyDict.keys d)) ->
    fold_left
      (fun d (e : Z * DocumentChunk) =>
         PyDict.set (chunk_id (snd e)) (snd e, fst e) d)
      (enumerate_from i chunks) d
    = d ++ map entry_of (enumerate_from i chunks).
Proof.
  induction chunks as [|c chunks IH]; intros i d Hnd Hnew;
    cbn [enumerate_from fold_left map fst snd]; [by rewrite app_nil_r|].
  cbn [map] in Hnd. apply List.NoDup_cons_iff in Hnd as [Hc Hnd].
  rewrite PyDictFacts.set_new by (apply Hnew; by left).
  rewrite IH, <- app_assoc; [done | done |].
  intros c' Hc'. rewrite PyDictFacts.keys_app, in_app_iff. cbn [PyDict.keys map In fst].
  intros [H|[E|[]]].
  - apply (Hnew c'); [by right | done].
  - apply Hc. rewrite E. by apply in_map.
Qed.

Lemma find_enumerated (chunks : list DocumentChunk) :
  forall j i c,
    chunks !! i = Some c ->
    List.find (fun kv : string * (DocumentChunk * Z) =>
                 snd (snd kv) =? j + Z.of_nat i)
      (map entry_of (enumerate_from j chunks))
    = Some (chunk_id c, (c, j + Z.of_nat i)).
Proof.
  induction chunks as [|c0 chunks IH]; intros j i c; [done|].
  cbn [enumerate_from map List.find fst snd].
  destruct i as [|i]; cbn [lookup list_lookup].
  - intros [= <-]. replace (j + Z.of_nat 0) with j by lia.
    by rewrite Z.eqb_refl.
  - intros Hc. destruct (Z.eqb_spec j (j + Z.of_nat (S i))) as [E|_]; [lia|].
    replace (j + Z.of_nat (S i)) with (j + 1 + Z.of_nat i) by lia.
    by apply IH.
Qed.

Lemma find_outside (chunks : list DocumentChunk) (j idx : Z) :
  idx < j \/ j + Z.of_nat (length chunks) <= idx ->
  List.find (fun kv : string * (DocumentChunk * Z) => snd (snd kv) =? idx)
    (map entry_of (enumerate_from j chunks)) = None.
Proof.
  intros Hout.
  destruct (List.find _ _) as [[cid [c i]]|] eqn:E; [|done].
  apply find_some in E as [Hin Hi]. cbn [snd] in Hi.
  apply Z.eqb_eq in Hi. subst i.
  apply in_map_iff in Hin as ([i' c'] & [= _ _ <-] & Hin).
  apply enumerate_from_bounds in Hin. lia.
Qed.

Section WithLibraries.
Variables (Vector Score BM25 : Type).
Variable encode : string -> Vector.
Variable bm25_okapi : list (list string) -> BM25.
Variable get_scores : BM25 -> list string -> list Score.
Variable score_ltb : Score -> Score -> bool.

Abbreviation State := (Indexer.State Vector BM25).
Abbreviation Files := (Indexer.Files Vector BM25).
Abbreviation build_index := (Indexer.build_index Vector BM25 encode bm25_okapi).
Abbreviation chunk_id_of_index := (Indexer.chunk_id_of_index Vector BM25).
Abbreviation _bm25_search :=
  (Indexer._bm25_search Vector Score BM25 get_scores score_ltb).

(** X18. After [build_index] on chunks with distinct ids, the position of a
    vector or of a lexical score leads back to its chunk: position [i]
    answers to the id of the [i]-th chunk, and a position outside the chunk
    list answers to no id. *)
Theorem positions_name_chunks (self built : State) (files : Files)
    (chunks : list DocumentChunk)
    (am : option (PyDict.t Chunker.AnchorEntry)) :
  build_index self chunks am = Ok (built, files) ->
  List.NoDup (map chunk_id chunks) ->
  (forall i c, chunks !! i = Some c ->
     chunk_id_of_index built (Z.of_nat i) = Some (chunk_id c))
  /\ (forall idx, idx < 0 \/ Z.of_nat (length chunks) <= idx ->
        chunk_id_of_index built idx = None).
Proof.
  intros Hb Hnd. apply IndexerExtra.build_index_metadata in Hb.
  unfold Indexer.chunk_id_of_index. rewrite Hb.
  unfold _store_metadata, enumerate.
  rewrite store_fold_new; [|exact Hnd|by intros c _ []]. cbn [app]. split.
  - intros i c Hc.
    pose proof (find_enumerated chunks 0 i c Hc) as H.
    replace (0 + Z.of_nat i) with (Z.of_nat i) in H by lia. by rewrite H.
  - intros idx Hout. rewrite find_outside; [done | lia].
Qed.

(** X19. With an order on scores that is asymmetric and negatively
    transitive, and [k >= 0], the lexical ranker returns at most [k]
    candidates, in descending order of score, each under the id of a chunk
    of the metadata, and no id twice. *)
Theorem bm25_candidates (self : State) (bm25 : BM25) (query : string)
    (k : Z) :
  (forall x y, score_ltb x y = true -> score_ltb y x = false) ->
  (forall x y z,
     score_ltb x y = false -> score_ltb y z = false -> score_ltb x z = false) ->
  NoDup (PyDict.keys (chunk_metadata _ _ self)) ->
  0 <= k ->
  Z.of_nat (length (_bm25_search self bm25 query k)) <= k
  /\ StronglySorted (fun a b => score_ltb (snd a) (snd b) = false)
       (_bm25_search self bm25 query k)
  /\ NoDup (map fst (_bm25_search self bm25 query k))
  /\ forall c s, In (c, s) (_bm25_search self bm25 query k) ->
       is_Some (Indexer.get_chunk_by_id _ _ self c).
Proof.
  intros Hasym Htrans Hkeys Hk.
  split; [|split; [|split]].
  - unfold Indexer._bm25_search.
    set (top := slice_to k _).
    assert (Hsub : sublist
              (map snd (omap (fun e : Z * Score =>
                                option_map (fun cid => (cid, snd e))
                                  (Indexer.chunk_id_of_index _ _ self (fst e)))
                          top))
              (map snd top)).
    { apply IndexerExtra.omap_sublist. intros [i s] [c s']. cbn [fst snd].
      destruct (Indexer.chunk_id_of_index _ _ self i); [|done].
      by intros [= _ <-]. }
    apply sublist_length in Hsub. rewrite !length_map in Hsub.
    pose proof (IndexerExtra.slice_to_length k
                  (sorted_reverse
                     (fun x y : Z * Score => score_ltb (snd x) (snd y))
                     (enumerate
                        (get_scores bm25 (PyStr.split (PyStr.lower query)))))
                  Hk) as Hlen.
    fold top in Hlen. lia.
  - unfold Indexer._bm25_search.
    set (top := slice_to k _).
    apply (StronglySorted_of_map (fun x y => score_ltb x y = false) snd).
    eapply IndexerExtra.StronglySorted_sublist.
    + apply IndexerExtra.omap_sublist with (h := snd).
      intros [i s] [c s']. cbn [fst snd].
      destruct (Indexer.chunk_id_of_index _ _ self i); [|done].
      by intros [= _ <-].
    + apply (TieFacts.StronglySorted_map
               (fun a b : Z * Score => score_ltb (snd a) (snd b) = false));
        [by intros a b H|].
      eapply IndexerExtra.StronglySorted_sublist;
        [apply IndexerExtra.slice_to_sublist|].
      apply (SortedFacts.sorted_reverse_sorted
               (fun x y : Z * Score => score_ltb (snd x) (snd y))).
      * intros x y. apply Hasym.
      * intros x y z. apply Htrans.
  - by apply TieFacts.bm25_ids_distinct.
  - intros c s Hin. apply TieFacts.bm25_ids_known in Hin.
    apply TieFacts.key_has_value in Hin as [v Hv].
    unfold Indexer.get_chunk_by_id. rewrite Hv. by eexists.
Qed.

End WithLibraries.

Lemma positions_name_chunks_witness :
  (forall i c, Toy.two_chunks !! i = Some c ->
     Indexer.chunk_id_of_index Z (list (list string)) IndexerExtra.toy_built
       (Z.of_nat i) = Some (chunk_id c))
  /\ (forall idx, idx < 0 \/ Z.of_nat (length Toy.two_chunks) <= idx ->
        Indexer.chunk_id_of_index Z (list (list string))
          IndexerExtra.toy_built idx = None).
Proof.
  apply (positions_name_chunks Z (list (list string)) Toy.encode
           Toy.bm25_okapi Toy.init IndexerExtra.toy_built
           IndexerExtra.toy_files Toy.two_chunks None).
  - vm_compute. reflexivity.
  - vm_compute. repeat constructor; cbn [In]; intros H; destruct_or?; done.
Defined.

Definition toy_corpus : list (list string) :=
  match Indexer.bm25_index _ _ IndexerExtra.toy_built with
  | Some corpus => corpus
  | None => []
  end.

Lemma bm25_candidates_witness :
  Z.of_nat
    (length (Indexer._bm25_search Z Q (list (list string)) Toy.get_scores
               Qlt_bool IndexerExtra.toy_built toy_corpus "arc" 1)) <= 1
  /\ StronglySorted (fun a b => Qlt_bool (snd a) (snd b) = false)
       (Indexer._bm25_search Z Q (list (list string)) Toy.get_scores Qlt_bool
          IndexerExtra.toy_built toy_corpus "arc" 1)
  /\ NoDup
       (map fst
          (Indexer._bm25_search Z Q (list (list string)) Toy.get_scores Qlt_bool
             IndexerExtra.toy_built toy_corpus "arc" 1))
  /\ forall c s,
       In (c, s)
         (Indexer._bm25_search Z Q (list (list string)) Toy.get_scores Qlt_bool
            IndexerExtra.toy_built toy_corpus "arc" 1) ->
       is_Some
         (Indexer.get_chunk_by_id Z (list (list string))
            IndexerExtra.toy_built c).
Proof.
  apply (bm25_candidates Z Q (list (list string)) Toy.get_scores Qlt_bool
           IndexerExtra.toy_built toy_corpus "arc" 1).
  - intros x y. rewrite FusionFacts.Qlt_bool_true, FusionFacts.Qlt_bool_false.
    apply Qlt_le_weak.
  - intros x y z. rewrite !FusionFacts.Qlt_bool_false. intros H1 H2.
    by apply Qle_trans with y.
  - apply (IndexFacts.store_metadata_keys Toy.two_chunks).
  - lia.
Defined.

Example toy_bm25_candidates :
  map fst
    (Indexer._bm25_search Z Q (list (list string)) Toy.get_scores Qlt_bool
       IndexerExtra.toy_built toy_corpus "arc" 1)
  = ["arxmgd_arc_html_chunk_0"].
Proof. vm_compute. reflexivity. Qed.

End RankerExtra.

(* ===================================================================== *)
(** * Page ids and chunk ids *)
(* ===================================================================== *)

Module PageIdExtra.
Import TopicParser.

(** ** Characters of a string *)

Lemma chars_append (a b : string) :
  list_ascii_of_string (a +:+ b)
  = list_ascii_of_string a ++ list_ascii_of_string b.
Proof.
  induction a as [|c a IH]; [reflexivity|].
  change (c :: list_ascii_of_string (a +:+ b)
          = c :: (list_ascii_of_string a ++ list_ascii_of_string b)).
  by rewrite IH.
Qed.

(** The last character of a string. *)
Fixpoint last_char (s : string) : option ascii :=
  match s with
  | EmptyString => None
  | String c EmptyString => Some c
  | String _ rest => last_char rest
  end.

Lemma last_char_cons (c : ascii) (s : string) (d : ascii) :
  last_char s = Some d -> last_char (String c s) = Some d.
Proof. destruct s; [done|]. by intros <-. Qed.

Lemma last_char_append (a b : string) (d : ascii) :
  last_char b = Some d -> last_char (a +:+ b) = Some d.
Proof.
  intros Hb. induction a as [|c a IH]; [exact Hb|].
  change (last_char (String c (a +:+ b)) = Some d). by apply last_char_cons.
Qed.

Lemma substring_all (s : string) :
  String.substring 0 (String.length s) s = s.
Proof. induction s as [|c s IH]; [done|]. cbn. by rewrite IH. Qed.

Lemma last_char_substring (s : string) :
  forall n m,
    (0 < m)%nat -> (n + m = String.length s)%nat ->
    last_char (String.substring n m s) = last_char s.
Proof.
  induction s as [|c s IH]; intros n m Hm Hlen; cbn [String.length] in Hlen;
    [lia|].
  destruct n as [|n].
  - cbn [Nat.add] in Hlen. subst m. apply (f_equal last_char).
    apply (substring_all (String c s)).
  - cbn [String.substring]. rewrite IH by lia.
    destruct s as [|c' s]; [cbn [String.length] in Hlen; lia | done].
Qed.

Lemma endswith_last_char (ext s : string) (d : ascii) :
  last_char ext = Some d -> PyStr.endswith ext s = true ->
  last_char s = Some d.
Proof.
  intros Hd. unfold PyStr.endswith. intros H.
  apply andb_prop in H as [Hle Heq].
  apply Nat.leb_le in Hle. apply String.eqb_eq in Heq.
  rewrite <- Hd, <- Heq. symmetry. apply last_char_substring; [|lia].
  destruct ext; [done | cbn [String.length]; lia].
Qed.

(** ** [_generate_page_id] *)

(** What [clean_path] makes of one character. *)
Definition clean_char (c : ascii) : ascii :=
  if Ascii.eqb c "/" then "_"%char
  else if Ascii.eqb c backslash then "_"%char
  else if Ascii.eqb c "." then "_"%char
  else c.

Lemma clean_path_cons (c : ascii) (s : string) :
  clean_path (String c s) = String (clean_char c) (clean_path s).
Proof.
  unfold clean_path, clean_char. cbn [replace_char]. f_equal.
  destruct (Ascii.eqb_spec c "/") as [->|H1]; [reflexivity|].
  destruct (Ascii.eqb_spec c backslash) as [->|H2]; [reflexivity|].
  destruct (Ascii.eqb_spec c ".") as [->|H3]; [reflexivity|].
  reflexivity.
Qed.

Lemma clean_char_clean (c : ascii) :
  clean_char c <> "/"%char /\ clean_char c <> backslash
  /\ clean_char c <> "."%char.
Proof.
  unfold clean_char.
  destruct (Ascii.eqb_spec c "/"); [by vm_compute|].
  destruct (Ascii.eqb_spec c backslash); [by vm_compute|].
  destruct (Ascii.eqb_spec c "."); [by vm_compute|]. done.
Qed.

Lemma clean_char_idem (c : ascii) : clean_char (clean_char c) = clean_char c.
Proof.
  unfold clean_char.
  destruct (Ascii.eqb_spec c "/") as [->|H1]; [reflexivity|].
  destruct (Ascii.eqb_spec c backslash) as [->|H2]; [reflexivity|].
  destruct (Ascii.eqb_spec c ".") as [->|H3]; [reflexivity|].
  cbv iota.
  by rewrite (proj2 (Ascii.eqb_neq _ _) H1), (proj2 (Ascii.eqb_neq _ _) H2),
    (proj2 (Ascii.eqb_neq _ _) H3).
Qed.

Lemma clean_path_idem (p : string) : clean_path (clean_path p) = clean_path p.
Proof.
  induction p as [|c p IH]; [reflexivity|].
  by rewrite !clean_path_cons, clean_char_idem, IH.
Qed.

Lemma clean_path_length (p : string) :
  String.length (clean_path p) = String.length p.
Proof.
  induction p as [|c p IH]; [reflexivity|].
  rewrite clean_path_cons. cbn [String.length]. by rewrite IH.
Qed.

Lemma clean_path_chars (p : string) (c : ascii) :
  In c (list_ascii_of_string (clean_path p)) ->
  c <> "/"%char /\ c <> backslash /\ c <> "."%char.
Proof.
  induction p as [|c0 p IH]; [done|].
  rewrite clean_path_cons. cbn [list_ascii_of_string In].
  intros [<-|H]; [apply clean_char_clean | by apply IH].
Qed.

Lemma clean_path_last_char (p : string) :
  last_char (clean_path p) = option_map clean_char (last_char p).
Proof.
  induction p as [|c p IH]; [reflexivity|].
  rewrite clean_path_cons. destruct p as [|c' p]; [reflexivity|].
  rewrite clean_path_cons in *. exact IH.
Qed.

(** X20. A page id is the source name, an underscore and the relative path
    with every slash, backslash and dot turned into an underscore: it is as
    long as its parts, holds none of these three characters, and does not
    tell a path from its cleaned form. *)
Theorem page_id_is_clean (source : SourceType) (relative_path : string) :
  PyStr.len (_generate_page_id source relative_path)
  = PyStr.len (source_value source) + 1 + PyStr.len relative_path
  /\ (forall c,
        In c (list_ascii_of_string (_generate_page_id source relative_path)) ->
        c <> "/"%char /\ c <> backslash /\ c <> "."%char)
  /\ _generate_page_id source (clean_path relative_path)
     = _generate_page_id source relative_path.
Proof.
  unfold _generate_page_id. split; [|split].
  - rewrite !ChunkerExtra.len_append. unfold PyStr.len.
    rewrite clean_path_length. cbn [String.length]. lia.
  - intros c. rewrite !chars_append, !in_app_iff.
    intros [H|[H|H]]; [| |exact (clean_path_chars _ _ H)].
    + destruct source; cbn in H; destruct_or?; subst; try done;
        by vm_compute.
    + destruct H as [<-|[]]. by vm_compute.
  - by rewrite clean_path_idem.
Qed.

(** ** Chunk ids end in a digit *)

Definition is_digit (c : ascii) : bool :=
  ((48 <=? N_of_ascii c) && (N_of_ascii c <=? 57))%N.

Lemma pretty_N_char_digit (n : N) : is_digit (pretty_N_char n) = true.
Proof. unfold pretty_N_char. by repeat case_match. Qed.

Lemma pretty_N_go_suffix (x : N) :
  forall s, exists pre, pretty_N_go x s = pre +:+ s.
Proof.
  induction (N.lt_wf_0 x) as [x _ IH]. intros s.
  destruct (decide (0 < x)%N) as [Hx|Hx].
  - rewrite pretty_N_go_step by done.
    destruct (IH (x `div` 10)%N (N.div_lt x 10 Hx eq_refl)
                (String (pretty_N_char (x `mod` 10)) s)) as [pre ->].
    exists (pre +:+ String (pretty_N_char (x `mod` 10)) "").
    by rewrite ChunkerExtra.append_assoc.
  - assert (x = 0%N) as -> by lia. rewrite pretty_N_go_0. by exists "".
Qed.

Lemma pretty_N_last_digit (x : N) :
  exists d, last_char (pretty x) = Some d /\ is_digit d = true.
Proof.
  unfold pretty, pretty_N. destruct (decide (x = 0%N)) as [->|Hx].
  - by exists "0"%char.
  - rewrite pretty_N_go_step by lia.
    destruct (pretty_N_go_suffix (x `div` 10)%N
                (String (pretty_N_char (x `mod` 10)) "")) as [pre ->].
    exists (pretty_N_char (x `mod` 10)). split.
    + by apply last_char_append.
    + apply pretty_N_char_digit.
Qed.

Lemma pretty_Z_last_digit (z : Z) :
  exists d, last_char (pretty z) = Some d /\ is_digit d = true.
Proof.
  destruct z as [|p|p].
  - by exists "0"%char.
  - apply (pretty_N_last_digit (N.pos p)).
  - destruct (pretty_N_last_digit (N.pos p)) as (d & Hd & Hdig).
    exists d. split; [|done].
    change (pretty (Z.neg p)) with ("-" +:+ pretty (N.pos p)).
    by apply last_char_append.
Qed.

Lemma chunk_id_last_char (pid : string) (z : Z) :
  exists d,
    last_char (pid +:+ "_chunk_" +:+ pretty z) = Some d /\ is_digit d = true.
Proof.
  destruct (pretty_Z_last_digit z) as (d & Hd & Hdig).
  exists d. split; [|done]. by do 2 apply last_char_append.
Qed.

Lemma page_id_last_char (source : SourceType) (rel : string) :
  PyStr.endswith ".html" rel = true \/ PyStr.endswith ".htm" rel = true ->
  exists x,
    last_char (_generate_page_id source rel) = Some x /\ is_digit x = false.
Proof.
  intros Hext.
  assert (Hrel : exists x, last_char rel = Some x /\ is_digit x = false
                           /\ clean_char x = x).
  { destruct Hext as [H|H].
    - exists "l"%char. split; [|done]. by apply (endswith_last_char ".html").
    - exists "m"%char. split; [|done]. by apply (endswith_last_char ".htm"). }
  destruct Hrel as (x & Hx & Hxd & Hxc). exists x. split; [|done].
  unfold _generate_page_id. do 2 apply last_char_append.
  rewrite clean_path_last_char, Hx. cbn [option_map]. by rewrite Hxc.
Qed.

(** X21. A chunk id is never a key of the link graph: with page ids made by
    [_generate_page_id] from paths ending in [.html] or [.htm], every key
    of a built graph ends in a letter, while the id of a chunk ends in the
    digits of its index; so [get_neighbors] on the id of a chunk returns
    the empty record. *)
Theorem chunk_ids_are_not_graph_keys
    (join_parent : string -> string -> string)
    (toc : list LinkGraph.TOCTreeNode) (pages : list DocumentPage) :
  (forall page, In page pages ->
     exists source relative_path,
       page_id page = _generate_page_id source relative_path
       /\ (PyStr.endswith ".html" relative_path = true
           \/ PyStr.endswith ".htm" relative_path = true)) ->
  exists g,
    LinkGraph.build_graph join_parent toc pages = Some g
    /\ forall self find_all id_elements name_elements am page c,
         In c (Chunker.chunk_page self find_all id_elements name_elements am
                 page) ->
         g !! chunk_id c = None
         /\ LinkGraph.get_neighbors g (chunk_id c) = LinkGraph.no_edges.
Proof.
  intros Hids.
  destruct (LinkGraphExtra.build_graph_at join_parent toc pages)
    as (g & Hg & Hkeys & _).
  exists g. split; [exact Hg|].
  intros self find_all id_elements name_elements am page c Hc.
  assert (Hnone : g !! chunk_id c = None).
  { destruct (g !! chunk_id c) as [e|] eqn:He; [exfalso|done].
    destruct (proj1 (Hkeys (chunk_id c))) as (p & Hp & Eid); [by eexists|].
    destruct (Hids p Hp) as (source & rel & Epid & Hext).
    apply list_elem_of_In, list_elem_of_lookup in Hc as [i Hi].
    destruct (ChunkerExtra.inv_run self id_elements name_elements page am
                (Chunker.items find_all page)) as (_ & _ & Hinv).
    destruct (Hinv i c Hi) as ((_ & Ecid & _) & _).
    destruct (chunk_id_last_char (page_id page) (Z.of_nat i))
      as (d & Hd & Hdig).
    destruct (page_id_last_char source rel Hext) as (x & Hx & Hxd).
    rewrite <- Ecid, <- Eid, Epid, Hx in Hd. injection Hd as <-.
    congruence. }
  split; [exact Hnone|]. unfold LinkGraph.get_neighbors. by rewrite Hnone.
Qed.

Definition generated_pages : list DocumentPage :=
  [ LinkGraphFacts.make_page (_generate_page_id ARXMGD "guide/arc.html")
      "guide/arc.html" ["line.htm"];
    LinkGraphFacts.make_page (_generate_page_id ARXMGD "guide/line.htm")
      "guide/line.htm" [] ].

Example generated_page_ids :
  map page_id generated_pages
  = ["arxmgd_guide_arc_html"; "arxmgd_guide_line_htm"].
Proof. reflexivity. Qed.

Lemma chunk_ids_are_not_graph_keys_witness :
  exists g,
    LinkGraph.build_graph PosixPath.join_parent [] generated_pages = Some g
    /\ forall self find_all id_elements name_elements am page c,
         In c (Chunker.chunk_page self find_all id_elements name_elements am
                 page) ->
         g !! chunk_id c = None
         /\ LinkGraph.get_neighbors g (chunk_id c) = LinkGraph.no_edges.
Proof.
  apply (chunk_ids_are_not_graph_keys PosixPath.join_parent []
           generated_pages).
  intros page [<-|[<-|[]]].
  - exists ARXMGD, "guide/arc.html". split; [reflexivity|]. by left.
  - exists ARXMGD, "guide/line.htm". split; [reflexivity|]. by right.
Defined.

(** X24. Nor is a page id ever the id of a chunk: on the index left by
    [ingest_source], [get_chunk_by_id] finds nothing under the id of any
    ingested page, when page ids are made by [_generate_page_id] from paths
    ending in [.html] or [.htm]. *)
Theorem page_ids_are_not_chunk_ids
    (find_all : string -> list Chunker.Element)
    (id_elements name_elements : string -> list (string * string))
    (join_parent : string -> string -> string)
    (Vector BM25 : Type) (encode : string -> Vector)
    (bm25_okapi : list (list string) -> BM25)
    (exists_file : string -> bool)
    (read_toc : string -> list LinkGraph.TOCTreeNode)
    (root_exists : bool) (pages : list DocumentPage)
    (g : gmap string LinkGraph.Edges) (index : Indexer.State Vector BM25)
    (files : Indexer.Files Vector BM25) (n : Z) :
  (forall page, In page pages ->
     exists source relative_path,
       page_id page = _generate_page_id source relative_path
       /\ (PyStr.endswith ".html" relative_path = true
           \/ PyStr.endswith ".htm" relative_path = true)) ->
  Ingest.ingest_source find_all id_elements name_elements join_parent
    Vector BM25 encode bm25_okapi exists_file read_toc root_exists pages
  = Ingest.Ingested _ _ g index files n ->
  Forall (fun page => Indexer.get_chunk_by_id _ _ index (page_id page) = None)
    pages.
Proof.
  intros Hids H. apply IngestExtra.ingest_source_ingested in H as (_ & _ & Hb & _).
  apply IndexerExtra.build_index_metadata in Hb.
  apply List.Forall_forall. intros page Hpage.
  unfold Indexer.get_chunk_by_id. rewrite Hb.
  destruct (PyDict.get (page_id page) _) as [[c j]|] eqn:E; [exfalso|done].
  unfold Indexer._store_metadata, Indexer.enumerate in E.
  apply IndexerExtra.store_fold_get in E as [[Hin Ecid]|E]; [|done].
  apply IngestExtra.chunk_pages_chunks in Hin as (p & _ & _ & Ec & _).
  destruct (Hids page Hpage) as (source & rel & Epid & Hext).
  destruct (chunk_id_last_char (page_id p) (chunk_index c)) as (d & Hd & Hdig).
  destruct (page_id_last_char source rel Hext) as (x & Hx & Hxd).
  rewrite <- Ec, Ecid, Epid, Hx in Hd. injection Hd as <-. congruence.
Qed.

Lemma page_ids_are_not_chunk_ids_witness :
  Forall
    (fun page =>
       Indexer.get_chunk_by_id Z (list (list string)) IngestExtra.run_index
         (page_id page) = None)
    LinkGraphExtra.guide_pages.
Proof.
  apply (page_ids_are_not_chunk_ids IngestExtra.long_heading
           IngestExtra.top_anchor (fun _ => []) PosixPath.join_parent
           Z (list (list string)) Toy.encode Toy.bm25_okapi
           IngestExtra.only_arxmgd_hhc (fun _ => LinkGraphExtra.guide_toc)
           true LinkGraphExtra.guide_pages IngestExtra.run_graph
           IngestExtra.run_index IngestExtra.run_files IngestExtra.run_count).
  - intros page [<-|[<-|[<-|[]]]].
    + exists ARXMGD, "guide.html". split; [reflexivity|]. by left.
    + exists ARXMGD, "guide/arc.html". split; [reflexivity|]. by left.
    + exists ARXMGD, "guide/line.html". split; [reflexivity|]. by left.
  - vm_compute. reflexivity.
Defined.

End PageIdExtra.

(* ===================================================================== *)
(** * Chunker: the words of an overlap seed *)
(* ===================================================================== *)

Module OverlapExtra.
Import Chunker.

(** ** Splitting and joining *)

(** A string without whitespace, and a word: a non-empty one. *)
Fixpoint spaceless (s : string) : bool :=
  match s with
  | EmptyString => true
  | String c rest => negb (PyStr.isspace c) && spaceless rest
  end.

Definition is_word (w : string) : bool := PyStr.truthy w && spaceless w.

Lemma append_nil_r (a : string) : a +:+ "" = a.
Proof.
  induction a as [|c a IH]; [reflexivity|].
  change (String c (a +:+ "") = String c a). by rewrite IH.
Qed.

Lemma spaceless_snoc (w : string) (c : ascii) :
  spaceless w = true -> PyStr.isspace c = false ->
  spaceless (w +:+ String c "") = true.
Proof.
  intros Hw Hc. induction w as [|d w IH].
  - change (negb (PyStr.isspace c) && true = true). by rewrite Hc.
  - change (negb (PyStr.isspace d) && spaceless (w +:+ String c "") = true).
    cbn [spaceless] in Hw. apply andb_prop in Hw as [-> Hw]. by apply IH.
Qed.

(** [split] returns words. *)
Lemma split_from_words (s : string) :
  forall w, spaceless w = true ->
            Forall (fun x => is_word x = true) (PyStr.split_from w s).
Proof.
  induction s as [|c s IH]; intros w Hw; cbn [PyStr.split_from].
  - destruct (PyStr.truthy w) eqn:Ht; [|constructor].
    constructor; [|constructor]. unfold is_word. by rewrite Ht, Hw.
  - destruct (PyStr.isspace c) eqn:Hc.
    + destruct (PyStr.truthy w) eqn:Ht; [|by apply IH].
      constructor; [|by apply IH]. unfold is_word. by rewrite Ht, Hw.
    + apply IH. by apply spaceless_snoc.
Qed.

(** Reading a spaceless string extends the word being read. *)
Lemma split_from_spaceless (x : string) :
  forall w rest,
    spaceless x = true ->
    PyStr.split_from w (x +:+ rest) = PyStr.split_from (w +:+ x) rest.
Proof.
  induction x as [|c x IH]; intros w rest Hx.
  - by rewrite append_nil_r.
  - cbn [spaceless] in Hx. apply andb_prop in Hx as [Hc Hx].
    apply negb_true_iff in Hc.
    change (PyStr.split_from w (String c (x +:+ rest))
            = PyStr.split_from (w +:+ String c x) rest).
    cbn [PyStr.split_from]. rewrite Hc, IH by done.
    by rewrite ChunkerExtra.append_assoc.
Qed.

(** Joining words with single spaces and splitting again gives the words
    back. *)
Lemma split_join (ws : list string) :
  Forall (fun x => is_word x = true) ws ->
  PyStr.split (PyStr.join " " ws) = ws.
Proof.
  unfold PyStr.split, PyStr.join.
  induction ws as [|x ws IH]; intros Hws; [reflexivity|].
  apply Forall_cons_1 in Hws as [Hx Hws].
  unfold is_word in Hx. apply andb_prop in Hx as [Ht Hx].
  destruct ws as [|y ys].
  - cbn [String.concat].
    rewrite <- (append_nil_r x) at 1.
    rewrite split_from_spaceless by done.
    change ("" +:+ x) with x. cbn [PyStr.split_from]. by rewrite Ht.
  - change (String.concat " " (x :: y :: ys))
      with (x +:+ String " " (String.concat " " (y :: ys))).
    rewrite split_from_spaceless by done.
    change ("" +:+ x) with x. cbn [PyStr.split_from].
    change (PyStr.isspace " ") with true. cbn iota. rewrite Ht.
    f_equal. by apply IH.
Qed.

Lemma slice_from_suffix {A : Type} (n : Z) (l : list A) :
  exists pre, l = pre ++ PyStr.slice_from n l.
Proof.
  unfold PyStr.slice_from.
  destruct (n <? 0); eexists; symmetry; apply take_drop.
Qed.

Lemma slice_from_length {A : Type} (n : Z) (l : list A) :
  n < 0 -> Z.of_nat (length (PyStr.slice_from n l)) <= - n.
Proof.
  intros Hn. unfold PyStr.slice_from.
  destruct (Z.ltb_spec n 0) as [_|]; [|lia]. rewrite length_drop. lia.
Qed.

(** The words the seed is joined from. *)
Definition overlap_words (self : Config) (t : string) : list string :=
  if Z.of_nat (length (PyStr.split t)) >? overlap_tokens self / 4
  then PyStr.slice_from ((- overlap_tokens self) / 4) (PyStr.split t)
  else [].

Lemma overlap_split (self : Config) (t : string) :
  PyStr.split (_get_overlap_text self t) = overlap_words self t.
Proof.
  unfold _get_overlap_text. fold (overlap_words self t).
  apply split_join. unfold overlap_words.
  destruct (_ >? _); [|constructor].
  unfold PyStr.slice_from.
  destruct (_ <? 0); apply Forall_drop; by apply split_from_words.
Qed.

(** X23. The overlap seed is made of the last words of the buffer: split
    again, it gives a suffix of the buffer's words; for
    [overlap_tokens > 0] these are at most [-((-overlap_tokens) // 4)]
    words, the quotient rounded up; for [overlap_tokens = 0] the slice
    [words[-0:]] is the whole list, and the seed holds every word of the
    buffer. *)
Theorem overlap_seed_words (self : Config) (t : string) :
  (exists pre,
     PyStr.split t = pre ++ PyStr.split (_get_overlap_text self t))
  /\ (0 < overlap_tokens self ->
      Z.of_nat (length (PyStr.split (_get_overlap_text self t)))
      <= - ((- overlap_tokens self) / 4))
  /\ (overlap_tokens self = 0 ->
      PyStr.split (_get_overlap_text self t) = PyStr.split t).
Proof.
  rewrite overlap_split. unfold overlap_words. split; [|split].
  - destruct (_ >? _); [apply slice_from_suffix|].
    exists (PyStr.split t). by rewrite app_nil_r.
  - intros Ho. destruct (_ >? _).
    + apply slice_from_length.
      apply Z.div_lt_upper_bound; lia.
    + cbn [length]. assert ((- overlap_tokens self) / 4 < 0); [|lia].
      apply Z.div_lt_upper_bound; lia.
  - intros ->. change (- 0 / 4) with 0. change (0 / 4) with 0.
    destruct (Z.gtb_spec (Z.of_nat (length (PyStr.split t))) 0) as [_|Hle].
    + reflexivity.
    + destruct (PyStr.split t); [done | cbn [length] in Hle; lia].
Qed.

Definition no_overlap_config : Config :=
  {| target_tokens := 1000; overlap_tokens := 0; min_chunk_tokens := 200 |}.

Example default_seed :
  _get_overlap_text {| target_tokens := 3; overlap_tokens := 5;
                       min_chunk_tokens := 1 |}
    "  aaaa   bbbb cccc  "
  = "bbbb cccc".
Proof. vm_compute. reflexivity. Qed.

Example zero_overlap_seed :
  _get_overlap_text no_overlap_config "  aaaa   bbbb cccc  "
  = "aaaa bbbb cccc".
Proof. vm_compute. reflexivity. Qed.

End OverlapExtra.
